(** * A shallow embedding of the scraping engine in [scraper.py]

    The development follows the source file top-down:
    - [PyStr]: the operations on Python [str] the scraper uses;
    - the data model (the dictionaries the scraper builds, as records and
      finite maps);
    - [Dom]: the part of the selectolax tree API the extractor calls;
    - the content extractor ([_process_section], [_extract_sections], ...);
    - the outside world (HTTP client, browser) as a record of operations
      in a state-and-exception monad, the two passes and [scrape];
    - the properties.

    Strings are [String.string]; a character is one [ascii] code, read as
    the code point of the same number (U+0000..U+00FF).  [lower] and
    [isspace] are Python's on these code points. *)

From Stdlib Require Import Ascii String DecimalString ZArith Bool Arith Lia.
From Stdlib Require DecimalNat DecimalFacts.
From stdpp Require Import gmap strings list fin_maps.

(** ** Python strings *)

Module PyStr.

(** [s[:n]] *)
Fixpoint slice_to (n : nat) (s : string) : string :=
  match n, s with
  | S n', String c r => String c (slice_to n' r)
  | _, _ => ""
  end.

(** [c.isspace()] for a code point below 256: TAB..CR, FS..US, the
    blank, NEL (U+0085) and the no-break space (U+00A0). *)
Definition is_space (c : ascii) : bool :=
  let n := nat_of_ascii c in
  ((9 <=? n)%nat && (n <=? 13)%nat) || ((28 <=? n)%nat && (n <=? 32)%nat)
  || (n =? 133)%nat || (n =? 160)%nat.

(** [c.lower()] for a code point below 256: [A]-[Z] and the capital
    letters U+00C0..U+00DE (U+00D7 is the multiplication sign) move up
    by 32. *)
Definition lower_char (c : ascii) : ascii :=
  let n := nat_of_ascii c in
  if (65 <=? n)%nat && (n <=? 90)%nat then ascii_of_nat (n + 32)
  else if (192 <=? n)%nat && (n <=? 222)%nat && negb (n =? 215)%nat
       then ascii_of_nat (n + 32)
  else c.

(** [s.lower()] *)
Fixpoint lower (s : string) : string :=
  match s with
  | "" => ""
  | String c r => String (lower_char c) (lower r)
  end.

Fixpoint lstrip (s : string) : string :=
  match s with
  | "" => ""
  | String c r => if is_space c then lstrip r else s
  end.

Fixpoint rstrip (s : string) : string :=
  match s with
  | "" => ""
  | String c r =>
      match rstrip r with
      | "" => if is_space c then "" else String c ""
      | r' => String c r'
      end
  end.

(** [s.strip()] *)
Definition strip (s : string) : string := rstrip (lstrip s).

(** [needle in hay] *)
Fixpoint contains (needle hay : string) : bool :=
  if String.prefix needle hay then true
  else match hay with
       | "" => false
       | String _ r => contains needle r
       end.

(** [any(w in hay for w in words)] *)
Definition any_in (words : list string) (hay : string) : bool :=
  existsb (fun w => contains w hay) words.

(** [sep.join(parts)] *)
Fixpoint join (sep : string) (parts : list string) : string :=
  match parts with
  | [] => ""
  | [p] => p
  | p :: rest => p +:+ sep +:+ join sep rest
  end.

(** [s.split()]: the maximal runs of non-whitespace characters.
    [cur] is the run being read, in reverse. *)
Fixpoint split_ws_go (cur : list ascii) (s : string) : list string :=
  let flush := match cur with
               | [] => []
               | _ => [string_of_list_ascii (rev cur)]
               end in
  match s with
  | "" => flush
  | String c r =>
      if is_space c then flush ++ split_ws_go [] r
      else split_ws_go (c :: cur) r
  end.

Definition split_ws (s : string) : list string := split_ws_go [] s.

(** [s.split(sep)[0]] for a one-character separator. *)
Fixpoint before_char (sep : ascii) (s : string) : string :=
  match s with
  | "" => ""
  | String c r => if Ascii.eqb c sep then "" else String c (before_char sep r)
  end.

(** [str(n)] for a non-negative [int]. *)
Definition of_nat (n : nat) : string := NilZero.string_of_uint (Nat.to_uint n).

(** Truth value of a [str]. *)
Definition truthy (s : string) : bool :=
  match s with "" => false | _ => true end.

End PyStr.

(** A value that is either [None] or a [str]: what [attributes.get]
    returns, and what the [meta] dictionary holds. *)
Inductive pyval : Type :=
| PNone
| PStr (s : string).

#[global] Instance pyval_eq_dec : EqDecision pyval.
Proof. solve_decision. Defined.

Definition pyval_truthy (v : pyval) : bool :=
  match v with
  | PNone => false
  | PStr s => PyStr.truthy s
  end.

(** Truth value of a list. *)
Definition nonempty {A} (l : list A) : bool :=
  match l with [] => false | _ => true end.

(** ** Data model *)

Record Link := { link_text : string; link_href : string }.
Record Image := { img_src : string; img_alt : pyval }.

Record Content := {
  headings : list string;
  text : string;
  links : list Link;
  images : list Image;
  lists : list (list string);
  tables : list (list (list string))
}.

(** One entry of [result["sections"]]. *)
Record Sect := {
  sec_id : string;
  sec_type : string;
  sec_label : string;
  sec_sourceUrl : string;
  sec_content : Content;
  sec_rawHtml : string;
  sec_truncated : bool
}.

Record Interactions := {
  clicks : list string;
  scrolls : nat;
  pages : list string
}.

(** One entry of [result["errors"]]. *)
Record ScrapeError := {
  message : string;
  phase : string;
  suggestion : option string
}.

(** The [meta] dictionary: keys are present or absent, as in the source. *)
Abbreviation Meta := (gmap string pyval).

(** What [_static_scrape] and [_js_scrape] return: a dictionary with exactly
    the keys [meta], [sections], [interactions], [errors]. *)
Record PassResult := {
  p_meta : Meta;
  p_sections : list Sect;
  p_interactions : Interactions;
  p_errors : list ScrapeError
}.

(** What [scrape] returns. *)
Record ScrapeResult := {
  url : string;
  scrapedAt : string;
  meta : Meta;
  sections : list Sect;
  interactions : Interactions;
  errors : list ScrapeError
}.

(** ** Deduplication ([_deduplicate_sections]) *)

Definition fingerprint (t : string) : string :=
  PyStr.strip (PyStr.lower (PyStr.slice_to 100 t)).

(** One iteration of the [for section in sections] loop; the state is
    [(unique_sections, seen_texts)]. *)
Definition dedup_step (st : list Sect * gset string) (section : Sect)
  : list Sect * gset string :=
  let '(unique_sections, seen_texts) := st in
  let fp := fingerprint (text (sec_content section)) in
  if PyStr.truthy fp && negb (bool_decide (fp ∈ seen_texts)) then
    (unique_sections ++ [section], {[fp]} ∪ seen_texts)
  else if negb (PyStr.truthy fp) && nonempty (headings (sec_content section)) then
    (unique_sections ++ [section], seen_texts)
  else st.

Definition _deduplicate_sections (sections : list Sect) : list Sect :=
  if (length sections <=? 1)%nat then sections
  else fst (fold_left dedup_step sections ([], ∅)).

(** ** The needs-rendering heuristic ([_needs_js_rendering]) *)

Definition blocked_errors : list string :=
  ["403"; "429"; "Forbidden"; "Too Many Requests"].

Definition is_blocked (errs : list ScrapeError) : bool :=
  existsb (fun e => existsb (fun block => PyStr.contains block (message e))
                      blocked_errors) errs.

Definition total_text (secs : list Sect) : nat :=
  foldr (fun s acc => String.length (text (sec_content s)) + acc) 0 secs.

Definition _needs_js_rendering (result : ScrapeResult) : bool :=
  if is_blocked (errors result) then false
  else if (length (sections result) <? 2)%nat then true
  else if (total_text (sections result) <? 200)%nat then true
  else false.

(** ** Exceptions

    Every exception the modelled code can see is an instance of
    [Exception]; the class decides which [except] clause takes it and
    [exc_str] is [str(e)]. *)

Inductive exc_class : Type :=
| HTTPStatusError (status_code : nat) (reason_phrase : string)
| TimeoutException
| PlaywrightTimeout
| OtherException.

Record exc := { exc_cls : exc_class; exc_str : string }.

Inductive res (A : Type) : Type :=
| Ok (a : A)
| Raise (e : exc).
Arguments Ok {A} a.
Arguments Raise {A} e.

#[global] Instance res_ret : MRet res := fun A a => Ok a.
#[global] Instance res_bind : MBind res := fun A B f m =>
  match m with
  | Ok a => f a
  | Raise e => Raise e
  end.

(** Sequencing, computation first: [x <- m ;; k]. *)
Definition bind_ {F : Type -> Type} `{MBind F} {A B : Type} (m : F A) (f : A -> F B)
  : F B := mbind f m.

Notation "x <- m ;; k" := (bind_ m (fun x => k))
  (at level 62, m at next level, right associativity).

(** [AttributeError] of a method call on [None]. *)
Definition attribute_error (attr : string) : exc :=
  {| exc_cls := OtherException;
     exc_str := "'NoneType' object has no attribute '" +:+ attr +:+ "'" |}.

(** ** The markup tree (selectolax) *)

Module Dom.

(** A parsed tree.  An attribute written without a value has value
    [None]; one written with an empty value has value [Some ""]. *)
#[local] Unset Elimination Schemes.
Inductive node : Type :=
| Text (s : string)
| Elem (tag : string) (attrs : list (string * option string)) (kids : list node).
#[local] Set Elimination Schemes.

(** [node.tag] *)
Definition tag_of (n : node) : string :=
  match n with
  | Text _ => "-text"
  | Elem t _ _ => t
  end.

(** Every node below [n] in document order, each with the siblings that
    follow it (the chain of [.next]). *)
Fixpoint below (n : node) : list (node * list node) :=
  match n with
  | Text _ => []
  | Elem _ _ ks =>
      (fix go (l : list node) : list (node * list node) :=
         match l with
         | [] => []
         | k :: r => (k, r) :: below k ++ go r
         end) ks
  end.

Definition descendants (n : node) : list node := map fst (below n).

(** The selectors the scraper uses: a group of tag names ([ul, ol]) or a
    tag with one attribute test ([meta[name="description"]]). *)
Inductive selector : Type :=
| Tags (ts : list string)
| TagAttr (t : string) (k v : string).

Fixpoint attr_lookup (k : string) (attrs : list (string * option string))
  : option (option string) :=
  match attrs with
  | [] => None
  | (k', v) :: r => if String.eqb k k' then Some v else attr_lookup k r
  end.

(** The value [node.attributes] holds for an attribute that is present:
    [None] when the markup gives it no value or an empty one. *)
Definition attr_value (v : option string) : pyval :=
  match v with
  | None => PNone
  | Some "" => PNone
  | Some v => PStr v
  end.

(** [node.attributes.get(k, default)] *)
Definition attr_get (n : node) (k : string) (default : pyval) : pyval :=
  match n with
  | Text _ => default
  | Elem _ attrs _ =>
      match attr_lookup k attrs with
      | None => default
      | Some v => attr_value v
      end
  end.

Definition matches (sel : selector) (n : node) : bool :=
  match n with
  | Text _ => false
  | Elem t attrs _ =>
      match sel with
      | Tags ts => existsb (String.eqb t) ts
      | TagAttr t' k v =>
          String.eqb t t' &&
          match attr_lookup k attrs with
          | Some (Some v') => String.eqb v v'
          | _ => false
          end
      end
  end.

(** The candidates a selector picks.  A group is answered selector by
    selector: for [h1, h2, h3] every [h1] in document order, then every
    [h2], then every [h3].  [proj] gives the node of a candidate. *)
Definition select {A} (proj : A -> node) (sel : selector) (cands : list A) : list A :=
  match sel with
  | Tags ts =>
      flat_map (fun t => filter (fun d => matches (Tags [t]) (proj d) = true) cands) ts
  | TagAttr _ _ _ => filter (fun d => matches sel (proj d) = true) cands
  end.

(** [element.css(sel)]: the matching nodes below the element.  (Whether
    the element itself is a candidate makes no difference here: the
    scraper never queries an element for its own tag.) *)
Definition css (sel : selector) (n : node) : list node :=
  select id sel (descendants n).

(** [parser.css(sel)] on a whole document, given by its root. *)
Definition css_doc (sel : selector) (root : node) : list node :=
  select id sel (root :: descendants root).

Definition css_first_doc (sel : selector) (root : node) : option node :=
  head (css_doc sel root).

(** [node.text(strip=True)]: the text nodes in document order, each one
    stripped, concatenated. *)
Definition own_text (n : node) : string :=
  match n with
  | Text s => PyStr.strip s
  | Elem _ _ _ => ""
  end.

Definition text_strip (n : node) : string :=
  match n with
  | Text s => PyStr.strip s
  | Elem _ _ _ => PyStr.join "" (map own_text (descendants n))
  end.

(** [node.html]: the serialisation of the HTML standard.  Text and
    attribute values are escaped, a void element has no end tag, and the
    text of [script], [style] and the like is written as it is. *)
Definition void_tags : list string :=
  ["area"; "base"; "basefont"; "bgsound"; "br"; "col"; "embed"; "frame"; "hr";
   "img"; "input"; "keygen"; "link"; "meta"; "param"; "source"; "track"; "wbr"].

Definition raw_text_tags : list string :=
  ["style"; "script"; "xmp"; "iframe"; "noembed"; "noframes"; "plaintext"].

Definition mem (t : string) (ts : list string) : bool := existsb (String.eqb t) ts.

Definition escape_char (in_attr : bool) (c : ascii) : string :=
  let n := nat_of_ascii c in
  if (n =? 38)%nat then "&amp;"
  else if (n =? 160)%nat then "&nbsp;"
  else if in_attr then (if (n =? 34)%nat then "&quot;" else String c "")
  else if (n =? 60)%nat then "&lt;"
  else if (n =? 62)%nat then "&gt;"
  else String c "".

Fixpoint escape (in_attr : bool) (s : string) : string :=
  match s with
  | "" => ""
  | String c r => escape_char in_attr c +:+ escape in_attr r
  end.

Definition html_attr (a : string * option string) : string :=
  let '(k, v) := a in
  " " +:+ k +:+ "=" +:+ String "034" (escape true (default "" v)) +:+ String "034" "".

Fixpoint html_in (raw : bool) (n : node) : string :=
  match n with
  | Text s => if raw then s else escape false s
  | Elem t attrs ks =>
      "<" +:+ t +:+ PyStr.join "" (map html_attr attrs) +:+ ">"
      +:+ (if mem t void_tags then ""
           else PyStr.join "" (map (html_in (mem t raw_text_tags)) ks)
                +:+ "</" +:+ t +:+ ">")
  end.

Definition html (n : node) : string := html_in false n.

(** [a == b] on nodes compares their serialisations. *)
Definition node_eqb (a b : node) : bool := String.eqb (html a) (html b).

End Dom.
Import Dom.

(** ** The content extractor *)

Section Extractor.

(** [urllib.parse.urljoin]; it raises [ValueError] on some malformed
    inputs. *)
Variable urljoin : string -> string -> res string.

Definition long_text (min : nat) (t : string) : bool :=
  PyStr.truthy t && (min <? String.length t)%nat.

(** The [for div in element.css("div")] loop, with its [break]. *)
Fixpoint div_loop (divs : list node) (text_parts : list string) : list string :=
  match divs with
  | [] => text_parts
  | div :: rest =>
      let t := text_strip div in
      if long_text 30 t then
        let text_parts' := text_parts ++ [t] in
        if (5 <=? length text_parts')%nat then text_parts'
        else div_loop rest text_parts'
      else div_loop rest text_parts
  end.

(** The [for link in element.css("a")] loop. *)
Fixpoint links_loop (url : string) (as_ : list node) (acc : list Link)
  : res (list Link) :=
  match as_ with
  | [] => Ok acc
  | link :: rest =>
      let href := attr_get link "href" (PStr "") in
      let t := text_strip link in
      match href with
      | PStr h =>
          if PyStr.truthy h && PyStr.truthy t then
            absolute_url <- urljoin url h ;;
            let acc' := acc ++ [{| link_text := PyStr.slice_to 100 t;
                                   link_href := absolute_url |}] in
            if (20 <=? length acc')%nat then Ok acc' else links_loop url rest acc'
          else links_loop url rest acc
      | PNone => links_loop url rest acc
      end
  end.

(** [a or b] on attribute values. *)
Definition py_or (a b : pyval) : pyval := if pyval_truthy a then a else b.

(** The [for img in element.css("img")] loop. *)
Fixpoint images_loop (url : string) (imgs : list node) (acc : list Image)
  : res (list Image) :=
  match imgs with
  | [] => Ok acc
  | img :: rest =>
      let src := py_or (attr_get img "src" (PStr "")) (attr_get img "data-src" (PStr "")) in
      let alt := attr_get img "alt" (PStr "") in
      match src with
      | PStr s =>
          if PyStr.truthy s then
            absolute_src <- urljoin url s ;;
            let acc' := acc ++ [{| img_src := absolute_src; img_alt := alt |}] in
            if (10 <=? length acc')%nat then Ok acc' else images_loop url rest acc'
          else images_loop url rest acc
      | PNone => images_loop url rest acc
      end
  end.

(** The [for ul in element.css("ul, ol")] loop. *)
Fixpoint lists_loop (uls : list node) (acc : list (list string))
  : list (list string) :=
  match uls with
  | [] => acc
  | ul :: rest =>
      let items :=
        map (PyStr.slice_to 200)
            (filter (fun t => PyStr.truthy t = true)
                    (map text_strip (css (Tags ["li"]) ul))) in
      let acc' := if nonempty items then acc ++ [take 20 items] else acc in
      if (5 <=? length acc')%nat then acc' else lists_loop rest acc'
  end.

(** The [for row in table.css("tr")] loop. *)
Fixpoint rows_loop (rows : list node) (table_data : list (list string))
  : list (list string) :=
  match rows with
  | [] => table_data
  | row :: rest =>
      let row_data :=
        map (fun cell => PyStr.slice_to 100 (text_strip cell))
            (css (Tags ["td"; "th"]) row) in
      let table_data' :=
        if nonempty row_data then table_data ++ [row_data] else table_data in
      if (20 <=? length table_data')%nat then table_data'
      else rows_loop rest table_data'
  end.

(** The [for table in element.css("table")] loop. *)
Fixpoint tables_loop (tbls : list node) (acc : list (list (list string)))
  : list (list (list string)) :=
  match tbls with
  | [] => acc
  | table :: rest =>
      let table_data := rows_loop (css (Tags ["tr"]) table) [] in
      let acc' := if nonempty table_data then acc ++ [table_data] else acc in
      if (3 <=? length acc')%nat then acc' else tables_loop rest acc'
  end.

(** [_detect_section_type].  [.split()] and [.lower()] are called on the
    attribute value, which is [None] for an attribute whose value is
    missing or empty. *)
Definition _detect_section_type (element : node) (content : Content) : res string :=
  classes <- match attr_get element "class" (PStr "") with
            | PStr c => Ok (PyStr.lower (PyStr.join " " (PyStr.split_ws c)))
            | PNone => Raise (attribute_error "split")
            end ;;
  element_id <- match attr_get element "id" (PStr "") with
               | PStr i => Ok (PyStr.lower i)
               | PNone => Raise (attribute_error "lower")
               end ;;
  let combined := classes +:+ " " +:+ element_id in
  Ok (if PyStr.any_in ["hero"; "banner"; "jumbotron"; "masthead"] combined then "hero"
      else if PyStr.any_in ["nav"; "menu"; "navigation"; "navbar"] combined then "nav"
      else if PyStr.any_in ["footer"; "foot"] combined then "footer"
      else if PyStr.any_in ["faq"; "question"; "accordion"] combined then "faq"
      else if PyStr.any_in ["pricing"; "price"; "plan"; "tier"] combined then "pricing"
      else if PyStr.any_in ["grid"; "gallery"; "cards"] combined then "grid"
      else if (0 <? length (lists content))%nat then "list"
      else "section").

Definition type_labels : list (string * string) :=
  [("hero", "Hero"); ("nav", "Navigation"); ("footer", "Footer"); ("faq", "FAQ");
   ("pricing", "Pricing"); ("grid", "Grid"); ("list", "List");
   ("section", "Section"); ("article", "Article")].

Fixpoint assoc_get (k : string) (l : list (string * string)) (default : string)
  : string :=
  match l with
  | [] => default
  | (k', v) :: r => if String.eqb k k' then v else assoc_get k r default
  end.

(** [_create_label] *)
Definition _create_label (content : Content) (section_type : string) : string :=
  match headings content with
  | h :: _ => PyStr.slice_to 80 h
  | [] =>
      let base_label := assoc_get section_type type_labels "Section" in
      if PyStr.truthy (text content) then
        let words := take 10 (PyStr.split_ws (text content)) in
        let context := PyStr.join " " words in
        if (15 <? String.length context)%nat then base_label +:+ ": " +:+ context
        else base_label
      else base_label
  end.

Definition heading_levels : list string := ["h1"; "h2"; "h3"; "h4"; "h5"; "h6"].

(** [_process_section] *)
Definition _process_section (element : node) (section_type : string)
    (idx : nat) (url : string) : res Sect :=
  let hs :=
    flat_map (fun h => filter (fun t => PyStr.truthy t = true)
                         (map text_strip (css (Tags [h]) element)))
             heading_levels in
  let text_parts :=
    filter (fun t => long_text 10 t = true)
           (map text_strip (css (Tags ["p"]) element)) in
  let text_parts :=
    if (length text_parts <? 2)%nat
    then div_loop (css (Tags ["div"]) element) text_parts
    else text_parts in
  let txt := PyStr.join " " (take 15 text_parts) in
  lks <- links_loop url (css (Tags ["a"]) element) [] ;;
  imgs <- images_loop url (css (Tags ["img"]) element) [] ;;
  let lsts := lists_loop (css (Tags ["ul"; "ol"]) element) [] in
  let tbls := tables_loop (css (Tags ["table"]) element) [] in
  let content := {| headings := hs; text := txt; links := lks; images := imgs;
                    lists := lsts; tables := tbls |} in
  detected_type <- _detect_section_type element content ;;
  let detected_type :=
    if String.eqb section_type "header" then "hero"
    else if String.eqb section_type "nav" then "nav"
    else if String.eqb section_type "footer" then "footer"
    else if String.eqb section_type "article" then "section"
    else detected_type in
  let label := _create_label content detected_type in
  let raw_html := html element in
  let truncated := (1000 <? String.length raw_html)%nat in
  let raw_html := if truncated then PyStr.slice_to 1000 raw_html +:+ "..." else raw_html in
  Ok {| sec_id := detected_type +:+ "-" +:+ PyStr.of_nat idx;
        sec_type := detected_type;
        sec_label := label;
        sec_sourceUrl := url;
        sec_content := content;
        sec_rawHtml := raw_html;
        sec_truncated := truncated |}.

(** [section["content"]["text"] or section["content"]["headings"]] *)
Definition has_content (s : Sect) : bool :=
  PyStr.truthy (text (sec_content s)) || nonempty (headings (sec_content s)).

Definition is_h123 (n : node) : bool :=
  existsb (String.eqb (tag_of n)) ["h1"; "h2"; "h3"].

(** The [while current and current.tag not in [...]] loop: [nexts] is the
    chain [heading.next], [.next.next], ...; the loop leaves as soon as
    more than 15 elements were taken. *)
Fixpoint following (nexts : list node) (content_elements : list node) : list node :=
  match nexts with
  | [] => content_elements
  | current :: rest =>
      if is_h123 current then content_elements
      else
        let content_elements' := content_elements ++ [current] in
        if (15 <? length content_elements')%nat then content_elements'
        else following rest content_elements'
  end.

(** [HTMLParser(section_html).css_first("section")], where [section_html]
    is the serialisation of the heading and of the collected siblings
    between [<section>] and [</section>]: parsing a serialised tree gives
    the tree back. *)
Definition virtual_section (heading : node) (content_elements : list node) : node :=
  Elem "section" [] (heading :: content_elements).

(** The [for idx, heading in enumerate(headings[:15])] loop. *)
Fixpoint headings_loop (url : string) (hs : list (node * list node))
    (sections : list Sect) : res (list Sect) :=
  match hs with
  | [] => Ok sections
  | (heading, nexts) :: rest =>
      let content_elements := following nexts [] in
      let virtual := virtual_section heading content_elements in
      section <- _process_section virtual "section" (length sections) url ;;
      headings_loop url rest
        (if has_content section then sections ++ [section] else sections)
  end.

(** [_extract_by_headings] *)
Definition _extract_by_headings (parser : node) (url : string) : res (list Sect) :=
  match css_first_doc (Tags ["body"]) parser with
  | None => Ok []
  | Some body =>
      let hs := select fst (Tags ["h1"; "h2"; "h3"]) (below body) in
      headings_loop url (take 15 hs) []
  end.

Definition add_first (kind : string) (parser : node)
    (landmarks : list (string * node)) : list (string * node) :=
  match css_first_doc (Tags [kind]) parser with
  | Some n => landmarks ++ [(kind, n)]
  | None => landmarks
  end.

(** [article_elem not in [l[1] for l in landmarks]] *)
Definition add_article (landmarks : list (string * node)) (article_elem : node)
  : list (string * node) :=
  if existsb (node_eqb article_elem) (map snd landmarks) then landmarks
  else landmarks ++ [("article", article_elem)].

Definition find_landmarks (parser : node) : list (string * node) :=
  let landmarks := add_first "main" parser [] in
  let landmarks := add_first "article" parser landmarks in
  let landmarks := add_first "header" parser landmarks in
  let landmarks := add_first "nav" parser landmarks in
  let landmarks := add_first "footer" parser landmarks in
  let landmarks :=
    landmarks ++ map (fun e => ("section", e)) (css_doc (Tags ["section"]) parser) in
  let landmarks :=
    if (length landmarks <? 3)%nat
    then fold_left add_article (css_doc (Tags ["article"]) parser) landmarks
    else landmarks in
  if nonempty landmarks then landmarks
  else match css_first_doc (Tags ["body"]) parser with
       | Some body => [("body", body)]
       | None => []
       end.

(** The [for idx, (landmark_type, element) in enumerate(landmarks)] loop. *)
Fixpoint landmarks_loop (url : string) (idx : nat) (landmarks : list (string * node))
    (sections : list Sect) : res (list Sect) :=
  match landmarks with
  | [] => Ok sections
  | (landmark_type, element) :: rest =>
      section <- _process_section element landmark_type idx url ;;
      landmarks_loop url (S idx) rest
        (if has_content section then sections ++ [section] else sections)
  end.

(** [_extract_sections] *)
Definition _extract_sections (parser : node) (url : string) : res (list Sect) :=
  sections <- landmarks_loop url 0 (find_landmarks parser) [] ;;
  sections <- (if (length sections <? 3)%nat
              then heading_sections <- _extract_by_headings parser url ;;
                   Ok (sections ++ heading_sections)
              else Ok sections) ;;
  Ok (_deduplicate_sections sections).

End Extractor.

(** [_extract_meta] *)
Definition _extract_meta (urljoin : string -> string -> res string)
    (parser : node) (url : string) : res Meta :=
  let content_of (n : node) := attr_get n "content" (PStr "") in
  let title :=
    match css_first_doc (Tags ["title"]) parser with
    | Some title_tag => PStr (text_strip title_tag)
    | None => PStr ""
    end in
  let title :=
    if pyval_truthy title then title
    else match css_first_doc (TagAttr "meta" "property" "og:title") parser with
         | Some og_title => content_of og_title
         | None => title
         end in
  let title :=
    if pyval_truthy title then title
    else match css_first_doc (TagAttr "meta" "name" "twitter:title") parser with
         | Some twitter_title => content_of twitter_title
         | None => title
         end in
  let description :=
    match css_first_doc (TagAttr "meta" "name" "description") parser with
    | Some desc_tag => content_of desc_tag
    | None => PStr ""
    end in
  let description :=
    if pyval_truthy description then description
    else match css_first_doc (TagAttr "meta" "property" "og:description") parser with
         | Some og_desc => content_of og_desc
         | None => description
         end in
  let description :=
    if pyval_truthy description then description
    else match css_first_doc (TagAttr "meta" "name" "twitter:description") parser with
         | Some twitter_desc => content_of twitter_desc
         | None => description
         end in
  let language :=
    match css_first_doc (Tags ["html"]) parser with
    | Some html_tag =>
        match attr_get html_tag "lang" (PStr "en") with
        | PStr lang => if PyStr.truthy lang then PStr (PyStr.before_char "-" lang)
                       else PStr "en"
        | PNone => PStr "en"
        end
    | None => PStr "en"
    end in
  canonical <-
    match css_first_doc (TagAttr "link" "rel" "canonical") parser with
    | Some canonical_tag =>
        match attr_get canonical_tag "href" (PStr "") with
        | PStr canonical_url =>
            if PyStr.truthy canonical_url
            then u <- urljoin url canonical_url ;; Ok (PStr u)
            else Ok PNone
        | PNone => Ok PNone
        end
    | None => Ok PNone
    end ;;
  Ok (<["title" := title]>
      (<["description" := description]>
       (<["language" := language]>
        (<["canonical" := canonical]> (∅ : Meta))))).

(** ** State and exceptions

    A computation reads and changes a state and either returns or raises.
    The state survives a raise: what a script stored before it failed is
    still there when the exception is caught. *)

Definition M (S A : Type) : Type := S -> res A * S.

#[global] Instance M_ret {S} : MRet (M S) := fun A a s => (Ok a, s).
#[global] Instance M_bind {S} : MBind (M S) := fun A B f m s =>
  match m s with
  | (Ok a, s') => f a s'
  | (Raise e, s') => (Raise e, s')
  end.

Definition modify {S} (f : S -> S) : M S unit := fun s => (Ok tt, f s).
Definition gets {S A} (f : S -> A) : M S A := fun s => (Ok (f s), s).
Definition of_res {S A} (r : res A) : M S A := fun s => (r, s).

(** [try: m  except Exception as e: h e] *)
Definition try_except {S A} (m : M S A) (h : exc -> M S A) : M S A := fun s =>
  match m s with
  | (Ok a, s') => (Ok a, s')
  | (Raise e, s') => h e s'
  end.

(** [try: m  except: pass] *)
Definition attempt {S} (m : M S unit) : M S unit :=
  try_except m (fun _ => mret tt).

(** [try: m  finally: f] *)
Definition finally {S A} (m : M S A) (f : M S unit) : M S A := fun s =>
  match m s with
  | (o, s') =>
      match f s' with
      | (Ok _, s'') => (o, s'')
      | (Raise e, s'') => (Raise e, s'')
      end
  end.

(** Run a computation on one component of the state. *)
Definition zoom {S T A} (get : S -> T) (set : T -> S -> S) (m : M T A) : M S A :=
  fun s => match m (get s) with (o, t') => (o, set t' s) end.

(** ** The outside world

    [B] is the state of everything the scraper talks to (network, browser
    session, clock, random source); [H] are element handles; [JS] are the
    values scripts return.  Every operation may raise. *)

Record World := {
  B : Type;
  H : Type;
  JS : Type;
  PLAYWRIGHT_AVAILABLE : bool;
  (** [datetime.now(timezone.utc).isoformat()] *)
  utcnow : B -> string;
  (** [urlparse(url).netloc] *)
  urlparse_netloc : string -> res string;
  urljoin : string -> string -> res string;
  (** the pause, the client, [client.get(url)], [raise_for_status()] and
      [HTMLParser(response.text)] *)
  fetch : string -> M B node;
  (** [async with async_playwright()]: entering and leaving *)
  playwright_start : M B unit;
  playwright_stop : M B unit;
  launch : M B unit;
  new_context : M B unit;
  new_page : M B unit;
  add_init_script : M B unit;
  goto : string -> M B unit;
  (** [page.wait_for_timeout(random.randint(lo, hi))] *)
  wait_for_timeout : nat -> nat -> M B unit;
  wait_for_selector : string -> M B unit;
  wait_for_load_state : M B unit;
  evaluate : string -> M B JS;
  (** [==] on script values *)
  js_eqb : JS -> JS -> bool;
  (** the text of [window.scrollBy(0, (target - current) / (steps - step))],
      a floating-point quotient *)
  scroll_script : JS -> JS -> nat -> nat -> string;
  (** [random.randint(lo, hi)] *)
  randint : nat -> nat -> B -> nat * B;
  query_selector_all : string -> M B (list H);
  query_selector : string -> M B (option H);
  scroll_into_view_if_needed : H -> M B unit;
  click : H -> M B unit;
  is_visible : H -> M B bool;
  get_attribute : H -> string -> M B (option string);
  (** [str(page.url)] *)
  page_url : M B string;
  (** [HTMLParser(await page.content())] *)
  content : M B node;
  browser_close : M B unit
}.

(** ** The two passes and the orchestrator *)

(** The frame of a running function: the world, the [result] dictionary it
    fills and its other local variables. *)
Record Frame (W R L : Type) := MkFrame { world : W; result : R; locals : L }.
Arguments MkFrame {W R L}.
Arguments world {W R L}.
Arguments result {W R L}.
Arguments locals {W R L}.

Definition set_world {W R L} (b : W) (f : Frame W R L) : Frame W R L :=
  MkFrame b (result f) (locals f).
Definition on_result {W R L} (g : R -> R) (f : Frame W R L) : Frame W R L :=
  MkFrame (world f) (g (result f)) (locals f).
Definition on_locals {W R L} (g : L -> L) (f : Frame W R L) : Frame W R L :=
  MkFrame (world f) (result f) (g (locals f)).

(** An operation of the world, run from inside a frame. *)
Definition io {W R L A} (m : M W A) : M (Frame W R L) A := zoom world set_world m.

Fixpoint for_each {S A} (l : list A) (body : A -> M S unit) : M S unit :=
  match l with
  | [] => mret tt
  | x :: rest => _ <- body x ;; for_each rest body
  end.

(** [enumerate(l)] *)
Definition enumerate {A} (l : list A) : list (nat * A) :=
  combine (seq 0 (length l)) l.

Definition mk_error (msg ph : string) : ScrapeError :=
  {| message := msg; phase := ph; suggestion := None |}.

(** Updates of a pass result. *)
Definition p_set_meta (m : Meta) (r : PassResult) : PassResult :=
  {| p_meta := m; p_sections := p_sections r;
     p_interactions := p_interactions r; p_errors := p_errors r |}.
Definition p_set_sections (s : list Sect) (r : PassResult) : PassResult :=
  {| p_meta := p_meta r; p_sections := s;
     p_interactions := p_interactions r; p_errors := p_errors r |}.
Definition p_set_interactions (i : Interactions) (r : PassResult) : PassResult :=
  {| p_meta := p_meta r; p_sections := p_sections r;
     p_interactions := i; p_errors := p_errors r |}.
Definition p_push_error (e : ScrapeError) (r : PassResult) : PassResult :=
  {| p_meta := p_meta r; p_sections := p_sections r;
     p_interactions := p_interactions r; p_errors := p_errors r ++ [e] |}.

Definition set_clicks (c : list string) (i : Interactions) : Interactions :=
  {| clicks := c; scrolls := scrolls i; pages := pages i |}.
Definition set_scrolls (n : nat) (i : Interactions) : Interactions :=
  {| clicks := clicks i; scrolls := n; pages := pages i |}.
Definition set_pages (p : list string) (i : Interactions) : Interactions :=
  {| clicks := clicks i; scrolls := scrolls i; pages := p |}.

(** The initial [result] of a pass. *)
Definition pass_init (strategy url : string) : PassResult :=
  {| p_meta := {[ "strategy" := PStr strategy ]};
     p_sections := [];
     p_interactions := {| clicks := []; scrolls := 0; pages := [url] |};
     p_errors := [] |}.

Definition max_scrolls : nat := 3.
Definition max_pages : nat := 3.

Section Passes.

Context (w : World).

(** *** [_static_scrape] *)

Definition static_body (url : string) : M (Frame (B w) PassResult unit) unit :=
  try_except
    (parser <- io (fetch w url) ;;
     m <- of_res (_extract_meta (urljoin w) parser url) ;;
     _ <- modify (on_result (p_set_meta (<["strategy" := PStr "static"]> m))) ;;
     secs <- of_res (_extract_sections (urljoin w) parser url) ;;
     modify (on_result (p_set_sections secs)))
    (fun e =>
       match exc_cls e with
       | HTTPStatusError status_code reason_phrase =>
           modify (on_result (p_push_error
             {| message := "HTTP " +:+ PyStr.of_nat status_code +:+ ": " +:+ reason_phrase;
                phase := "fetch";
                suggestion :=
                  Some "Site may be blocking automated requests. Try JS rendering." |}))
       | TimeoutException =>
           modify (on_result (p_push_error
             (mk_error "Request timed out after 30 seconds" "fetch")))
       | _ =>
           modify (on_result (p_push_error (mk_error (exc_str e) "fetch")))
       end).

(** Run a function body in a fresh frame and return its [result]. *)
Definition call {R L} (r0 : R) (l0 : L) (body : M (Frame (B w) R L) unit)
  : M (B w) R :=
  fun b => match body (MkFrame b r0 l0) with
           | (Ok _, f) => (Ok (result f), world f)
           | (Raise e, f) => (Raise e, world f)
           end.

Definition _static_scrape (url : string) : M (B w) PassResult :=
  call (pass_init "static" url) tt (static_body url).

(** *** The interaction scripts *)

(** The local variables of the three scripts. *)
Record JsLocals := {
  clicks_v : list string;
  scrolls_v : nat;
  visited_pages : list string;
  next_link : option (H w)
}.

Definition set_clicks_v (c : list string) (l : JsLocals) : JsLocals :=
  {| clicks_v := c; scrolls_v := scrolls_v l;
     visited_pages := visited_pages l; next_link := next_link l |}.
Definition set_scrolls_v (n : nat) (l : JsLocals) : JsLocals :=
  {| clicks_v := clicks_v l; scrolls_v := n;
     visited_pages := visited_pages l; next_link := next_link l |}.
Definition set_visited (v : list string) (l : JsLocals) : JsLocals :=
  {| clicks_v := clicks_v l; scrolls_v := scrolls_v l;
     visited_pages := v; next_link := next_link l |}.
Definition set_next_link (n : option (H w)) (l : JsLocals) : JsLocals :=
  {| clicks_v := clicks_v l; scrolls_v := scrolls_v l;
     visited_pages := visited_pages l; next_link := n |}.

Abbreviation J := (M (Frame (B w) PassResult JsLocals)).

(** [q s] is [s] between double quotes. *)
Definition q (s : string) : string := String "034" s +:+ String "034" "".

Definition noise_selectors : list string :=
  ["[class*=" +:+ q "cookie" +:+ "]"; "[id*=" +:+ q "cookie" +:+ "]";
   "[class*=" +:+ q "modal" +:+ "]"; "[class*=" +:+ q "overlay" +:+ "]";
   "[class*=" +:+ q "popup" +:+ "]"; "[class*=" +:+ q "consent" +:+ "]";
   "[aria-label*=" +:+ q "cookie" +:+ " i]";
   "[aria-label*=" +:+ q "consent" +:+ " i]"; ".gdpr"; "#gdpr"].

Definition _remove_noise : J unit :=
  for_each noise_selectors (fun selector =>
    attempt (_ <- io (evaluate w ("document.querySelectorAll('" +:+ selector
                                 +:+ "').forEach(el => el.remove());")) ;;
             mret tt)).

Definition push_click (c : string) : J unit :=
  modify (on_locals (fun l => set_clicks_v (clicks_v l ++ [c]) l)).

Definition tab_selectors : list string :=
  ["[role=" +:+ q "tab" +:+ "]"; "button[aria-selected]"; ".tab:not(.active)";
   ".tabs button"; "[data-tab]"].

Definition load_more_selectors : list string :=
  ["button:has-text(" +:+ q "Load more" +:+ ")";
   "button:has-text(" +:+ q "Show more" +:+ ")";
   "button:has-text(" +:+ q "View more" +:+ ")";
   "button:has-text(" +:+ q "Read more" +:+ ")";
   "a:has-text(" +:+ q "Load more" +:+ ")";
   "[class*=" +:+ q "load-more" +:+ "]";
   "[class*=" +:+ q "show-more" +:+ "]"].

(** The body of [for i, tab in enumerate(tabs[:3])]. *)
Definition click_tab (selector : string) (it : nat * H w) : J unit :=
  let '(i, tab) := it in
  attempt
    (_ <- io (scroll_into_view_if_needed w tab) ;;
     _ <- io (wait_for_timeout w 300 700) ;;
     _ <- io (click w tab) ;;
     _ <- push_click (selector +:+ ":nth(" +:+ PyStr.of_nat i +:+ ")") ;;
     io (wait_for_timeout w 800 1500)).

(** [for selector in tab_selectors], left at the first selector that
    matches anything. *)
Fixpoint tabs_loop (selectors : list string) : J unit :=
  match selectors with
  | [] => mret tt
  | selector :: rest =>
      found <- (try_except
                 (tabs <- io (query_selector_all w selector) ;;
                  _ <- for_each (enumerate (take 3 tabs)) (click_tab selector) ;;
                  mret (nonempty tabs))
                 (fun _ => mret false) : J bool) ;;
      if found then mret tt else tabs_loop rest
  end.

(** [for i in range(3)] on one load-more selector. *)
Fixpoint load_more_loop (selector : string) (is_ : list nat) : J unit :=
  match is_ with
  | [] => mret tt
  | i :: rest =>
      button <- io (query_selector w selector) ;;
      match button with
      | None => mret tt
      | Some button =>
          visible <- io (is_visible w button) ;;
          if visible then
            _ <- io (scroll_into_view_if_needed w button) ;;
            _ <- io (wait_for_timeout w 300 700) ;;
            _ <- io (click w button) ;;
            _ <- push_click (selector +:+ ":click(" +:+ PyStr.of_nat i +:+ ")") ;;
            _ <- io (wait_for_timeout w 1500 2500) ;;
            load_more_loop selector rest
          else mret tt
      end
  end.

Definition _perform_clicks : J unit :=
  _ <- modify (on_locals (set_clicks_v [])) ;;
  _ <- tabs_loop tab_selectors ;;
  _ <- for_each load_more_selectors
        (fun selector => attempt (load_more_loop selector (seq 0 3))) ;;
  modify (fun f => on_result (fun r =>
    p_set_interactions (set_clicks (clicks_v (locals f)) (p_interactions r)) r) f).

(** One round of [for i in range(self.max_scrolls)]; [true] when the loop
    goes on. *)
Definition scroll_round : J bool :=
  prev_height <- io (evaluate w "document.body.scrollHeight") ;;
  current_position <- io (evaluate w "window.pageYOffset") ;;
  target_position <- io (evaluate w "document.body.scrollHeight") ;;
  steps <- io (fun b => let '(n, b') := randint w 3 5 b in (Ok n, b')) ;;
  _ <- for_each (seq 0 steps) (fun step =>
        _ <- io (evaluate w (scroll_script w target_position current_position steps step)) ;;
        io (wait_for_timeout w 200 500)) ;;
  _ <- io (wait_for_timeout w 1500 2500) ;;
  new_height <- io (evaluate w "document.body.scrollHeight") ;;
  _ <- modify (on_locals (fun l => set_scrolls_v (scrolls_v l + 1) l)) ;;
  mret (negb (js_eqb w new_height prev_height)).

Fixpoint scroll_rounds (rounds : list nat) : J unit :=
  match rounds with
  | [] => mret tt
  | _ :: rest =>
      go_on <- scroll_round ;;
      if go_on then scroll_rounds rest else mret tt
  end.

Definition _perform_scrolls : J unit :=
  _ <- modify (on_locals (set_scrolls_v 0)) ;;
  _ <- try_except (scroll_rounds (seq 0 max_scrolls))
        (fun e => modify (on_result (p_push_error
                    (mk_error ("Scroll error: " +:+ exc_str e) "scroll")))) ;;
  modify (fun f => on_result (fun r =>
    p_set_interactions (set_scrolls (scrolls_v (locals f)) (p_interactions r)) r) f).

(** The third selector is an arrow glyph in the source, written [->]
    here. *)
Definition next_selectors : list string :=
  ["a:has-text(" +:+ q "Next" +:+ ")"; "a:has-text(" +:+ q ">" +:+ ")";
 "a:has-text(" +:+ q "->" +:+ ")"; "a[rel=" +:+ q "next" +:+ "]";
   "a[aria-label*=" +:+ q "next" +:+ " i]";
   "[class*=" +:+ q "next" +:+ "]:not([class*=" +:+ q "disabled" +:+ "])";
   "[class*=" +:+ q "pagination" +:+ "] a:last-child";
   "button:has-text(" +:+ q "More" +:+ ")"].

(** [for selector in next_selectors]: the variable [next_link] keeps what
    the last query returned when [is_visible] raises. *)
Fixpoint find_next (selectors : list string) : J unit :=
  match selectors with
  | [] => mret tt
  | selector :: rest =>
      found <- (try_except
                (nl <- io (query_selector w selector) ;;
                 _ <- modify (on_locals (set_next_link nl)) ;;
                 visible <- match nl with
                           | Some h => io (is_visible w h)
                           | None => mret false
                           end ;;
                 if visible then mret true
                 else _ <- modify (on_locals (set_next_link None)) ;; mret false)
                (fun _ => mret false) : J bool) ;;
      if found then mret tt else find_next rest
  end.

Definition visit (next_url : string) : J unit :=
  modify (on_locals (fun l =>
    if bool_decide (next_url ∈ visited_pages l) then l
    else set_visited (visited_pages l ++ [next_url]) l)).

(** [for page_num in range(self.max_pages - 1)] *)
Fixpoint pagination_loop (page_nums : list nat) : J unit :=
  match page_nums with
  | [] => mret tt
  | _ :: rest =>
      _ <- modify (on_locals (set_next_link None)) ;;
      _ <- find_next next_selectors ;;
      nl <- gets (fun f => next_link (locals f)) ;;
      match nl with
      | None => mret tt
      | Some link =>
          href <- io (get_attribute w link "href") ;;
          _ <- match href with
              | Some h =>
                  if PyStr.truthy h then
                    here <- io (page_url w) ;;
                    next_url <- of_res (urljoin w here h) ;;
                    visit next_url
                  else mret tt
              | None => mret tt
              end ;;
          clicked <- (try_except
                      (_ <- io (wait_for_timeout w 500 1000) ;;
                       _ <- io (scroll_into_view_if_needed w link) ;;
                       _ <- io (click w link) ;;
                       _ <- io (wait_for_load_state w) ;;
                       _ <- io (wait_for_timeout w 1000 2000) ;;
                       mret true)
                      (fun _ => mret false) : J bool) ;;
          if clicked then pagination_loop rest else mret tt
      end
  end.

Definition _follow_pagination (base_url : string) : J unit :=
  _ <- modify (on_locals (set_visited [base_url])) ;;
  _ <- try_except (pagination_loop (seq 0 (max_pages - 1)))
        (fun e => modify (on_result (p_push_error
                    (mk_error ("Pagination error: " +:+ exc_str e) "pagination")))) ;;
  modify (fun f => on_result (fun r =>
    p_set_interactions (set_pages (visited_pages (locals f)) (p_interactions r)) r) f).

(** *** [_js_scrape] *)

Definition render (url : string) : J unit :=
  _ <- io (goto w url) ;;
  _ <- io (wait_for_timeout w 500 1500) ;;
  _ <- io (wait_for_selector w "body") ;;
  _ <- _remove_noise ;;
  _ <- _perform_clicks ;;
  _ <- _perform_scrolls ;;
  _ <- _follow_pagination url ;;
  parser <- io (content w) ;;
  m <- of_res (_extract_meta (urljoin w) parser url) ;;
  _ <- modify (on_result (p_set_meta (<["strategy" := PStr "js"]> m))) ;;
  secs <- of_res (_extract_sections (urljoin w) parser url) ;;
  modify (on_result (p_set_sections secs)).

Definition js_body (url : string) : J unit :=
  if negb (PLAYWRIGHT_AVAILABLE w) then
    modify (on_result (p_push_error (mk_error
      "Playwright not installed. Run: pip install playwright && playwright install chromium"
      "playwright_check")))
  else
    try_except
      (_ <- io (playwright_start w) ;;
       finally
         (_ <- io (launch w) ;;
          _ <- io (new_context w) ;;
          _ <- io (new_page w) ;;
          _ <- io (add_init_script w) ;;
          finally
            (try_except (render url)
               (fun e =>
                  match exc_cls e with
                  | PlaywrightTimeout =>
                      modify (on_result (p_push_error
                        (mk_error ("Timeout: " +:+ exc_str e) "render")))
                  | _ =>
                      modify (on_result (p_push_error
                        (mk_error (exc_str e) "js_scrape")))
                  end))
            (io (browser_close w)))
         (io (playwright_stop w)))
      (fun e => modify (on_result (p_push_error (mk_error (exc_str e) "playwright")))).

Definition js_locals0 : JsLocals :=
  {| clicks_v := []; scrolls_v := 0; visited_pages := []; next_link := None |}.

Definition _js_scrape (url : string) : M (B w) PassResult :=
  call (pass_init "js" url) js_locals0 (js_body url).

(** *** [scrape] *)

Definition js_heavy_domains : list string :=
  ["wikipedia.org"; "wikimedia.org"; "medium.com"; "vercel.com"; "twitter.com";
   "x.com"; "reddit.com"; "linkedin.com"; "instagram.com"; "facebook.com";
   "youtube.com"; "netflix.com"; "airbnb.com"; "uber.com"].

Definition _should_force_js (domain : string) : bool :=
  PyStr.any_in js_heavy_domains domain.

(** Updates of the top-level result. *)
Definition set_meta (m : Meta) (r : ScrapeResult) : ScrapeResult :=
  {| url := url r; scrapedAt := scrapedAt r; meta := m; sections := sections r;
     interactions := interactions r; errors := errors r |}.
Definition set_sections (s : list Sect) (r : ScrapeResult) : ScrapeResult :=
  {| url := url r; scrapedAt := scrapedAt r; meta := meta r; sections := s;
     interactions := interactions r; errors := errors r |}.
Definition set_interactions (i : Interactions) (r : ScrapeResult) : ScrapeResult :=
  {| url := url r; scrapedAt := scrapedAt r; meta := meta r; sections := sections r;
     interactions := i; errors := errors r |}.
Definition set_errors (e : list ScrapeError) (r : ScrapeResult) : ScrapeResult :=
  {| url := url r; scrapedAt := scrapedAt r; meta := meta r; sections := sections r;
     interactions := interactions r; errors := e |}.
Definition push_error (e : ScrapeError) (r : ScrapeResult) : ScrapeResult :=
  set_errors (errors r ++ [e]) r.

(** [result["meta"]["strategy"] = s] *)
Definition set_strategy (s : string) (r : ScrapeResult) : ScrapeResult :=
  set_meta (<["strategy" := PStr s]> (meta r)) r.

(** [result.update(pass_result)]: the four keys of the pass result
    replace those of [result]. *)
Definition update (p : PassResult) (r : ScrapeResult) : ScrapeResult :=
  {| url := url r; scrapedAt := scrapedAt r; meta := p_meta p;
     sections := p_sections p; interactions := p_interactions p;
     errors := p_errors p |}.

(** [js_result.get("meta", {}).get("title")] as a condition *)
Definition has_title (m : Meta) : bool :=
  match m !! "title" with
  | Some v => pyval_truthy v
  | None => false
  end.

(** The four [if] statements after the render pass.  A dictionary with
    keys is true, so [js_result.get("interactions")] always holds. *)
Definition merge_sections (js_result : PassResult) (r : ScrapeResult) : ScrapeResult :=
  if nonempty (p_sections js_result)
     && (length (sections r) <? length (p_sections js_result))%nat
  then set_sections (p_sections js_result) r else r.

Definition merge_meta (js_result : PassResult) (r : ScrapeResult) : ScrapeResult :=
  if has_title (p_meta js_result)
  then set_strategy "js" (set_meta (p_meta js_result ∪ meta r) r)
  else r.

Definition merge_interactions (js_result : PassResult) (r : ScrapeResult)
  : ScrapeResult :=
  set_interactions (p_interactions js_result) r.

Definition merge_errors (js_result : PassResult) (r : ScrapeResult) : ScrapeResult :=
  if nonempty (p_errors js_result)
  then set_errors (errors r ++ p_errors js_result) r else r.

Definition merge (js_result : PassResult) (r : ScrapeResult) : ScrapeResult :=
  merge_errors js_result
    (merge_interactions js_result
       (merge_meta js_result (merge_sections js_result r))).

Definition scrape_body (u : string) : M (Frame (B w) ScrapeResult unit) unit :=
  try_except
    (netloc <- of_res (urlparse_netloc w u) ;;
     let domain := PyStr.lower netloc in
     let force_js := _should_force_js domain in
     if force_js && PLAYWRIGHT_AVAILABLE w then
       _ <- modify (on_result (set_strategy "js")) ;;
       js_result <- io (_js_scrape u) ;;
       modify (on_result (update js_result))
     else
       static_result <- io (_static_scrape u) ;;
       _ <- modify (on_result (update static_result)) ;;
       needs_js <- gets (fun f => _needs_js_rendering (result f)) ;;
       if needs_js && PLAYWRIGHT_AVAILABLE w then
         _ <- modify (on_result (set_strategy "js")) ;;
         _ <- modify (on_result (push_error
                (mk_error "Static scraping insufficient, using JS rendering"
                          "fallback_decision"))) ;;
         js_result <- io (_js_scrape u) ;;
         modify (on_result (merge js_result))
       else if needs_js && negb (PLAYWRIGHT_AVAILABLE w) then
         modify (on_result (push_error (mk_error
           "JS rendering recommended but Playwright not installed. Run: pip install playwright && playwright install chromium"
           "playwright_check")))
       else mret tt)
    (fun e => modify (on_result (push_error (mk_error (exc_str e) "scrape")))).

(** The initial [result] of [scrape]. *)
Definition result0 (u now : string) : ScrapeResult :=
  {| url := u;
     scrapedAt := now;
     meta := <["title" := PStr ""]>
             (<["description" := PStr ""]>
              (<["language" := PStr "en"]>
               (<["canonical" := PNone]>
                (<["strategy" := PStr "static"]> (∅ : Meta)))));
     sections := [];
     interactions := {| clicks := []; scrolls := 0; pages := [u] |};
     errors := [] |}.

Definition scrape (u : string) : M (B w) ScrapeResult :=
  fun b => call (result0 u (utcnow w b)) tt (scrape_body u) b.

End Passes.

(** ** Definitions used by the statements *)

(** Deduplication written by recursion on the input, with the set of
    fingerprints seen so far. *)
Fixpoint dedup_from (seen : gset string) (l : list Sect) : list Sect :=
  match l with
  | [] => []
  | s :: rest =>
      let fp := fingerprint (text (sec_content s)) in
      if PyStr.truthy fp && negb (bool_decide (fp ∈ seen)) then
        s :: dedup_from ({[fp]} ∪ seen) rest
      else if negb (PyStr.truthy fp) && nonempty (headings (sec_content s)) then
        s :: dedup_from seen rest
      else dedup_from seen rest
  end.

(** Deduplication as the specification words it: a section with a
    non-empty fingerprint is kept when no earlier section of the input has
    the same fingerprint; a section with an empty fingerprint is kept when
    it has a heading. *)
Definition sec_fp (s : Sect) : string := fingerprint (text (sec_content s)).

Definition kept_by_spec (earlier : list Sect) (s : Sect) : bool :=
  if PyStr.truthy (sec_fp s)
  then negb (existsb (fun t => String.eqb (sec_fp t) (sec_fp s)) earlier)
  else nonempty (headings (sec_content s)).

Fixpoint dedup_spec_from (earlier : list Sect) (l : list Sect) : list Sect :=
  match l with
  | [] => []
  | s :: rest =>
      (if kept_by_spec earlier s then [s] else [])
      ++ dedup_spec_from (earlier ++ [s]) rest
  end.

Definition dedup_spec (l : list Sect) : list Sect := dedup_spec_from [] l.

(** The set of fingerprints seen after reading [earlier]. *)
Definition seen_after (earlier : list Sect) : gset string :=
  list_to_set (filter (fun fp => PyStr.truthy fp = true) (map sec_fp earlier)).

(** A section with neither text nor headings. *)
Definition empty_content : Content :=
  {| headings := []; text := ""; links := []; images := []; lists := []; tables := [] |}.

Definition blank_section : Sect :=
  {| sec_id := "section-0"; sec_type := "section"; sec_label := "Section";
     sec_sourceUrl := "http://example.com/"; sec_content := empty_content;
     sec_rawHtml := "<section></section>"; sec_truncated := false |}.

(** A section whose text is [n] times the letter [a]. *)
Fixpoint letters (n : nat) : string :=
  match n with
  | 0 => ""
  | S n' => String "a" (letters n')
  end.

Definition text_section (n : nat) : Sect :=
  {| sec_id := "section-0"; sec_type := "section"; sec_label := "Section";
     sec_sourceUrl := "http://example.com/";
     sec_content := {| headings := []; text := letters n; links := [];
                       images := []; lists := []; tables := [] |};
     sec_rawHtml := ""; sec_truncated := false |}.

(** [tok] occurs in [s]. *)
Definition occurs_in (tok s : string) : Prop :=
  exists a b, s = a +:+ tok +:+ b.

(** Some recorded error message holds one of the four block-indicator
    tokens. *)
Definition blocked (errs : list ScrapeError) : Prop :=
  exists e tok,
    e ∈ errs
    /\ tok ∈ ["403"; "429"; "Forbidden"; "Too Many Requests"]
    /\ occurs_in tok (message e).

(** A program logic for the state-and-exception monad.
    [triple P m Q E]: from a state satisfying [P], [m] ends in a state
    satisfying [Q a] when it returns [a] and [E] when it raises. *)
Definition triple {S A} (P : S -> Prop) (m : M S A) (Q : A -> S -> Prop)
    (E : S -> Prop) : Prop :=
  forall s, P s -> match m s with
                   | (Ok a, s') => Q a s'
                   | (Raise _, s') => E s'
                   end.

(** [m] keeps [P], however it ends. *)
Definition keeps {S A} (P : S -> Prop) (m : M S A) : Prop :=
  triple P m (fun _ => P) P.

(** [m] returns. *)
Definition returns {S A} (m : M S A) : Prop :=
  forall s, exists a s', m s = (Ok a, s').

(** The two shapes of the [meta] of a pass: the initial one, and the one
    after [_extract_meta] ran. *)
Definition full_meta (strategy : string) (t d l c : pyval) : Meta :=
  <["strategy" := PStr strategy]>
    (<["title" := t]>
     (<["description" := d]>
      (<["language" := l]>
       (<["canonical" := c]> (∅ : Meta))))).

Definition meta_shape (strategy : string) (m : Meta) : Prop :=
  m = {[ "strategy" := PStr strategy ]}
  \/ exists t d l c, m = full_meta strategy t d l c.

(** What holds of the [result] of a pass on [u] at every moment. *)
Definition PassInv (strategy u : string) (r : PassResult) : Prop :=
  (exists rest, pages (p_interactions r) = u :: rest)
  /\ Forall (fun s => sec_sourceUrl s = u) (p_sections r)
  /\ meta_shape strategy (p_meta r).

(** The fallback notice [scrape] records before the render pass. *)
Definition fallback_notice : ScrapeError :=
  mk_error "Static scraping insufficient, using JS rendering" "fallback_decision".

(** The invariant of the frame of the render pass, and the stronger one
    that holds while [_follow_pagination] runs. *)
Definition JsInv (w : World) (u : string)
    (f : Frame (B w) PassResult (JsLocals w)) : Prop :=
  PassInv "js" u (result f).

Definition JsInvV (w : World) (u : string)
    (f : Frame (B w) PassResult (JsLocals w)) : Prop :=
  PassInv "js" u (result f) /\ exists rest, visited_pages w (locals f) = u :: rest.

(** The notice [scrape] records when rendering is wanted but missing. *)
Definition playwright_notice : ScrapeError :=
  mk_error
    "JS rendering recommended but Playwright not installed. Run: pip install playwright && playwright install chromium"
    "playwright_check".

(** What the [except Exception] clause of [scrape] records. *)
Definition scrape_error (e : exc) : ScrapeError := mk_error (exc_str e) "scrape".

(** What holds of every result of [scrape] on [u]. *)
Definition ScrapeInv (u : string) (r : ScrapeResult) : Prop :=
  url r = u
  /\ (exists rest, pages (interactions r) = u :: rest)
  /\ Forall (fun s => sec_sourceUrl s = u) (sections r).

(** ** Concrete worlds

    Worlds without state ([B] is [unit]): every operation returns at once,
    except the three that are given. *)

Definition ok {A} (a : A) : M unit A := fun s => (Ok a, s).

Definition fails {A} (cls : exc_class) (msg : string) : M unit A :=
  fun s => (Raise {| exc_cls := cls; exc_str := msg |}, s).

Definition plain_urljoin (base rel : string) : res string := Ok (base +:+ rel).

Definition test_world (pw : bool) (fetched : M unit node) (navigate : M unit unit)
    (rendered : M unit node) : World :=
  {| B := unit; H := unit; JS := nat;
     PLAYWRIGHT_AVAILABLE := pw;
     utcnow := fun _ => "2024-01-01T00:00:00+00:00";
     urlparse_netloc := fun _ => Ok "example.com";
     urljoin := plain_urljoin;
     fetch := fun _ => fetched;
     playwright_start := ok tt;
     playwright_stop := ok tt;
     launch := ok tt;
     new_context := ok tt;
     new_page := ok tt;
     add_init_script := ok tt;
     goto := fun _ => navigate;
     wait_for_timeout := fun _ _ => ok tt;
     wait_for_selector := fun _ => ok tt;
     wait_for_load_state := ok tt;
     evaluate := fun _ => ok 0;
     js_eqb := Nat.eqb;
     scroll_script := fun _ _ _ _ => "window.scrollBy(0, 0)";
     randint := fun lo _ b => (lo, b);
     query_selector_all := fun _ => ok [];
     query_selector := fun _ => ok None;
     scroll_into_view_if_needed := fun _ => ok tt;
     click := fun _ => ok tt;
     is_visible := fun _ => ok true;
     get_attribute := fun _ _ => ok None;
     page_url := ok "http://example.com/";
     content := rendered;
     browser_close := ok tt |}.

Definition example_url : string := "http://example.com/".

Definition para (t : string) : node := Elem "p" [] [Text t].

(** [<main><h1>Title</h1><p>..</p><p>..</p><p>..</p></main>] in a page. *)
Definition title_page (page_title t1 t2 t3 : string) : node :=
  Elem "html" []
    [Elem "head" [] [Elem "title" [] [Text page_title]];
     Elem "body" []
       [Elem "main" []
          [Elem "h1" [] [Text "Title"]; para t1; para t2; para t3]]].

Definition page_one : node :=
  title_page "A page" "paragraph one." "paragraph two." "paragraph three.".

(** A page whose [<main>] starts with a paragraph before its heading. *)
Definition page_intro : node :=
  Elem "html" []
    [Elem "head" [] [];
     Elem "body" []
       [Elem "main" []
          [para "intro paragraph"; Elem "h1" [] [Text "Title"];
           para "paragraph one."; para "paragraph two."]]].

(** A page with two [<section>]s and a title. *)
Definition page_two : node :=
  Elem "html" []
    [Elem "head" [] [Elem "title" [] [Text "Rendered"]];
     Elem "body" []
       [Elem "section" [] [Elem "h2" [] [Text "First"]; para "first paragraph."];
        Elem "section" [] [Elem "h2" [] [Text "Second"]; para "second paragraph."]]].

(** The fetch is refused with HTTP 403. *)
Definition refused_world : World :=
  test_world true (fails (HTTPStatusError 403 "Forbidden") "403 Forbidden")
    (ok tt) (ok page_two).

(** The fetch gives [page_one]; the browser cannot navigate. *)
Definition unrendered_world : World :=
  test_world true (ok page_one) (fails OtherException "net::ERR_FAILED") (ok page_two).

(** The fetch gives [page_one]; the browser renders [page_two]. *)
Definition rendered_world : World :=
  test_world true (ok page_one) (ok tt) (ok page_two).

(** The fetch gives [page_intro]; there is no browser. *)
Definition intro_world : World :=
  test_world false (ok page_intro) (ok tt) (ok page_two).

(** The fallback path of [scrape]: the host is not forced to rendering (or
    there is no browser), the fetch pass returned [S0], the heuristic asks
    for rendering, a browser is there and the render pass returned [J]. *)
Definition fallback_run (w : World) (u : string) (b : B w)
    (S0 : PassResult) (b1 : B w) (J : PassResult) (b2 : B w) : Prop :=
  exists netloc,
    urlparse_netloc w u = Ok netloc
    /\ _should_force_js (PyStr.lower netloc) && PLAYWRIGHT_AVAILABLE w = false
    /\ _static_scrape w u b = (Ok S0, b1)
    /\ _needs_js_rendering (update S0 (result0 u (utcnow w b)))
       && PLAYWRIGHT_AVAILABLE w = true
    /\ _js_scrape w u b1 = (Ok J, b2).

(** The result of a pass in a stateless world. *)
Definition pass_result (run : res PassResult * unit) : PassResult :=
  match run with
  | (Ok r, _) => r
  | (Raise _, _) => pass_init "" ""
  end.

Definition fetched_one : PassResult :=
  pass_result (_static_scrape rendered_world example_url tt).
Definition rendered_two : PassResult :=
  pass_result (_js_scrape rendered_world example_url tt).
Definition unrendered : PassResult :=
  pass_result (_js_scrape unrendered_world example_url tt).

(** The keys of [meta] other than [strategy]. *)
Definition content_keys : list string :=
  ["title"; "description"; "language"; "canonical"].



(** A world whose page always shows a visible link to [page2]: every query
    finds an element, and its [href] is [page2]. *)
Definition paging_world : World :=
  {| B := unit; H := unit; JS := nat;
     PLAYWRIGHT_AVAILABLE := true;
     utcnow := fun _ => "2024-01-01T00:00:00+00:00";
     urlparse_netloc := fun _ => Ok "example.com";
     urljoin := plain_urljoin;
     fetch := fun _ => ok page_one;
     playwright_start := ok tt;
     playwright_stop := ok tt;
     launch := ok tt;
     new_context := ok tt;
     new_page := ok tt;
     add_init_script := ok tt;
     goto := fun _ => ok tt;
     wait_for_timeout := fun _ _ => ok tt;
     wait_for_selector := fun _ => ok tt;
     wait_for_load_state := ok tt;
     evaluate := fun _ => ok 0;
     js_eqb := Nat.eqb;
     scroll_script := fun _ _ _ _ => "window.scrollBy(0, 0)";
     randint := fun lo _ b => (lo, b);
     query_selector_all := fun _ => ok [];
     query_selector := fun _ => ok (Some tt);
     scroll_into_view_if_needed := fun _ => ok tt;
     click := fun _ => ok tt;
     is_visible := fun _ => ok true;
     get_attribute := fun _ _ => ok (Some "page2");
     page_url := ok "http://example.com/";
     content := ok page_two;
     browser_close := ok tt |}.


(** ** Further definitions used by the statements *)

(** The section types [_process_section] can give. *)
Definition section_types : list string :=
  ["hero"; "nav"; "footer"; "faq"; "pricing"; "grid"; "list"; "section"].

(** The caps of [_process_section] on what one section holds. *)
Definition within_caps (c : Content) : Prop :=
  length (links c) <= 20
  /\ length (images c) <= 10
  /\ length (lists c) <= 5
  /\ length (tables c) <= 3.

Definition items_capped (c : Content) : Prop :=
  Forall (fun l => String.length (link_text l) <= 100) (links c)
  /\ Forall (fun items => length items <= 20
                          /\ Forall (fun i => String.length i <= 200) items)
            (lists c)
  /\ Forall (fun t => length t <= 20
                      /\ Forall (Forall (fun cell => String.length cell <= 100)) t)
            (tables c).

(** An element with links, an image, a list and a table. *)
Definition rich_element : node :=
  Elem "section" [("class", Some "pricing plans")]
    [Elem "h2" [] [Text " Plans "];
     para "Choose the plan that fits.";
     Elem "a" [("href", Some "buy")] [Text "Buy"];
     Elem "img" [("data-src", Some "logo.png"); ("alt", Some "logo")] [];
     Elem "ul" [] [Elem "li" [] [Text "one"]; Elem "li" [] [Text "two"]];
     Elem "table" []
       [Elem "tr" [] [Elem "th" [] [Text "plan"]; Elem "th" [] [Text "price"]];
        Elem "tr" [] [Elem "td" [] [Text "basic"]; Elem "td" [] [Text "0"]]]].

(** [rich_element] processed as a [header] landmark. *)
Definition header_sample : Sect :=
  match _process_section plain_urljoin rich_element "header" 0 example_url with
  | Ok s => s
  | Raise _ => blank_section
  end.

(** The non-empty fingerprints of a sequence of sections. *)
Definition fingerprints (l : list Sect) : list string :=
  filter (fun fp => PyStr.truthy fp = true) (map sec_fp l).

(** A page with three [<section>] landmarks. *)
Definition page_three : node :=
  Elem "html" []
    [Elem "head" [] [Elem "title" [] [Text "Three"]];
     Elem "body" []
       [Elem "section" [] [Elem "h2" [] [Text "First"]; para "first paragraph."];
        Elem "section" [("class", Some "faq")]
          [Elem "h2" [] [Text "Second"]; para "second paragraph."];
        Elem "section" [] [Elem "h2" [] [Text "Third"]; para "third paragraph."]]].

Definition sections_of (r : res (list Sect)) : list Sect :=
  match r with
  | Ok l => l
  | Raise _ => []
  end.

Definition three_sections : list Sect :=
  sections_of (landmarks_loop plain_urljoin example_url 0 (find_landmarks page_three) []).

Definition intro_heading_sections : list Sect :=
  sections_of (_extract_by_headings plain_urljoin page_intro example_url).

(** The browser session opens: entering [async_playwright], [launch],
    [new_context], [new_page] and [add_init_script] all return. *)
Definition session_opens (w : World) (b b5 : B w) : Prop :=
  exists b1 b2 b3 b4,
    playwright_start w b = (Ok tt, b1)
    /\ launch w b1 = (Ok tt, b2)
    /\ new_context w b2 = (Ok tt, b3)
    /\ new_page w b3 = (Ok tt, b4)
    /\ add_init_script w b4 = (Ok tt, b5).

(** The browser session closes: [browser.close()] and leaving
    [async_playwright] both return. *)
Definition session_closes (w : World) (b6 b8 : B w) : Prop :=
  exists b7, browser_close w b6 = (Ok tt, b7) /\ playwright_stop w b7 = (Ok tt, b8).

(** The same world, with another answer of [urlparse(url).netloc]. *)
Definition with_netloc (w : World) (netloc : string) : World :=
  {| B := B w; H := H w; JS := JS w;
     PLAYWRIGHT_AVAILABLE := PLAYWRIGHT_AVAILABLE w;
     utcnow := utcnow w;
     urlparse_netloc := fun _ => Ok netloc;
     urljoin := urljoin w;
     fetch := fetch w;
     playwright_start := playwright_start w;
     playwright_stop := playwright_stop w;
     launch := launch w;
     new_context := new_context w;
     new_page := new_page w;
     add_init_script := add_init_script w;
     goto := goto w;
     wait_for_timeout := wait_for_timeout w;
     wait_for_selector := wait_for_selector w;
     wait_for_load_state := wait_for_load_state w;
     evaluate := evaluate w;
     js_eqb := js_eqb w;
     scroll_script := scroll_script w;
     randint := randint w;
     query_selector_all := query_selector_all w;
     query_selector := query_selector w;
     scroll_into_view_if_needed := scroll_into_view_if_needed w;
     click := click w;
     is_visible := is_visible w;
     get_attribute := get_attribute w;
     page_url := page_url w;
     content := content w;
     browser_close := browser_close w |}.

(** A host on the forced-render list. *)
Definition wikipedia_world : World := with_netloc rendered_world "EN.Wikipedia.org".

Definition wikipedia_rendered : PassResult :=
  pass_result (_js_scrape wikipedia_world example_url tt).

(** The navigation times out. *)
Definition timeout_world : World :=
  test_world true (ok page_one) (fails PlaywrightTimeout "Timeout 30000ms exceeded.")
    (ok page_two).

(** A world that keeps the list of the browser calls made so far.
    Navigation fails; [new_context] fails when [context_fails]. *)
Definition logged {A} (name : string) (a : A) : M (list string) A :=
  fun log => (Ok a, log ++ [name]).

Definition logged_failure {A} (name msg : string) : M (list string) A :=
  fun log => (Raise {| exc_cls := OtherException; exc_str := msg |}, log ++ [name]).

Definition logging_world (context_fails : bool) : World :=
  {| B := list string; H := unit; JS := nat;
     PLAYWRIGHT_AVAILABLE := true;
     utcnow := fun _ => "2024-01-01T00:00:00+00:00";
     urlparse_netloc := fun _ => Ok "example.com";
     urljoin := plain_urljoin;
     fetch := fun _ => logged "get" page_one;
     playwright_start := logged "async_playwright" tt;
     playwright_stop := logged "leave async_playwright" tt;
     launch := logged "launch" tt;
     new_context :=
       if context_fails then logged_failure "new_context" "Target closed"
       else logged "new_context" tt;
     new_page := logged "new_page" tt;
     add_init_script := logged "add_init_script" tt;
     goto := fun _ => logged_failure "goto" "net::ERR_FAILED";
     wait_for_timeout := fun _ _ => logged "wait_for_timeout" tt;
     wait_for_selector := fun _ => logged "wait_for_selector" tt;
     wait_for_load_state := logged "wait_for_load_state" tt;
     evaluate := fun _ => logged "evaluate" 0;
     js_eqb := Nat.eqb;
     scroll_script := fun _ _ _ _ => "window.scrollBy(0, 0)";
     randint := fun lo _ b => (lo, b);
     query_selector_all := fun _ => logged "query_selector_all" [];
     query_selector := fun _ => logged "query_selector" None;
     scroll_into_view_if_needed := fun _ => logged "scroll_into_view_if_needed" tt;
     click := fun _ => logged "click" tt;
     is_visible := fun _ => logged "is_visible" true;
     get_attribute := fun _ _ => logged "get_attribute" None;
     page_url := logged "url" "http://example.com/";
     content := logged "content" page_two;
     browser_close := logged "close" tt |}.

(** A page whose only landmark has a [class] attribute without a value. *)
Definition page_valueless : node :=
  Elem "html" []
    [Elem "head" [] [Elem "title" [] [Text "Valueless"]];
     Elem "body" []
       [Elem "main" [("class", None)] [Elem "h1" [] [Text "Title"]]]].

Definition valueless_world : World :=
  test_world false (ok page_valueless) (ok tt) (ok page_two).

Definition valueless_meta : Meta :=
  match _extract_meta plain_urljoin page_valueless example_url with
  | Ok m => m
  | Raise _ => ∅
  end.

(** The initial interactions of a pass on [u]. *)
Definition no_interactions (u : string) : Interactions :=
  {| clicks := []; scrolls := 0; pages := [u] |}.

(** The two strategies. *)
Definition strategies : list string := ["static"; "js"].

(** The bounds the interaction scripts keep. *)
Definition InterOK (i : Interactions) : Prop :=
  length (clicks i) <= 24
  /\ scrolls i <= 3
  /\ length (pages i) <= 3
  /\ NoDup (pages i).

(** Invariants of the frame of the render pass: the bounds hold of
    [result], and a local variable of a script is within [n]. *)
Definition InterInv (w : World) (f : Frame (B w) PassResult (JsLocals w)) : Prop :=
  InterOK (p_interactions (result f)).

Definition ClicksInv (w : World) (n : nat)
    (f : Frame (B w) PassResult (JsLocals w)) : Prop :=
  InterInv w f /\ length (clicks_v w (locals f)) <= n.

Definition ScrollsInv (w : World) (n : nat)
    (f : Frame (B w) PassResult (JsLocals w)) : Prop :=
  InterInv w f /\ scrolls_v w (locals f) <= n.

Definition PagesInv (w : World) (n : nat)
    (f : Frame (B w) PassResult (JsLocals w)) : Prop :=
  InterInv w f /\ NoDup (visited_pages w (locals f))
  /\ length (visited_pages w (locals f)) <= n.

(** ** The request handler ([scrape_url] in [main.py])

    What the handler answers: the result of [scrape]; the fallback result
    it builds when [scrape] raises (its own URL, time and the text of the
    exception; the traceback text is left out); or the [HTTPException] it
    raises for another scheme. *)
Inductive response : Type :=
| ResultResponse (r : ScrapeResult)
| FallbackResponse (url scrapedAt message : string)
| HTTPException (status_code : nat) (detail : string).

(** [url.startswith(("http://", "https://"))] *)
Definition http_scheme (url : string) : bool :=
  String.prefix "http://" url || String.prefix "https://" url.

(** [ScrapeRequest]: the body of a request that passed validation.  Its
    [url] is an [HttpUrl]: only the schemes [http] and [https] validate,
    and [str(request.url)] is the address in normal form (scheme and host
    in lower case, the path [/] added when there is none), so it starts
    with [http://] or [https://].  A body that does not validate is
    answered with status 422 before the handler is called. *)
Record HttpUrl := {
  url_str : string;
  url_scheme : http_scheme url_str = true
}.

Record ScrapeRequest := { request_url : HttpUrl }.

Definition scrape_url (w : World) (request : ScrapeRequest) : M (B w) response :=
  let url := url_str (request_url request) in
  if negb (http_scheme url) then
    mret (HTTPException 400 "Only http(s) URLs are supported")
  else
    try_except
      (result <- scrape w url ;; mret (ResultResponse result))
      (fun e b => (Ok (FallbackResponse url (utcnow w b) (exc_str e)), b)).

(** The request [{"url": "http://example.com/"}]. *)
Definition example_request : ScrapeRequest :=
  {| request_url := {| url_str := example_url; url_scheme := eq_refl |} |}.

Definition page_one_meta : Meta :=
  match _extract_meta plain_urljoin page_one example_url with
  | Ok m => m
  | Raise _ => ∅
  end.
(** * Properties *)

(** ** Strings *)

Module PyStrFacts.
Import PyStr.

Lemma app_nil (t : string) : "" +:+ t = t.
Proof. reflexivity. Qed.

Lemma app_cons (c : ascii) (s t : string) : String c s +:+ t = String c (s +:+ t).
Proof. reflexivity. Qed.

Lemma prefix_app (n h : string) :
  String.prefix n h = true <-> exists b, h = n +:+ b.
Proof.
  revert h. induction n as [|c n IH]; intros h.
  - split; [intros _; by exists h | by destruct h].
  - destruct h as [|c' h]; simpl.
    + split; [done | intros [b Hb]; discriminate].
    + destruct (Ascii.ascii_dec c c') as [->|Hne].
      * rewrite IH. split; intros [b Hb]; exists b; rewrite app_cons in *; congruence.
      * split; [done | intros [b Hb]; rewrite app_cons in Hb; congruence].
Qed.

Lemma contains_nil (n : string) : contains n "" = String.prefix n "".
Proof. by destruct n. Qed.

Lemma contains_cons (n : string) (c : ascii) (h : string) :
  contains n (String c h) = String.prefix n (String c h) || contains n h.
Proof. reflexivity. Qed.

Lemma contains_occurs (n h : string) :
  contains n h = true <-> exists a b, h = a +:+ n +:+ b.
Proof.
  induction h as [|c h IH].
  - rewrite contains_nil, prefix_app. split.
    + intros [b Hb]. by exists "", b.
    + intros [a [b Hab]]. destruct a; [by exists b | discriminate].
  - rewrite contains_cons, orb_true_iff, IH, prefix_app. split.
    + intros [[b Hb] | [a [b Hab]]].
      * by exists "", b.
      * exists (String c a), b. by rewrite app_cons, Hab.
    + intros [a [b Hab]]. destruct a as [|c' a];
        rewrite ?app_nil, ?app_cons in Hab.
      * left. by exists b.
      * right. exists a, b. congruence.
Qed.






End PyStrFacts.


(** ** Deduplication *)

Section Dedup.

Implicit Types (l acc : list Sect) (seen : gset string).

(** The loop of the source computes [dedup_from]. *)
Lemma fold_dedup_step l acc seen :
  fst (fold_left dedup_step l (acc, seen)) = acc ++ dedup_from seen l.
Proof.
  revert acc seen. induction l as [|s l IH]; intros acc seen; simpl.
  - by rewrite app_nil_r.
  - destruct (PyStr.truthy _ && negb (bool_decide _)).
    + by rewrite IH, <- app_assoc.
    + destruct (negb _ && nonempty _).
      * by rewrite IH, <- app_assoc.
      * apply IH.
Qed.

Lemma dedup_unfold l :
  _deduplicate_sections l = if (length l <=? 1)%nat then l else dedup_from ∅ l.
Proof.
  unfold _deduplicate_sections. destruct (length l <=? 1)%nat; [done |].
  apply fold_dedup_step.
Qed.

(** Running the loop again, with no more fingerprints seen than the first
    time, changes nothing. *)
Lemma dedup_from_again l seen seen' :
  seen' ⊆ seen -> dedup_from seen' (dedup_from seen l) = dedup_from seen l.
Proof.
  revert seen seen'. induction l as [|s l IH]; intros seen seen' Hsub; [done |].
  simpl. destruct (PyStr.truthy (fingerprint (text (sec_content s)))) eqn:Ht; simpl.
  - case_bool_decide as Hin; simpl; [by apply IH |].
    rewrite Ht. rewrite bool_decide_eq_false_2 by set_solver. simpl.
    f_equal. apply IH. set_solver.
  - destruct (nonempty (headings (sec_content s))) eqn:Hh; [| by apply IH].
    simpl. rewrite Ht, Hh. simpl. f_equal. by apply IH.
Qed.

Lemma seen_after_snoc earlier s :
  seen_after (earlier ++ [s]) =
  if PyStr.truthy (sec_fp s) then {[sec_fp s]} ∪ seen_after earlier
  else seen_after earlier.
Proof.
  unfold seen_after. rewrite map_app, filter_app, list_to_set_app_L. simpl.
  rewrite filter_cons, filter_nil.
  destruct (PyStr.truthy (sec_fp s)) eqn:E; case_decide; try done; set_solver.
Qed.

Lemma seen_earlier earlier s :
  PyStr.truthy (sec_fp s) = true ->
  bool_decide (sec_fp s ∈ seen_after earlier)
  = existsb (fun t => String.eqb (sec_fp t) (sec_fp s)) earlier.
Proof.
  intros Ht. apply eq_true_iff_eq.
  rewrite bool_decide_eq_true, existsb_exists. unfold seen_after.
  rewrite elem_of_list_to_set, list_elem_of_filter, list_elem_of_fmap. split.
  - intros [_ [t [Ht1 Ht2]]]. exists t. split.
    + by apply list_elem_of_In.
    + by apply String.eqb_eq.
  - intros [t [Ht1 Ht2]]. split; [done |]. exists t. split.
    + symmetry. by apply String.eqb_eq.
    + by apply list_elem_of_In.
Qed.

Lemma dedup_from_spec earlier l :
  dedup_from (seen_after earlier) l = dedup_spec_from earlier l.
Proof.
  revert earlier. induction l as [|s l IH]; intros earlier; [done |].
  simpl. fold (sec_fp s). unfold kept_by_spec.
  rewrite <- IH, seen_after_snoc.
  destruct (PyStr.truthy (sec_fp s)) eqn:Ht; simpl.
  - rewrite seen_earlier by done.
    destruct (existsb _ earlier) eqn:Hex; simpl; [| done].
    f_equal.
    rewrite <- (seen_earlier earlier s Ht) in Hex.
    apply bool_decide_eq_true in Hex. set_solver.
  - by destruct (nonempty (headings (sec_content s))).
Qed.

End Dedup.

(** C9.  Deduplication is idempotent: applying [_deduplicate_sections]
    twice gives the same sequence as applying it once. *)
Theorem deduplicate_idempotent (l : list Sect) :
  _deduplicate_sections (_deduplicate_sections l) = _deduplicate_sections l.
Proof.
  rewrite (dedup_unfold l). destruct (length l <=? 1)%nat eqn:E.
  - rewrite dedup_unfold. by rewrite E.
  - rewrite dedup_unfold.
    destruct (length (dedup_from ∅ l) <=? 1)%nat; [done |].
    by apply dedup_from_again.
Qed.

(** C7, as stated, fails: a sequence of one section is returned as it is,
    so a section with an empty fingerprint and no heading is kept. *)
Lemma deduplicate_keeps_blank_singleton :
  ~ (forall (l : list Sect) (s : Sect),
        s ∈ _deduplicate_sections l ->
        sec_fp s = "" -> headings (sec_content s) <> []).
Proof.
  intros Hclaim.
  apply (Hclaim [blank_section] blank_section); [| reflexivity | reflexivity].
  unfold _deduplicate_sections. simpl. by apply list_elem_of_singleton.
Qed.

(** C7, amended.  A sequence of at most one section is returned unchanged.
    On a longer sequence the fingerprint of a section is the first 100
    characters of its text, lowercased and trimmed; a section with a
    non-empty fingerprint is kept exactly when no earlier section of the
    input has that fingerprint, and a section with an empty fingerprint is
    kept exactly when it has a heading; the survivors keep their order. *)
Theorem deduplicate_spec (l : list Sect) :
  (forall s, sec_fp s = PyStr.strip (PyStr.lower (PyStr.slice_to 100 (text (sec_content s)))))
  /\ _deduplicate_sections l
     = if (length l <=? 1)%nat then l else dedup_spec l.
Proof.
  split; [done |].
  rewrite dedup_unfold. destruct (length l <=? 1)%nat; [done |].
  apply (dedup_from_spec []).
Qed.

(** ** The needs-rendering decision *)

Lemma is_blocked_iff (errs : list ScrapeError) :
  is_blocked errs = true <-> blocked errs.
Proof.
  unfold is_blocked, blocked. rewrite existsb_exists. split.
  - intros [e [He Hex]]. apply existsb_exists in Hex as [tok [Htok Hc]].
    exists e, tok. rewrite !list_elem_of_In. split_and!; [done | done |].
    by apply PyStrFacts.contains_occurs.
  - intros [e [tok [He [Htok Hocc]]]]. exists e.
    rewrite list_elem_of_In in He. split; [done |].
    apply existsb_exists. exists tok. rewrite list_elem_of_In in Htok.
    split; [done |]. by apply PyStrFacts.contains_occurs.
Qed.




(** Each of the four tokens stops rendering, wherever it stands in a
    message and whatever the sections are; another status does not. *)
Example needs_js_blocked_tokens :
  let result msg :=
    {| url := "http://example.com/"; scrapedAt := ""; meta := ∅;
       sections := [];
       interactions := {| clicks := []; scrolls := 0; pages := [] |};
       errors := [mk_error msg "fetch"] |} in
  _needs_js_rendering (result "HTTP 403: ") = false
  /\ _needs_js_rendering (result "HTTP 429: ") = false
  /\ _needs_js_rendering (result "Access Forbidden here") = false
  /\ _needs_js_rendering (result "HTTP 400: Too Many Requests") = false
  /\ _needs_js_rendering (result "HTTP 404: Not Found") = true
  /\ _needs_js_rendering (result "forbidden") = true.
Proof. by split_and!. Qed.

(** The two instances of the heuristic on concrete results. *)
Example needs_js_one_section :
  _needs_js_rendering
    {| url := "http://example.com/"; scrapedAt := ""; meta := ∅;
       sections := [text_section 100];
       interactions := {| clicks := []; scrolls := 0; pages := [] |};
       errors := [] |} = true.
Proof. reflexivity. Qed.

Example needs_js_five_sections :
  _needs_js_rendering
    {| url := "http://example.com/"; scrapedAt := ""; meta := ∅;
       sections := replicate 5 (text_section 100);
       interactions := {| clicks := []; scrolls := 0; pages := [] |};
       errors := [] |} = false.
Proof. reflexivity. Qed.

(** ** A program logic for the state-and-exception monad *)

Section Logic.

Context {S : Type}.
Implicit Types (P E : S -> Prop).

Lemma triple_weaken {A} P P' (m : M S A) (Q Q' : A -> S -> Prop) E E' :
  triple P' m Q' E' ->
  (forall s, P s -> P' s) -> (forall a s, Q' a s -> Q a s) ->
  (forall s, E' s -> E s) ->
  triple P m Q E.
Proof.
  intros Hm HP HQ HE s Hs. specialize (Hm s (HP s Hs)).
  destruct (m s) as [[a|e] s']; auto.
Qed.

Lemma triple_ret {A} P (a : A) E : triple P (mret a) (fun _ => P) E.
Proof. intros s Hs. exact Hs. Qed.

Lemma triple_bind {A C} P (m : M S A) (k : A -> M S C) R Q E :
  triple P m R E -> (forall a, triple (R a) (k a) Q E) ->
  triple P (x <- m ;; k x) Q E.
Proof.
  intros Hm Hk s Hs. unfold bind_, mbind, M_bind.
  specialize (Hm s Hs). destruct (m s) as [[a|e] s']; [| done].
  by apply Hk.
Qed.

Lemma triple_modify P (f : S -> S) (Q : unit -> S -> Prop) E :
  (forall s, P s -> Q tt (f s)) -> triple P (modify f) Q E.
Proof. intros Hf s Hs. by apply Hf. Qed.

Lemma triple_try {A} P (m : M S A) (h : exc -> M S A) Q E E' :
  triple P m Q E' -> (forall e, triple E' (h e) Q E) ->
  triple P (try_except m h) Q E.
Proof.
  intros Hm Hh s Hs. unfold try_except.
  specialize (Hm s Hs). destruct (m s) as [[a|e] s']; [done |].
  by apply Hh.
Qed.

Lemma keeps_ret {A} P (a : A) : keeps P (mret a).
Proof. apply triple_ret. Qed.

Lemma keeps_bind {A C} P (m : M S A) (k : A -> M S C) :
  keeps P m -> (forall a, keeps P (k a)) -> keeps P (x <- m ;; k x).
Proof. intros Hm Hk. eapply triple_bind; [exact Hm | exact Hk]. Qed.

Lemma keeps_modify P (f : S -> S) :
  (forall s, P s -> P (f s)) -> keeps P (modify f).
Proof. intros Hf s Hs. by apply Hf. Qed.

Lemma keeps_gets {A} P (f : S -> A) : keeps P (gets f).
Proof. intros s Hs. exact Hs. Qed.

Lemma keeps_of_res {A} P (r : res A) : keeps P (of_res r).
Proof. intros s Hs. unfold of_res. by destruct r. Qed.

Lemma keeps_try {A} P (m : M S A) (h : exc -> M S A) :
  keeps P m -> (forall e, keeps P (h e)) -> keeps P (try_except m h).
Proof. intros Hm Hh. eapply triple_try; [exact Hm | exact Hh]. Qed.

Lemma keeps_attempt P (m : M S unit) : keeps P m -> keeps P (attempt m).
Proof. intros Hm. apply keeps_try; [done |]. intros _. apply keeps_ret. Qed.

Lemma keeps_finally {A} P (m : M S A) (f : M S unit) :
  keeps P m -> keeps P f -> keeps P (finally m f).
Proof.
  intros Hm Hf s Hs. unfold finally.
  specialize (Hm s Hs). destruct (m s) as [o s'].
  assert (P s') as Hs' by (by destruct o).
  specialize (Hf s' Hs'). destruct (f s') as [[[]|e] s'']; [| done].
  by destruct o.
Qed.

Lemma keeps_for_each {A} P (l : list A) (body : A -> M S unit) :
  (forall x, keeps P (body x)) -> keeps P (for_each l body).
Proof.
  intros Hb. induction l as [|x l IH]; simpl.
  - apply keeps_ret.
  - apply keeps_bind; [apply Hb | intros _; exact IH].
Qed.

Lemma returns_modify (f : S -> S) : returns (modify f).
Proof. intros s. by exists tt, (f s). Qed.

Lemma returns_try {A} (m : M S A) (h : exc -> M S A) :
  (forall e, returns (h e)) -> returns (try_except m h).
Proof.
  intros Hh s. unfold try_except. destruct (m s) as [[a|e] s']; [by eauto |].
  apply Hh.
Qed.

End Logic.

Create HintDb keeps.

(** ** The extractor gives every section the URL it was called with *)

Section ExtractorFacts.

Variable urljoin : string -> string -> res string.

Lemma process_section_sourceUrl el st idx u s :
  _process_section urljoin el st idx u = Ok s -> sec_sourceUrl s = u.
Proof.
  unfold _process_section, bind_, mbind, res_bind.
  destruct (links_loop _ _ _ _); [| done].
  destruct (images_loop _ _ _ _); [| done].
  destruct (_detect_section_type _ _); [| done].
  by intros [= <-].
Qed.

Lemma landmarks_loop_sourceUrl u lms idx acc secs :
  Forall (fun s => sec_sourceUrl s = u) acc ->
  landmarks_loop urljoin u idx lms acc = Ok secs ->
  Forall (fun s => sec_sourceUrl s = u) secs.
Proof.
  revert idx acc. induction lms as [|[lt el] lms IH]; intros idx acc Hacc; simpl.
  - by intros [= <-].
  - unfold bind_, mbind, res_bind.
    destruct (_process_section _ _ _ _ _) as [s|] eqn:Es; [| done].
    apply IH. destruct (has_content s); [| done].
    apply Forall_app. split; [done |].
    apply Forall_singleton. by eapply process_section_sourceUrl.
Qed.

Lemma headings_loop_sourceUrl u hs acc secs :
  Forall (fun s => sec_sourceUrl s = u) acc ->
  headings_loop urljoin u hs acc = Ok secs ->
  Forall (fun s => sec_sourceUrl s = u) secs.
Proof.
  revert acc. induction hs as [|[h nexts] hs IH]; intros acc Hacc; simpl.
  - by intros [= <-].
  - unfold bind_, mbind, res_bind.
    destruct (_process_section _ _ _ _ _) as [s|] eqn:Es; [| done].
    apply IH. destruct (has_content s); [| done].
    apply Forall_app. split; [done |].
    apply Forall_singleton. by eapply process_section_sourceUrl.
Qed.

Lemma dedup_from_Forall (P : Sect -> Prop) seen l :
  Forall P l -> Forall P (dedup_from seen l).
Proof.
  intros H. revert seen. induction H as [|s l Hs Hl IH]; intros seen; simpl; [done |].
  destruct (_ && negb _); [by constructor |].
  destruct (negb _ && _); [by constructor | done].
Qed.

Lemma deduplicate_Forall (P : Sect -> Prop) l :
  Forall P l -> Forall P (_deduplicate_sections l).
Proof.
  intros H. rewrite dedup_unfold. destruct (length l <=? 1)%nat; [done |].
  by apply dedup_from_Forall.
Qed.

Lemma extract_sections_sourceUrl parser u secs :
  _extract_sections urljoin parser u = Ok secs ->
  Forall (fun s => sec_sourceUrl s = u) secs.
Proof.
  unfold _extract_sections, bind_, mbind, res_bind.
  destruct (landmarks_loop _ _ _ _ _) as [s1|] eqn:E1; [| done].
  apply landmarks_loop_sourceUrl in E1; [| done].
  destruct (length s1 <? 3)%nat.
  - destruct (_extract_by_headings _ _ _) as [s2|] eqn:E2; [| done].
    intros [= <-]. apply deduplicate_Forall, Forall_app. split; [done |].
    unfold _extract_by_headings in E2.
    destruct (css_first_doc _ _); [| by injection E2 as <-].
    eapply headings_loop_sourceUrl; [| exact E2]. constructor.
  - intros [= <-]. by apply deduplicate_Forall.
Qed.

Lemma extract_meta_shape parser u m s :
  _extract_meta urljoin parser u = Ok m ->
  meta_shape s (<["strategy" := PStr s]> m).
Proof.
  unfold _extract_meta, bind_, mbind, res_bind.
  match goal with |- match ?c with _ => _ end = _ -> _ => destruct c; [| done] end.
  intros [= <-]. right. by eexists _, _, _, _.
Qed.

End ExtractorFacts.

(** ** The passes *)

(** Operations of the world change neither [result] nor the locals. *)
Lemma keeps_io_frame {W R L A} (P : Frame W R L -> Prop) (m : M W A) :
  (forall b f, P f -> P (set_world b f)) -> keeps P (io m).
Proof.
  intros HP f Hf. unfold io, zoom. destruct (m (world f)) as [[a|e] b']; by apply HP.
Qed.

Lemma keeps_of_res_bind {S A C} (P : S -> Prop) (r : res A) (k : A -> M S C) :
  (forall a, r = Ok a -> keeps P (k a)) -> keeps P (x <- of_res r ;; k x).
Proof.
  intros Hk s Hs. unfold bind_, mbind, M_bind, of_res.
  destruct r as [a|e]; [| done]. by apply Hk.
Qed.

Lemma PassInv_init (strategy u : string) : PassInv strategy u (pass_init strategy u).
Proof. split_and!; [by exists [] | by constructor | by left]. Qed.

(** One step of a proof that a script keeps an invariant. *)
Ltac keeps_step :=
  first
    [ assumption
    | solve [auto 1 with keeps nocore]
    | apply keeps_ret | apply keeps_gets | apply keeps_of_res
    | apply keeps_io_frame; [by intros ? [] ?]
    | apply keeps_of_res_bind; intros ? ?
    | apply keeps_bind; [| intros ?]
    | apply keeps_try; [| intros ?]
    | apply keeps_attempt
    | apply keeps_finally
    | apply keeps_for_each; intros ?
    | match goal with
      | |- keeps _ (match ?x with _ => _ end) => destruct x
      | |- keeps _ (let '(_, _) := ?x in _) => destruct x
      end ].

Ltac keeps_auto := repeat keeps_step.

Section PassFacts.

Context (w : World).

Lemma call_returns {R L} (r0 : R) (l0 : L) body :
  returns body -> returns (call w r0 l0 body).
Proof.
  intros Hb b. unfold call. destruct (Hb (MkFrame b r0 l0)) as [[] [f ->]]. eauto.
Qed.

Lemma call_keeps {R L} (I : R -> Prop) (r0 : R) (l0 : L) body b r b' :
  keeps (fun f => I (result f)) body -> I r0 ->
  call w r0 l0 body b = (Ok r, b') -> I r.
Proof.
  intros Hk H0. unfold call. specialize (Hk (MkFrame b r0 l0) H0).
  destruct (body _) as [[[]|e] f]; [| done]. by intros [= <- _].
Qed.

(** *** The fetch pass *)

Lemma static_body_returns u : returns (static_body w u).
Proof.
  apply returns_try. intros e. destruct (exc_cls e); apply returns_modify.
Qed.

Lemma static_body_keeps u :
  keeps (fun f => PassInv "static" u (result f)) (static_body w u).
Proof.
  unfold static_body. keeps_auto.
  - apply keeps_modify. intros [b r []] (Hp & Hs & _). split_and!; try done.
    by eapply extract_meta_shape.
  - apply keeps_modify. intros [b r []] (Hp & _ & Hm'). split_and!; try done.
    by eapply extract_sections_sourceUrl.
  - apply keeps_modify. by intros [b r []] H.
  - apply keeps_modify. by intros [b r []] H.
  - apply keeps_modify. by intros [b r []] H.
  - apply keeps_modify. by intros [b r []] H.
Qed.

Lemma static_scrape_spec u b :
  exists S0 b', _static_scrape w u b = (Ok S0, b') /\ PassInv "static" u S0.
Proof.
  destruct (call_returns (pass_init "static" u) tt _ (static_body_returns u) b)
    as [S0 [b' HS]].
  exists S0, b'. split; [exact HS |].
  eapply (call_keeps (PassInv "static" u)); [apply static_body_keeps | | exact HS].
  apply PassInv_init.
Qed.

(** *** The render pass *)

Section Scripts.

Variable u : string.

Abbreviation P := (JsInv w u).
Abbreviation Pv := (JsInvV w u).

Lemma remove_noise_keeps : keeps P (_remove_noise w).
Proof. unfold _remove_noise. keeps_auto. Qed.

Lemma push_click_keeps c : keeps P (push_click w c).
Proof. apply keeps_modify. by intros [b r l] H. Qed.

#[local] Hint Resolve push_click_keeps : keeps.

Lemma click_tab_keeps sel it : keeps P (click_tab w sel it).
Proof. unfold click_tab. keeps_auto. Qed.

#[local] Hint Resolve click_tab_keeps : keeps.

Lemma tabs_loop_keeps sels : keeps P (tabs_loop w sels).
Proof. induction sels as [|sel sels IH]; simpl; keeps_auto. Qed.

Lemma load_more_loop_keeps sel is_ : keeps P (load_more_loop w sel is_).
Proof. induction is_ as [|i is_ IH]; simpl; keeps_auto. Qed.

#[local] Hint Resolve tabs_loop_keeps load_more_loop_keeps : keeps.

Lemma perform_clicks_keeps : keeps P (_perform_clicks w).
Proof.
  unfold _perform_clicks. keeps_auto; apply keeps_modify; by intros [b r l] H.
Qed.

Lemma scroll_round_keeps : keeps P (scroll_round w).
Proof.
  unfold scroll_round. keeps_auto. apply keeps_modify. by intros [b r l] H.
Qed.

#[local] Hint Resolve scroll_round_keeps : keeps.

Lemma scroll_rounds_keeps rounds : keeps P (scroll_rounds w rounds).
Proof. induction rounds as [|i rounds IH]; simpl; keeps_auto. Qed.

#[local] Hint Resolve scroll_rounds_keeps : keeps.

Lemma perform_scrolls_keeps : keeps P (_perform_scrolls w).
Proof.
  unfold _perform_scrolls. keeps_auto; apply keeps_modify; by intros [b r l] H.
Qed.

Lemma find_next_keeps sels : keeps Pv (find_next w sels).
Proof.
  induction sels as [|sel sels IH]; simpl; keeps_auto;
    apply keeps_modify; by intros [b r l] H.
Qed.

Lemma visit_keeps next_url : keeps Pv (visit w next_url).
Proof.
  apply keeps_modify. intros [b r l] [H [rest Hv]]. split; [done |].
  simpl in *. case_bool_decide; [by eauto |].
  simpl. rewrite Hv. by exists (rest ++ [next_url]).
Qed.

#[local] Hint Resolve find_next_keeps visit_keeps : keeps.

Lemma pagination_loop_keeps nums : keeps Pv (pagination_loop w nums).
Proof.
  induction nums as [|i nums IH]; cbn [pagination_loop]; keeps_auto.
  apply keeps_modify. by intros [b r l] H.
Qed.

(** Whatever the browser does, [_follow_pagination] stores a list of
    pages that starts with the base URL. *)
Lemma follow_pagination_keeps : keeps P (_follow_pagination w u).
Proof.
  unfold _follow_pagination.
  eapply triple_bind with (R := fun _ => Pv).
  { apply triple_modify. intros [b r l] H. split; [done |]. by exists []. }
  intros _. eapply triple_bind with (R := fun _ => Pv).
  { eapply triple_weaken with (P' := Pv) (Q' := fun _ => Pv) (E' := Pv);
      [| done | done | by intros ? []].
    apply keeps_try; [apply pagination_loop_keeps |].
    intros e. apply keeps_modify. by intros [b r l] H. }
  intros _. apply triple_modify.
  intros [b r l] [(_ & Hs & Hm) [rest Hv]]. split_and!; try done.
  simpl in *. by exists rest.
Qed.

#[local] Hint Resolve remove_noise_keeps perform_clicks_keeps perform_scrolls_keeps
  follow_pagination_keeps : keeps.

Lemma render_keeps : keeps P (render w u).
Proof.
  unfold render. keeps_auto.
  - apply keeps_modify. intros [b r l] (Hp & Hs & _). split_and!; try done.
    by eapply extract_meta_shape.
  - apply keeps_modify. intros [b r l] (Hp & _ & Hm'). split_and!; try done.
    by eapply extract_sections_sourceUrl.
Qed.

Lemma js_body_keeps : keeps P (js_body w u).
Proof.
  unfold js_body. destruct (negb (PLAYWRIGHT_AVAILABLE w)).
  - apply keeps_modify. by intros [b r l] H.
  - pose proof render_keeps.
    keeps_auto; apply keeps_modify; by intros [b r l] H.
Qed.

Lemma js_body_returns : returns (js_body w u).
Proof.
  unfold js_body. destruct (negb (PLAYWRIGHT_AVAILABLE w)).
  - apply returns_modify.
  - apply returns_try. intros e. apply returns_modify.
Qed.

End Scripts.

(** The render pass always returns a result; its pages start with the
    URL it was given, its sections carry that URL and its [meta] has one
    of the two shapes. *)
Lemma js_scrape_spec u b :
  exists J b', _js_scrape w u b = (Ok J, b') /\ PassInv "js" u J.
Proof.
  destruct (call_returns (pass_init "js" u) (js_locals0 w) _ (js_body_returns u) b)
    as [J [b' HJ]].
  exists J, b'. split; [exact HJ |].
  eapply (call_keeps (PassInv "js" u)); [apply js_body_keeps | | exact HJ].
  apply PassInv_init.
Qed.

End PassFacts.

(** ** The orchestrator *)

Section ScrapeFacts.

Context (w : World).

(** [scrape], path by path. *)
Lemma scrape_unfold u b :
  scrape w u b =
  let r0 := result0 u (utcnow w b) in
  match urlparse_netloc w u with
  | Raise e => (Ok (push_error (scrape_error e) r0), b)
  | Ok netloc =>
      if _should_force_js (PyStr.lower netloc) && PLAYWRIGHT_AVAILABLE w then
        match _js_scrape w u b with
        | (Ok J, b1) => (Ok (update J (set_strategy "js" r0)), b1)
        | (Raise e, b1) =>
            (Ok (push_error (scrape_error e) (set_strategy "js" r0)), b1)
        end
      else
        match _static_scrape w u b with
        | (Raise e, b1) => (Ok (push_error (scrape_error e) r0), b1)
        | (Ok S0, b1) =>
            let r1 := update S0 r0 in
            if _needs_js_rendering r1 && PLAYWRIGHT_AVAILABLE w then
              let r2 := push_error fallback_notice (set_strategy "js" r1) in
              match _js_scrape w u b1 with
              | (Ok J, b2) => (Ok (merge J r2), b2)
              | (Raise e, b2) => (Ok (push_error (scrape_error e) r2), b2)
              end
            else if _needs_js_rendering r1 && negb (PLAYWRIGHT_AVAILABLE w) then
              (Ok (push_error playwright_notice r1), b1)
            else (Ok r1, b1)
        end
  end.
Proof.
  unfold scrape, call, scrape_body, try_except, bind_, mbind, M_bind, of_res,
    io, zoom, modify, gets. simpl.
  destruct (urlparse_netloc w u) as [netloc|e]; simpl; [| done].
  destruct (_should_force_js (PyStr.lower netloc) && PLAYWRIGHT_AVAILABLE w); simpl.
  - by destruct (_js_scrape w u b) as [[J|e] b1].
  - destruct (_static_scrape w u b) as [[S0|e] b1]; simpl; [| done].
    destruct (_needs_js_rendering _ && PLAYWRIGHT_AVAILABLE w); simpl.
    + by destruct (_js_scrape w u b1) as [[J|e] b2].
    + by destruct (_needs_js_rendering _ && negb (PLAYWRIGHT_AVAILABLE w)).
Qed.

End ScrapeFacts.

Section ScrapeInvariant.

Context (w : World).

Lemma merge_url J r : url (merge J r) = url r.
Proof.
  unfold merge, merge_errors, merge_interactions, merge_meta, merge_sections.
  repeat (match goal with |- context [if ?c then _ else _] => destruct c end; simpl);
    reflexivity.
Qed.

Lemma merge_interactions_eq J r : interactions (merge J r) = p_interactions J.
Proof.
  unfold merge, merge_errors, merge_interactions.
  by destruct (nonempty (p_errors J)).
Qed.

Lemma merge_sections_eq J r :
  sections (merge J r)
  = if (length (sections r) <? length (p_sections J))%nat
    then p_sections J else sections r.
Proof.
  unfold merge, merge_errors, merge_interactions, merge_meta, merge_sections.
  destruct (nonempty (p_errors J)); simpl;
    destruct (has_title (p_meta J)); simpl;
    destruct (p_sections J) as [|s ss] eqn:EJ; simpl; try done;
    try (by rewrite Nat.ltb_ge by lia);
    by destruct (length (sections r) <? Datatypes.S (length ss))%nat.
Qed.

Lemma merge_errors_eq J r : errors (merge J r) = errors r ++ p_errors J.
Proof.
  unfold merge, merge_errors, merge_interactions, merge_meta, merge_sections.
  destruct (p_errors J) as [|e es]; simpl.
  - rewrite app_nil_r.
    repeat (match goal with |- context [if ?c then _ else _] => destruct c end; simpl);
      reflexivity.
  - repeat (match goal with |- context [if ?c then _ else _] => destruct c end; simpl);
      reflexivity.
Qed.

Lemma merge_meta_eq J r :
  meta (merge J r)
  = if has_title (p_meta J)
    then <["strategy" := PStr "js"]> (p_meta J ∪ meta r)
    else meta r.
Proof.
  unfold merge, merge_errors, merge_interactions, merge_meta, merge_sections.
  repeat (match goal with |- context [if ?c then _ else _] => destruct c end; simpl);
    reflexivity.
Qed.

(** Every path of [scrape] returns, and returns a result for the URL it
    was asked for. *)
Lemma scrape_invariant u b :
  exists r b', scrape w u b = (Ok r, b') /\ ScrapeInv u r.
Proof.
  rewrite scrape_unfold. cbv zeta.
  destruct (urlparse_netloc w u) as [netloc|e].
  2:{ eexists _, _. split; [done |]. split_and!; simpl; [done | by eexists | done]. }
  destruct (_should_force_js (PyStr.lower netloc) && PLAYWRIGHT_AVAILABLE w).
  { destruct (js_scrape_spec w u b) as (J & b1 & -> & Hp & Hs & _).
    eexists _, _. split; [done |]. by split_and!. }
  destruct (static_scrape_spec w u b) as (S0 & b1 & -> & Hp & Hs & _).
  destruct (_needs_js_rendering _ && PLAYWRIGHT_AVAILABLE w).
  { destruct (js_scrape_spec w u b1) as (J & b2 & -> & Hp' & Hs' & _).
    eexists _, _. split; [done |]. split_and!.
    - by rewrite merge_url.
    - by rewrite merge_interactions_eq.
    - rewrite merge_sections_eq. by destruct (_ <? _)%nat. }
  destruct (_needs_js_rendering _ && negb (PLAYWRIGHT_AVAILABLE w));
    eexists _, _; (split; [done |]); by split_and!.
Qed.

End ScrapeInvariant.

(** C2.  For every URL and every behaviour of the network and of the
    browser, [scrape] returns a result whose [url] is the URL asked for and
    whose [interactions.pages] starts with that URL: on the forced render
    path, the fetch-only path, the fallback path and when [scrape] itself
    fails. *)
Theorem scrape_url_and_first_page (w : World) (u : string) (b : B w) :
  exists r b', scrape w u b = (Ok r, b')
    /\ url r = u
    /\ exists rest, pages (interactions r) = u :: rest.
Proof.
  destruct (scrape_invariant w u b) as (r & b' & Hr & Hu & Hp & _).
  by exists r, b'.
Qed.

(** C10.  Every section of the result of [scrape] has the requested URL as
    its [sourceUrl], whatever pages the render pass went through: the
    extractor runs on the final tree with the original URL. *)
Theorem scrape_sections_source_url (w : World) (u : string) (b : B w) :
  exists r b', scrape w u b = (Ok r, b')
    /\ Forall (fun s => sec_sourceUrl s = u) (sections r).
Proof.
  destruct (scrape_invariant w u b) as (r & b' & Hr & _ & _ & Hs).
  by exists r, b'.
Qed.

(** ** Total failure *)

(** [scrape] never raises: it returns a result in every world. *)
Lemma scrape_returns (w : World) (u : string) : returns (scrape w u).
Proof.
  intros b. destruct (scrape_invariant w u b) as (r & b' & Hr & _). eauto.
Qed.

(** A failure of [scrape] itself is recorded with phase [scrape], on the
    initial result. *)
Lemma scrape_records_failure (w : World) (u : string) (b : B w) (e : exc) :
  urlparse_netloc w u = Raise e ->
  scrape w u b
  = (Ok (push_error (mk_error (exc_str e) "scrape") (result0 u (utcnow w b))), b).
Proof. intros He. rewrite scrape_unfold. cbv zeta. by rewrite He. Qed.

(** C1, at a failing input.  When the fetch is refused with HTTP 403 the
    result is returned and the failure recorded, but [result.update]
    replaced the default [meta] by the [meta] of the failed pass: it holds
    the key [strategy] only, and [title], [description], [language] and
    [canonical] are gone. *)
Theorem scrape_refused_fetch_meta :
  exists r, scrape refused_world example_url tt = (Ok r, tt)
    /\ sections r = []
    /\ errors r
       = [{| message := "HTTP 403: Forbidden"; phase := "fetch";
             suggestion :=
               Some "Site may be blocking automated requests. Try JS rendering." |}]
    /\ meta r = {[ "strategy" := PStr "static" ]}
    /\ meta r !! "title" = None
    /\ meta r !! "description" = None
    /\ meta r !! "language" = None
    /\ meta r !! "canonical" = None.
Proof. eexists. split; [vm_compute; reflexivity |]. by vm_compute. Qed.

(** ** Section identifiers *)

(** C6, at a failing input.  On a page whose [<main>] holds a paragraph,
    then a heading and two more paragraphs, the landmark section and the
    heading-fallback section both get the identifier [section-0]: the
    fallback numbers its sections from 0 again. *)
Theorem scrape_duplicate_section_ids :
  exists r, scrape intro_world example_url tt = (Ok r, tt)
    /\ map sec_id (sections r) = ["section-0"; "section-0"]
    /\ ~ NoDup (map sec_id (sections r)).
Proof.
  eexists. split; [vm_compute; reflexivity |]. split; [by vm_compute |].
  intros Hnd. apply NoDup_cons in Hnd as [Hin _]. apply Hin. by left.
Qed.

(** ** The merge *)

(** With a title, the [meta] of the render pass has every key, and the
    update leaves nothing of the [meta] it overwrites. *)
Lemma meta_overwritten (mJ mS : Meta) :
  has_title mJ = true -> meta_shape "js" mJ -> meta_shape "static" mS ->
  <["strategy" := PStr "js"]> (mJ ∪ <["strategy" := PStr "js"]> mS) = mJ.
Proof.
  intros Ht [-> | (t & d & l & c & ->)] HS; [by vm_compute in Ht |].
  destruct HS as [-> | (t' & d' & l' & c' & ->)]; by vm_compute.
Qed.

Lemma fallback_result (w : World) (u : string) (b b1 b2 : B w) (S0 J : PassResult) :
  fallback_run w u b S0 b1 J b2 ->
  scrape w u b
  = (Ok (merge J (push_error fallback_notice
                    (set_strategy "js" (update S0 (result0 u (utcnow w b)))))), b2).
Proof.
  intros (netloc & Hn & Hf & HS & Hneeds & HJ).
  rewrite scrape_unfold. cbv zeta. by rewrite Hn, Hf, HS, Hneeds, HJ.
Qed.

Lemma fallback_run_rendered :
  fallback_run rendered_world example_url tt fetched_one tt rendered_two tt.
Proof. exists "example.com". split_and!; by vm_compute. Qed.

Lemma fallback_run_unrendered :
  fallback_run unrendered_world example_url tt fetched_one tt unrendered tt.
Proof. exists "example.com". split_and!; by vm_compute. Qed.

(** The condition [js_result.get("meta", {}).get("title")], read on the
    dictionary: the key is there and holds a non-empty string. *)
Lemma has_title_true (m : Meta) :
  has_title m = true <-> exists t, m !! "title" = Some (PStr t) /\ t <> "".
Proof.
  unfold has_title. split.
  - destruct (m !! "title") as [[|t]|]; [done | | done].
    intros Ht. exists t. split; [done |]. by intros ->.
  - intros (t & -> & Ht). by destruct t.
Qed.

Lemma has_title_false (m : Meta) :
  has_title m = false
  <-> m !! "title" = None \/ m !! "title" = Some PNone \/ m !! "title" = Some (PStr "").
Proof.
  unfold has_title. split.
  - destruct (m !! "title") as [[|[|c t]]|]; [by auto | by auto | done | by auto].
  - by intros [-> | [-> | ->]].
Qed.

(** C4.  On the fallback path, with [S0] the result of the fetch pass and
    [J] the result of the render pass: the sections are those of [J] when
    [J] has strictly more sections than [S0], and those of [S0] otherwise;
    when the title in the metadata of [J] is a non-empty string, the
    metadata is that of [J] and its strategy is [js]; when that title is
    missing, [None] or empty, the metadata is what the fetch pass left
    (with the strategy the fallback decision set); the interactions are
    those of [J]; the errors are those of [S0], the fallback notice, then
    those of [J]. *)
Theorem fallback_merge (w : World) (u : string) (b b1 b2 : B w) (S0 J : PassResult) :
  fallback_run w u b S0 b1 J b2 ->
  exists r, scrape w u b = (Ok r, b2)
    /\ sections r
       = (if (length (p_sections S0) <? length (p_sections J))%nat
          then p_sections J else p_sections S0)
    /\ (forall t, p_meta J !! "title" = Some (PStr t) -> t <> "" ->
        meta r = p_meta J /\ meta r !! "strategy" = Some (PStr "js"))
    /\ (p_meta J !! "title" = None \/ p_meta J !! "title" = Some PNone
        \/ p_meta J !! "title" = Some (PStr "") ->
        meta r = <["strategy" := PStr "js"]> (p_meta S0))
    /\ interactions r = p_interactions J
    /\ errors r = p_errors S0 ++ [fallback_notice] ++ p_errors J.
Proof.
  intros Hrun. pose proof (fallback_result _ _ _ _ _ _ _ Hrun) as Hr.
  destruct Hrun as (netloc & _ & _ & HS & _ & HJ).
  destruct (static_scrape_spec w u b) as (S' & b1' & HS' & _ & _ & HmS).
  rewrite HS in HS'. injection HS' as <- <-.
  destruct (js_scrape_spec w u b1) as (J' & b2' & HJ' & _ & _ & HmJ).
  rewrite HJ in HJ'. injection HJ' as <- <-.
  eexists. split; [exact Hr |].
  assert (meta (merge J (push_error fallback_notice
            (set_strategy "js" (update S0 (result0 u (utcnow w b))))))
          = if has_title (p_meta J) then p_meta J
            else <["strategy" := PStr "js"]> (p_meta S0)) as Hmeta.
  { rewrite merge_meta_eq. simpl. destruct (has_title (p_meta J)) eqn:Ht; [| done].
    by apply meta_overwritten. }
  split_and!.
  - by rewrite merge_sections_eq.
  - intros t Ht Hne.
    assert (has_title (p_meta J) = true) as Htrue by (apply has_title_true; eauto).
    rewrite Hmeta, Htrue. split; [done |].
    destruct HmJ as [-> | (t' & d & l & c & ->)]; [by vm_compute in Ht | done].
  - intros Hno. apply has_title_false in Hno. by rewrite Hmeta, Hno.
  - by rewrite merge_interactions_eq.
  - rewrite merge_errors_eq. simpl. by rewrite <- app_assoc.
Qed.

(** The fetch pass found one section and the title [A page]; the render
    pass found two sections and the title [Rendered]. *)
Lemma fallback_merge_witness :
  fallback_run rendered_world example_url tt fetched_one tt rendered_two tt
  /\ exists r, scrape rendered_world example_url tt = (Ok r, tt)
       /\ length (p_sections fetched_one) = 1
       /\ sections r = p_sections rendered_two
       /\ length (sections r) = 2
       /\ p_meta fetched_one !! "title" = Some (PStr "A page")
       /\ p_meta rendered_two !! "title" = Some (PStr "Rendered")
       /\ meta r = p_meta rendered_two
       /\ meta r !! "title" = Some (PStr "Rendered")
       /\ meta r !! "strategy" = Some (PStr "js")
       /\ interactions r = p_interactions rendered_two
       /\ errors r = [fallback_notice].
Proof.
  assert (fallback_run rendered_world example_url tt fetched_one tt rendered_two tt)
    as Hrun by (exists "example.com"; split_and!; vm_compute; reflexivity).
  split; [exact Hrun |].
  destruct (fallback_merge rendered_world example_url tt tt tt fetched_one rendered_two
              Hrun) as (r & Hr & Hsec & Hmeta & _ & Hint & Herr).
  assert (p_meta rendered_two !! "title" = Some (PStr "Rendered")) as Ht
    by (vm_compute; reflexivity).
  destruct (Hmeta "Rendered" Ht) as [Hm Hst]; [discriminate |].
  exists r. split_and!.
  - exact Hr.
  - vm_compute; reflexivity.
  - rewrite Hsec. vm_compute; reflexivity.
  - rewrite Hsec. vm_compute; reflexivity.
  - vm_compute; reflexivity.
  - exact Ht.
  - exact Hm.
  - rewrite Hm. exact Ht.
  - exact Hst.
  - exact Hint.
  - rewrite Herr. vm_compute; reflexivity.
Defined.

(** The other branch of the metadata rule: the render pass failed, its
    metadata has no title, and the title of the fetch pass stays. *)
Example fallback_merge_title_kept :
  exists r, scrape unrendered_world example_url tt = (Ok r, tt)
    /\ p_meta unrendered !! "title" = None
    /\ meta r !! "title" = Some (PStr "A page")
    /\ meta r = <["strategy" := PStr "js"]> (p_meta fetched_one).
Proof. eexists. split; [vm_compute; reflexivity |]. by split_and!; vm_compute. Qed.

(** C5, as stated, fails: here the render pass was attempted and failed,
    the sections and the metadata of the fetch pass are retained, and the
    strategy is [js]. *)
Lemma fallback_strategy_not_static :
  ~ (forall (w : World) (u : string) (b b1 b2 : B w) (S0 J : PassResult)
            (r : ScrapeResult),
        fallback_run w u b S0 b1 J b2 ->
        scrape w u b = (Ok r, b2) ->
        sections r = p_sections S0 ->
        Forall (fun k => meta r !! k = p_meta S0 !! k) content_keys ->
        meta r !! "strategy" = Some (PStr "static")).
Proof.
  intros Hclaim.
  pose proof (fallback_result _ _ _ _ _ _ _ fallback_run_unrendered) as Hr.
  specialize (Hclaim unrendered_world example_url tt tt tt fetched_one unrendered _
                fallback_run_unrendered Hr).
  assert (Some (PStr "js") = Some (PStr "static")) as Hbad; [| discriminate].
  rewrite <- Hclaim.
  - by vm_compute.
  - by vm_compute.
  - repeat constructor; by vm_compute.
Qed.

(** C5, amended.  After a fallback fetch-then-render scrape the strategy is
    [js]: it records that the render pass was attempted, whichever pass the
    sections and the metadata come from. *)
Theorem fallback_strategy_js (w : World) (u : string) (b b1 b2 : B w)
    (S0 J : PassResult) :
  fallback_run w u b S0 b1 J b2 ->
  exists r, scrape w u b = (Ok r, b2) /\ meta r !! "strategy" = Some (PStr "js").
Proof.
  intros Hrun. eexists. split; [exact (fallback_result _ _ _ _ _ _ _ Hrun) |].
  rewrite merge_meta_eq. simpl.
  destruct (has_title (p_meta J)); by rewrite lookup_insert_eq.
Qed.

Lemma fallback_strategy_js_witness :
  fallback_run unrendered_world example_url tt fetched_one tt unrendered tt
  /\ exists r, scrape unrendered_world example_url tt = (Ok r, tt)
       /\ meta r !! "strategy" = Some (PStr "js").
Proof.
  split.
  - exists "example.com". split_and!; vm_compute; reflexivity.
  - apply (fallback_strategy_js unrendered_world example_url tt tt tt
             fetched_one unrendered).
    exists "example.com". split_and!; vm_compute; reflexivity.
Defined.

(** ** The end-to-end scenario *)

Section Scenario.

Variable urljoin : string -> string -> res string.
Variables t1 t2 t3 : string.
Hypothesis long1 : 10 < String.length (PyStr.strip t1).
Hypothesis long2 : 10 < String.length (PyStr.strip t2).
Hypothesis long3 : 10 < String.length (PyStr.strip t3).











End Scenario.


(** The two sections of that page: the same heading, no text. *)
Example title_page_padded_sections :
  exists s1 s2,
    _extract_sections plain_urljoin
      (title_page "A page" "0123456789 " "0123456789 " "0123456789 ") example_url
    = Ok [s1; s2]
    /\ sec_id s1 = "section-0" /\ sec_id s2 = "section-0"
    /\ headings (sec_content s1) = ["Title"] /\ headings (sec_content s2) = ["Title"]
    /\ text (sec_content s1) = "" /\ text (sec_content s2) = "".
Proof. do 2 eexists. split; [vm_compute; reflexivity |]. by split_and!. Qed.

(** The same with no-break spaces (U+00A0) around the text. *)
Example title_page_nbsp_sections :
  let t := String (ascii_of_nat 160) "0123456789" in
  String.length t = 11
  /\ exists s1 s2,
       _extract_sections plain_urljoin (title_page "A page" t t t) example_url
       = Ok [s1; s2].
Proof. split; [reflexivity |]. do 2 eexists. vm_compute. reflexivity. Qed.



(** The same scenario through [scrape], in a world without a browser. *)
Example scrape_title_page :
  exists r, scrape (test_world false (ok page_one) (ok tt) (ok page_two))
                   example_url tt = (Ok r, tt)
    /\ map sec_type (sections r) = ["section"]
    /\ map sec_label (sections r) = ["Title"]
    /\ map (fun s => headings (sec_content s)) (sections r) = [["Title"]].
Proof. eexists. split; [vm_compute; reflexivity |]. by vm_compute. Qed.

(** A render pass that follows a link to another page: the pages visited
    are recorded, and the sections still carry the requested URL. *)
Example scrape_paginated :
  exists r, scrape paging_world example_url tt = (Ok r, tt)
    /\ pages (interactions r) = [example_url; "http://example.com/page2"]
    /\ map sec_sourceUrl (sections r) = [example_url; example_url]
    /\ meta r !! "strategy" = Some (PStr "js").
Proof. eexists. split; [vm_compute; reflexivity |]. by vm_compute. Qed.

(** * Further properties of the extractor *)

Module SliceFacts.
Import PyStr.

Lemma slice_to_length (n : nat) (s : string) :
  String.length (slice_to n s) = Nat.min n (String.length s).
Proof.
  revert s. induction n as [|n IH]; intros [|c s]; simpl; try done.
  by rewrite IH.
Qed.

Lemma slice_to_le (n : nat) (s : string) : String.length (slice_to n s) <= n.
Proof. rewrite slice_to_length. lia. Qed.

Lemma slice_to_short (n : nat) (s : string) :
  String.length s <= n -> slice_to n s = s.
Proof.
  revert s. induction n as [|n IH]; intros [|c s]; simpl; try done; [lia |].
  intros H. rewrite IH; [done | lia].
Qed.

Lemma append_length (s t : string) :
  String.length (s +:+ t) = String.length s + String.length t.
Proof.
  induction s as [|c s IH]; [done |].
  rewrite PyStrFacts.app_cons. simpl. by rewrite IH.
Qed.

Lemma truthy_length (s : string) : truthy s = true <-> 0 < String.length s.
Proof. destruct s; simpl; split; (done || lia). Qed.

End SliceFacts.

#[local] Arguments PyStr.slice_to : simpl never.

Section Caps.

Variable urljoin : string -> string -> res string.

Lemma links_loop_cap u as_ acc lks :
  links_loop urljoin u as_ acc = Ok lks ->
  length acc < 20 -> Forall (fun l => String.length (link_text l) <= 100) acc ->
  length lks <= 20 /\ Forall (fun l => String.length (link_text l) <= 100) lks.
Proof.
  revert acc. induction as_ as [|link rest IH]; intros acc; cbn [links_loop].
  - intros [= <-] Hlen Hall. split; [lia | done].
  - destruct (attr_get link "href" (PStr "")) as [|h]; [by apply IH |].
    destruct (PyStr.truthy h && PyStr.truthy (text_strip link)); [| by apply IH].
    unfold bind_, mbind, res_bind. destruct (urljoin u h) as [a|]; [| done].
    match goal with |- context [(20 <=? ?n)%nat] => destruct (20 <=? n)%nat eqn:E end.
    + intros [= <-] Hlen Hall. rewrite length_app. cbn [length]. split; [lia |].
      apply Forall_app. split; [done |]. apply Forall_singleton.
      apply SliceFacts.slice_to_le.
    + intros Hr Hlen Hall. apply Nat.leb_gt in E. apply (IH _ Hr); [done |].
      apply Forall_app. split; [done |]. apply Forall_singleton.
      apply SliceFacts.slice_to_le.
Qed.

Lemma images_loop_cap u imgs acc r :
  images_loop urljoin u imgs acc = Ok r -> length acc < 10 -> length r <= 10.
Proof.
  revert acc. induction imgs as [|img rest IH]; intros acc; cbn [images_loop].
  - intros [= <-] Hlen. lia.
  - destruct (py_or _ _) as [|s]; [by apply IH |].
    destruct (PyStr.truthy s); [| by apply IH].
    unfold bind_, mbind, res_bind. destruct (urljoin u s) as [a|]; [| done].
    match goal with |- context [(10 <=? ?n)%nat] => destruct (10 <=? n)%nat eqn:E end.
    + intros [= <-] Hlen. rewrite length_app. cbn [length]. lia.
    + intros Hr Hlen. apply Nat.leb_gt in E. by apply (IH _ Hr).
Qed.

End Caps.

Lemma items_of_list_capped (ul : node) :
  let items := map (PyStr.slice_to 200)
                 (filter (fun t => PyStr.truthy t = true)
                    (map text_strip (css (Tags ["li"]) ul))) in
  length (take 20 items) <= 20
  /\ Forall (fun i => String.length i <= 200) (take 20 items).
Proof.
  intros items. split.
  - rewrite length_take. lia.
  - apply Forall_take. unfold items. apply List.Forall_map, Forall_true.
    intros t. apply SliceFacts.slice_to_le.
Qed.

Lemma lists_loop_cap uls acc :
  length acc < 5 ->
  Forall (fun items => length items <= 20
                       /\ Forall (fun i => String.length i <= 200) items) acc ->
  length (lists_loop uls acc) <= 5
  /\ Forall (fun items => length items <= 20
                          /\ Forall (fun i => String.length i <= 200) items)
            (lists_loop uls acc).
Proof.
  revert acc. induction uls as [|ul rest IH]; intros acc Hlen Hall; cbn [lists_loop].
  - split; [lia | done].
  - match goal with |- context [if nonempty ?i then _ else _] => set (items := i) end.
    assert (Forall (fun items => length items <= 20
                       /\ Forall (fun i => String.length i <= 200) items)
              (if nonempty items then acc ++ [take 20 items] else acc)) as Hall'.
    { destruct (nonempty items); [| done]. apply Forall_app. split; [done |].
      apply Forall_singleton. apply items_of_list_capped. }
    assert (length (if nonempty items then acc ++ [take 20 items] else acc) <= 5)
      as Hlen'.
    { destruct (nonempty items); [| lia]. rewrite length_app. cbn [length]. lia. }
    destruct (5 <=? _)%nat eqn:E; [done |].
    apply Nat.leb_gt in E. by apply IH.
Qed.

Lemma rows_loop_cap rows acc :
  length acc < 20 ->
  Forall (Forall (fun cell => String.length cell <= 100)) acc ->
  length (rows_loop rows acc) <= 20
  /\ Forall (Forall (fun cell => String.length cell <= 100)) (rows_loop rows acc).
Proof.
  revert acc. induction rows as [|row rest IH]; intros acc Hlen Hall; cbn [rows_loop].
  - split; [lia | done].
  - match goal with |- context [if nonempty ?i then _ else _] => set (row_data := i) end.
    assert (Forall (fun cell => String.length cell <= 100) row_data) as Hrow.
    { unfold row_data. apply List.Forall_map, Forall_true.
      intros t. apply SliceFacts.slice_to_le. }
    assert (Forall (Forall (fun cell => String.length cell <= 100))
              (if nonempty row_data then acc ++ [row_data] else acc)) as Hall'.
    { destruct (nonempty row_data); [| done]. apply Forall_app. split; [done |].
      by apply Forall_singleton. }
    assert (length (if nonempty row_data then acc ++ [row_data] else acc) <= 20)
      as Hlen'.
    { destruct (nonempty row_data); [| lia]. rewrite length_app. cbn [length]. lia. }
    destruct (20 <=? _)%nat eqn:E; [done |].
    apply Nat.leb_gt in E. by apply IH.
Qed.

Lemma tables_loop_cap tbls acc :
  length acc < 3 ->
  Forall (fun t => length t <= 20
                   /\ Forall (Forall (fun cell => String.length cell <= 100)) t) acc ->
  length (tables_loop tbls acc) <= 3
  /\ Forall (fun t => length t <= 20
                      /\ Forall (Forall (fun cell => String.length cell <= 100)) t)
            (tables_loop tbls acc).
Proof.
  revert acc. induction tbls as [|tb rest IH]; intros acc Hlen Hall; cbn [tables_loop].
  - split; [lia | done].
  - match goal with |- context [if nonempty ?i then _ else _] => set (td := i) end.
    assert (length td <= 20
            /\ Forall (Forall (fun cell => String.length cell <= 100)) td) as Htd.
    { apply rows_loop_cap; [cbn [length]; lia | done]. }
    assert (Forall (fun t => length t <= 20
                   /\ Forall (Forall (fun cell => String.length cell <= 100)) t)
              (if nonempty td then acc ++ [td] else acc)) as Hall'.
    { destruct (nonempty td); [| done]. apply Forall_app. split; [done |].
      by apply Forall_singleton. }
    assert (length (if nonempty td then acc ++ [td] else acc) <= 3) as Hlen'.
    { destruct (nonempty td); [| lia]. rewrite length_app. cbn [length]. lia. }
    destruct (3 <=? _)%nat eqn:E; [done |].
    apply Nat.leb_gt in E. by apply IH.
Qed.

(** ** Every section of a result was built by [_process_section] *)

Section ExtractorForall.

Variable urljoin : string -> string -> res string.
Variable u : string.
Variable P : Sect -> Prop.
Hypothesis P_processed : forall el st idx s,
  _process_section urljoin el st idx u = Ok s -> has_content s = true -> P s.

Lemma landmarks_loop_Forall lms idx acc secs :
  Forall P acc -> landmarks_loop urljoin u idx lms acc = Ok secs -> Forall P secs.
Proof.
  revert idx acc. induction lms as [|[lt el] lms IH]; intros idx acc Hacc;
    cbn [landmarks_loop].
  - by intros [= <-].
  - unfold bind_, mbind, res_bind.
    destruct (_process_section _ _ _ _ _) as [s|] eqn:Es; [| done].
    apply IH. destruct (has_content s) eqn:Hc; [| done].
    apply Forall_app. split; [done |]. apply Forall_singleton. by eapply P_processed.
Qed.

Lemma headings_loop_Forall hs acc secs :
  Forall P acc -> headings_loop urljoin u hs acc = Ok secs -> Forall P secs.
Proof.
  revert acc. induction hs as [|[h nexts] hs IH]; intros acc Hacc;
    cbn [headings_loop].
  - by intros [= <-].
  - unfold bind_, mbind, res_bind.
    destruct (_process_section _ _ _ _ _) as [s|] eqn:Es; [| done].
    apply IH. destruct (has_content s) eqn:Hc; [| done].
    apply Forall_app. split; [done |]. apply Forall_singleton. by eapply P_processed.
Qed.

Lemma extract_sections_Forall parser secs :
  _extract_sections urljoin parser u = Ok secs -> Forall P secs.
Proof.
  unfold _extract_sections, bind_, mbind, res_bind.
  destruct (landmarks_loop _ _ _ _ _) as [s1|] eqn:E1; [| done].
  apply landmarks_loop_Forall in E1; [| done].
  destruct (length s1 <? 3)%nat.
  - destruct (_extract_by_headings _ _ _) as [s2|] eqn:E2; [| done].
    intros [= <-]. apply deduplicate_Forall, Forall_app. split; [done |].
    unfold _extract_by_headings in E2.
    destruct (css_first_doc _ _); [| by injection E2 as <-].
    eapply headings_loop_Forall; [| exact E2]. constructor.
  - intros [= <-]. by apply deduplicate_Forall.
Qed.

End ExtractorForall.

Section SectionsInvariant.

Context (w : World).
Variable u : string.
Variable P : Sect -> Prop.
Hypothesis P_processed : forall el st idx s,
  _process_section (urljoin w) el st idx u = Ok s -> has_content s = true -> P s.

Abbreviation Secs := (fun (L : Type) (f : Frame (B w) PassResult L) =>
                        Forall P (p_sections (result f))).

Lemma static_body_sections : keeps (Secs unit) (static_body w u).
Proof.
  unfold static_body. keeps_auto; apply keeps_modify; intros [b r []] H; try done.
  by eapply extract_sections_Forall.
Qed.

Lemma static_scrape_sections b S0 b' :
  _static_scrape w u b = (Ok S0, b') -> Forall P (p_sections S0).
Proof.
  intros HS.
  eapply (call_keeps w (fun r => Forall P (p_sections r)));
    [apply static_body_sections | | exact HS].
  constructor.
Qed.

Lemma js_push_click_sections c : keeps (Secs (JsLocals w)) (push_click w c).
Proof. apply keeps_modify. by intros [b r l] H. Qed.

#[local] Hint Resolve js_push_click_sections : keeps.

Lemma js_click_tab_sections sel it : keeps (Secs (JsLocals w)) (click_tab w sel it).
Proof. unfold click_tab. keeps_auto. Qed.

#[local] Hint Resolve js_click_tab_sections : keeps.

Lemma js_tabs_loop_sections sels : keeps (Secs (JsLocals w)) (tabs_loop w sels).
Proof. induction sels as [|sel sels IH]; cbn [tabs_loop]; keeps_auto. Qed.

Lemma js_load_more_sections sel is_ : keeps (Secs (JsLocals w)) (load_more_loop w sel is_).
Proof. induction is_ as [|i is_ IH]; cbn [load_more_loop]; keeps_auto. Qed.

#[local] Hint Resolve js_tabs_loop_sections js_load_more_sections : keeps.

Lemma js_scroll_rounds_sections rounds : keeps (Secs (JsLocals w)) (scroll_rounds w rounds).
Proof.
  induction rounds as [|i rounds IH]; cbn [scroll_rounds]; keeps_auto.
  unfold scroll_round. keeps_auto. apply keeps_modify. by intros [b r l] H.
Qed.

Lemma js_find_next_sections sels : keeps (Secs (JsLocals w)) (find_next w sels).
Proof.
  induction sels as [|sel sels IH]; cbn [find_next]; keeps_auto;
    apply keeps_modify; by intros [b r l] H.
Qed.

#[local] Hint Resolve js_scroll_rounds_sections js_find_next_sections : keeps.

Lemma js_pagination_loop_sections nums :
  keeps (Secs (JsLocals w)) (pagination_loop w nums).
Proof.
  induction nums as [|i nums IH]; cbn [pagination_loop]; keeps_auto;
    apply keeps_modify; by intros [b r l] H.
Qed.

#[local] Hint Resolve js_pagination_loop_sections : keeps.

Lemma js_body_sections : keeps (Secs (JsLocals w)) (js_body w u).
Proof.
  unfold js_body. destruct (negb (PLAYWRIGHT_AVAILABLE w)).
  { apply keeps_modify. by intros [b r l] H. }
  unfold render, _remove_noise, _perform_clicks, _perform_scrolls, _follow_pagination.
  keeps_auto; apply keeps_modify; intros [b r l] H; try done.
  by eapply extract_sections_Forall.
Qed.

Lemma js_scrape_sections b J b' :
  _js_scrape w u b = (Ok J, b') -> Forall P (p_sections J).
Proof.
  intros HJ.
  eapply (call_keeps w (fun r => Forall P (p_sections r)));
    [apply js_body_sections | | exact HJ].
  constructor.
Qed.

(** Whatever holds of every section [_process_section] keeps holds of
    every section of every result of [scrape]. *)
Lemma scrape_sections_Forall b :
  exists r b', scrape w u b = (Ok r, b') /\ Forall P (sections r).
Proof.
  rewrite scrape_unfold. cbv zeta.
  destruct (urlparse_netloc w u) as [netloc|e]; [| by eexists _, _].
  destruct (_should_force_js (PyStr.lower netloc) && PLAYWRIGHT_AVAILABLE w).
  { destruct (js_scrape_spec w u b) as (J & b1 & HJ & _). rewrite HJ.
    eexists _, _. split; [done |]. by eapply js_scrape_sections. }
  destruct (static_scrape_spec w u b) as (S0 & b1 & HS & _). rewrite HS.
  pose proof (static_scrape_sections _ _ _ HS) as HPS.
  destruct (_needs_js_rendering _ && PLAYWRIGHT_AVAILABLE w).
  { destruct (js_scrape_spec w u b1) as (J & b2 & HJ & _). rewrite HJ.
    eexists _, _. split; [done |]. rewrite merge_sections_eq.
    destruct (_ <? _)%nat; [by eapply js_scrape_sections | done]. }
  destruct (_needs_js_rendering _ && negb (PLAYWRIGHT_AVAILABLE w));
    by eexists _, _.
Qed.

End SectionsInvariant.

(** ** What [_process_section] guarantees of one section *)

Lemma detect_type_vocabulary (el : node) (c : Content) (dt : string) :
  _detect_section_type el c = Ok dt -> dt ∈ section_types.
Proof.
  unfold _detect_section_type, bind_, mbind, res_bind.
  destruct (attr_get el "class" (PStr "")); [done |].
  destruct (attr_get el "id" (PStr "")); [done |].
  intros [= <-]. unfold section_types.
  repeat match goal with |- context [if ?b then _ else _] => destruct b end;
    set_solver.
Qed.

Lemma filter_truthy_Forall (l : list string) :
  Forall (fun h => PyStr.truthy h = true) (filter (fun t => PyStr.truthy t = true) l).
Proof.
  apply Forall_forall. intros h Hh.
  by apply list_elem_of_filter in Hh as [Hh _].
Qed.

Section ProcessFacts.

Variable urljoin : string -> string -> res string.

Lemma process_section_facts el st idx u s :
  _process_section urljoin el st idx u = Ok s ->
  within_caps (sec_content s) /\ items_capped (sec_content s)
  /\ sec_type s ∈ section_types
  /\ sec_id s = sec_type s +:+ "-" +:+ PyStr.of_nat idx
  /\ sec_label s = _create_label (sec_content s) (sec_type s)
  /\ Forall (fun h => PyStr.truthy h = true) (headings (sec_content s))
  /\ sec_truncated s = (1000 <? String.length (html el))%nat
  /\ sec_rawHtml s
     = (if sec_truncated s then PyStr.slice_to 1000 (html el) +:+ "..." else html el).
Proof.
  unfold _process_section, bind_, mbind, res_bind.
  destruct (links_loop _ _ _ _) as [lks|] eqn:El; [| done].
  destruct (images_loop _ _ _ _) as [imgs|] eqn:Ei; [| done].
  destruct (_detect_section_type _ _) as [dt|] eqn:Ed; [| done].
  intros [= <-]. cbn [sec_content sec_type sec_id sec_label sec_truncated sec_rawHtml].
  apply links_loop_cap in El as [Hl1 Hl2]; [| cbn; lia | constructor].
  apply images_loop_cap in Ei; [| cbn; lia].
  destruct (lists_loop_cap (css (Tags ["ul"; "ol"]) el) []) as [Hu1 Hu2];
    [cbn; lia | constructor |].
  destruct (tables_loop_cap (css (Tags ["table"]) el) []) as [Ht1 Ht2];
    [cbn; lia | constructor |].
  apply detect_type_vocabulary in Ed.
  split_and!; try done.
  - repeat match goal with |- context [if ?b then _ else _] => destruct b end;
      try done; unfold section_types; set_solver.
  - cbn [headings]. repeat (apply Forall_app; split);
      first [apply filter_truthy_Forall | constructor].
Qed.

(** The landmark kind decides the type of [header], [nav], [footer] and
    [article] landmarks, whatever their class and id say. *)
Lemma process_section_override el st idx u s :
  _process_section urljoin el st idx u = Ok s ->
  (st = "header" -> sec_type s = "hero")
  /\ (st = "nav" -> sec_type s = "nav")
  /\ (st = "footer" -> sec_type s = "footer")
  /\ (st = "article" -> sec_type s = "section").
Proof.
  unfold _process_section, bind_, mbind, res_bind.
  destruct (links_loop _ _ _ _) as [lks|]; [| done].
  destruct (images_loop _ _ _ _) as [imgs|]; [| done].
  destruct (_detect_section_type _ _) as [dt|]; [| done].
  intros [= <-]. cbn [sec_type]. split_and!; by intros ->.
Qed.

End ProcessFacts.

Lemma type_label_nonempty (t : string) :
  PyStr.truthy (assoc_get t type_labels "Section") = true.
Proof.
  unfold type_labels. cbn [assoc_get].
  repeat match goal with |- context [if ?b then _ else _] => destruct b end; done.
Qed.

Lemma create_label_nonempty (c : Content) (t : string) :
  Forall (fun h => PyStr.truthy h = true) (headings c) ->
  PyStr.truthy (_create_label c t) = true.
Proof.
  intros Hh. unfold _create_label. destruct (headings c) as [|h hs].
  - pose proof (type_label_nonempty t) as Hb.
    destruct (assoc_get t type_labels "Section") as [|a base]; [done |].
    by repeat match goal with |- context [if ?b then _ else _] => destruct b end.
  - apply Forall_cons in Hh as [Hh _]. by destruct h.
Qed.

(** X1.  In every result of [scrape], every section has at most 20 links,
    10 images, 5 lists and 3 tables. *)
Theorem scrape_sections_within_caps (w : World) (u : string) (b : B w) :
  exists r b', scrape w u b = (Ok r, b')
    /\ Forall (fun s => within_caps (sec_content s)) (sections r).
Proof.
  apply scrape_sections_Forall. intros el st idx s Hs _.
  by apply process_section_facts in Hs as (H & _).
Qed.

(** X2.  In every result of [scrape], a link text has at most 100
    characters, a list at most 20 items of at most 200 characters, and a
    table at most 20 rows of cells of at most 100 characters. *)
Theorem scrape_sections_items_capped (w : World) (u : string) (b : B w) :
  exists r b', scrape w u b = (Ok r, b')
    /\ Forall (fun s => items_capped (sec_content s)) (sections r).
Proof.
  apply scrape_sections_Forall. intros el st idx s Hs _.
  by apply process_section_facts in Hs as (_ & H & _).
Qed.

(** X3.  In every result of [scrape], the markup snippet of a section
    marked [truncated] has exactly 1003 characters (1000 and the dots), and
    the snippet of a section not marked has at most 1000. *)
Theorem scrape_sections_raw_html (w : World) (u : string) (b : B w) :
  exists r b', scrape w u b = (Ok r, b')
    /\ Forall (fun s => if sec_truncated s
                        then String.length (sec_rawHtml s) = 1003
                        else String.length (sec_rawHtml s) <= 1000)
              (sections r).
Proof.
  apply scrape_sections_Forall. intros el st idx s Hs _.
  apply process_section_facts in Hs as (_ & _ & _ & _ & _ & _ & Ht & Hr).
  rewrite Hr, Ht. destruct (1000 <? String.length (html el))%nat eqn:E.
  - apply Nat.ltb_lt in E.
    rewrite SliceFacts.append_length, SliceFacts.slice_to_length.
    change (String.length "...") with 3. lia.
  - by apply Nat.ltb_ge in E.
Qed.

(** X4.  In every result of [scrape], the type of a section is one of
    hero, nav, footer, faq, pricing, grid, list, section, and its id is the
    type, a dash and a decimal number. *)
Theorem scrape_sections_types (w : World) (u : string) (b : B w) :
  exists r b', scrape w u b = (Ok r, b')
    /\ Forall (fun s => sec_type s ∈ section_types
                        /\ exists idx, sec_id s = sec_type s +:+ "-" +:+ PyStr.of_nat idx)
              (sections r).
Proof.
  apply scrape_sections_Forall. intros el st idx s Hs _.
  apply process_section_facts in Hs as (_ & _ & Ht & Hi & _). eauto.
Qed.

(** X5.  In every result of [scrape], no heading of a section is empty,
    the label of a section is never empty, and a section with a heading is
    labelled with the first 80 characters of its first heading. *)
Theorem scrape_sections_labels (w : World) (u : string) (b : B w) :
  exists r b', scrape w u b = (Ok r, b')
    /\ Forall (fun s =>
                 Forall (fun h => h <> "") (headings (sec_content s))
                 /\ sec_label s <> ""
                 /\ forall h rest, headings (sec_content s) = h :: rest ->
                                   sec_label s = PyStr.slice_to 80 h)
              (sections r).
Proof.
  apply scrape_sections_Forall. intros el st idx s Hs _.
  apply process_section_facts in Hs as (_ & _ & _ & _ & Hl & Hh & _).
  split_and!.
  - eapply Forall_impl; [exact Hh |]. by intros [|] ?.
  - pose proof (create_label_nonempty _ (sec_type s) Hh) as Hne.
    rewrite Hl. by destruct (_create_label _ _).
  - intros h rest Hhs. rewrite Hl. unfold _create_label. by rewrite Hhs.
Qed.

(** X6.  In every result of [scrape], every section has some text or at
    least one heading: a processed section with neither is discarded. *)
Theorem scrape_sections_have_content (w : World) (u : string) (b : B w) :
  exists r b', scrape w u b = (Ok r, b')
    /\ Forall (fun s => text (sec_content s) <> ""
                        \/ headings (sec_content s) <> [])
              (sections r).
Proof.
  apply scrape_sections_Forall. intros el st idx s _ Hc.
  unfold has_content in Hc. apply orb_true_iff in Hc as [Hc | Hc].
  - left. by destruct (text (sec_content s)).
  - right. by destruct (headings (sec_content s)).
Qed.

(** X7.  The landmark kind decides the type: a [header] landmark is a
    hero, a [nav] landmark a nav, a [footer] landmark a footer and an
    [article] landmark a section, whatever the class and id of the element
    contain. *)
Theorem landmark_kind_overrides (urljoin : string -> string -> res string)
    (el : node) (st : string) (idx : nat) (u : string) (s : Sect) :
  _process_section urljoin el st idx u = Ok s ->
  (st = "header" -> sec_type s = "hero")
  /\ (st = "nav" -> sec_type s = "nav")
  /\ (st = "footer" -> sec_type s = "footer")
  /\ (st = "article" -> sec_type s = "section").
Proof. apply process_section_override. Qed.

Lemma landmark_kind_overrides_witness :
  _process_section plain_urljoin rich_element "header" 0 example_url = Ok header_sample
  /\ sec_type header_sample = "hero".
Proof.
  assert (_process_section plain_urljoin rich_element "header" 0 example_url
          = Ok header_sample) as H by (vm_compute; reflexivity).
  split; [exact H |].
  by apply (landmark_kind_overrides plain_urljoin rich_element "header" 0
              example_url header_sample H).
Defined.

Lemma attr_get_none (t : string) (attrs : list (string * option string))
    (kids : list node) (k : string) :
  attr_get (Elem t attrs kids) k (PStr "") = PNone
  <-> attr_lookup k attrs = Some None \/ attr_lookup k attrs = Some (Some "").
Proof.
  cbn [attr_get]. destruct (attr_lookup k attrs) as [[[|c v]|]|]; cbn [attr_value].
  - split; [by right | done].
  - split; [done | by intros [|]].
  - split; [by left | done].
  - split; [done | by intros [|]].
Qed.

(** X8.  [_detect_section_type] raises exactly when the element carries a
    [class] or an [id] attribute whose value is missing or empty: the
    attribute is then [None], and [.split()] or [.lower()] is called on
    it.  An element without these attributes, or with non-empty values,
    gets a type. *)
Theorem detect_type_raises_iff (t : string) (attrs : list (string * option string))
    (kids : list node) (c : Content) :
  (exists e, _detect_section_type (Elem t attrs kids) c = Raise e)
  <-> (attr_lookup "class" attrs = Some None
       \/ attr_lookup "class" attrs = Some (Some ""))
      \/ (attr_lookup "id" attrs = Some None
          \/ attr_lookup "id" attrs = Some (Some "")).
Proof.
  rewrite <- !attr_get_none with (t := t) (kids := kids).
  unfold _detect_section_type, bind_, mbind, res_bind.
  destruct (attr_get (Elem t attrs kids) "class" (PStr "")) as [|cl].
  { split; [by left | by eauto]. }
  destruct (attr_get (Elem t attrs kids) "id" (PStr "")) as [|i].
  { split; [by right | by eauto]. }
  split; [by intros [e He] | by intros [|]].
Qed.

(** The four ways to write such an attribute, and two that are fine. *)
Example detect_type_on_attributes :
  let el attrs := Elem "div" attrs [] in
  let c := {| headings := []; text := ""; links := []; images := [];
              lists := []; tables := [] |} in
  _detect_section_type (el [("class", None)]) c = Raise (attribute_error "split")
  /\ _detect_section_type (el [("class", Some "")]) c = Raise (attribute_error "split")
  /\ _detect_section_type (el [("id", None)]) c = Raise (attribute_error "lower")
  /\ _detect_section_type (el [("id", Some "")]) c = Raise (attribute_error "lower")
  /\ _detect_section_type (el []) c = Ok "section"
  /\ _detect_section_type (el [("class", Some "Hero wide"); ("id", Some "top")]) c
     = Ok "hero".
Proof. by split_and!. Qed.

(** A valueless [class] on the only landmark: the extraction of sections
    fails as a whole, and the fetch pass records it.  The same with
    an empty [class]. *)
Example scrape_valueless_class :
  exists r,
    scrape (test_world false
              (ok (Elem "html" []
                     [Elem "body" []
                        [Elem "main" [("class", None)]
                           [Elem "h1" [] [Text "Title"]]]]))
              (ok tt) (ok page_two))
           example_url tt = (Ok r, tt)
    /\ sections r = []
    /\ map message (errors r)
       = ["'NoneType' object has no attribute 'split'";
          message playwright_notice].
Proof. eexists. split; [vm_compute; reflexivity |]. by vm_compute. Qed.

Example scrape_empty_class :
  exists r,
    scrape (test_world false
              (ok (Elem "html" []
                     [Elem "body" []
                        [Elem "main" [("class", Some "")]
                           [Elem "h1" [] [Text "Title"]]]]))
              (ok tt) (ok page_two))
           example_url tt = (Ok r, tt)
    /\ sections r = []
    /\ map message (errors r)
       = ["'NoneType' object has no attribute 'split'";
          message playwright_notice].
Proof. eexists. split; [vm_compute; reflexivity |]. by vm_compute. Qed.

(** ** Deduplication, continued *)

Lemma dedup_from_sublist (seen : gset string) (l : list Sect) :
  dedup_from seen l `sublist_of` l.
Proof.
  revert seen. induction l as [|s l IH]; intros seen; cbn [dedup_from].
  - constructor.
  - destruct (_ && negb _); [by apply sublist_skip |].
    destruct (negb _ && _); [by apply sublist_skip | by apply sublist_cons].
Qed.

Lemma dedup_sublist_of_input (l : list Sect) :
  _deduplicate_sections l `sublist_of` l.
Proof.
  rewrite dedup_unfold. destruct (length l <=? 1)%nat; [done |].
  apply dedup_from_sublist.
Qed.

(** X9.  Deduplication only removes sections: its output is a subsequence
    of its input, in the same order. *)
Theorem deduplicate_sublist (l : list Sect) :
  _deduplicate_sections l `sublist_of` l.
Proof. apply dedup_sublist_of_input. Qed.

Lemma dedup_from_fingerprints (seen : gset string) (l : list Sect) :
  NoDup (fingerprints (dedup_from seen l))
  /\ forall fp, fp ∈ fingerprints (dedup_from seen l) -> fp ∉ seen.
Proof.
  revert seen. induction l as [|s l IH]; intros seen; cbn [dedup_from].
  - split; [constructor | by intros fp Hfp; apply elem_of_nil in Hfp].
  - fold (sec_fp s). destruct (PyStr.truthy (sec_fp s)) eqn:Ht; cbn [andb negb].
    + case_bool_decide as Hin; cbn [negb].
      * apply IH.
      * destruct (IH ({[sec_fp s]} ∪ seen)) as [Hnd Hout].
        unfold fingerprints in *. cbn [map]. rewrite filter_cons, decide_True by done.
        split.
        -- constructor; [| done]. intros Hfp. apply Hout in Hfp. set_solver.
        -- intros fp Hfp. apply elem_of_cons in Hfp as [-> | Hfp]; [done |].
           apply Hout in Hfp. set_solver.
    + destruct (nonempty (headings (sec_content s))); [| apply IH].
      unfold fingerprints in *. cbn [map].
      rewrite filter_cons, decide_False by (by rewrite Ht). apply IH.
Qed.

(** X10.  After deduplication no two sections share a non-empty
    fingerprint. *)
Theorem deduplicate_fingerprints_distinct (l : list Sect) :
  NoDup (fingerprints (_deduplicate_sections l)).
Proof.
  rewrite dedup_unfold. destruct (length l <=? 1)%nat eqn:E.
  - destruct l as [|s [|s' l]]; [constructor | | done].
    unfold fingerprints. cbn [map]. rewrite filter_cons.
    case_decide; [| constructor]. apply NoDup_singleton.
  - apply dedup_from_fingerprints.
Qed.

(** ** The heading fallback *)

Lemma following_acc (nexts acc : list node) :
  length acc <= 15 ->
  exists taken rest,
    following nexts acc = acc ++ taken
    /\ nexts = taken ++ rest
    /\ length (acc ++ taken) <= 16
    /\ Forall (fun n => is_h123 n = false) taken
    /\ (rest = [] \/ length (acc ++ taken) = 16
        \/ exists h rest', rest = h :: rest' /\ is_h123 h = true).
Proof.
  revert acc. induction nexts as [|n nexts IH]; intros acc Hacc; cbn [following].
  - exists [], []. rewrite app_nil_r. split_and!; try done; [lia | by left].
  - destruct (is_h123 n) eqn:Hn.
    + exists [], (n :: nexts). rewrite app_nil_r. split_and!; try done; [lia |].
      right. right. by eauto.
    + destruct (15 <? length (acc ++ [n]))%nat eqn:E.
      * exists [n], nexts. rewrite length_app in *. cbn [length] in *.
        apply Nat.ltb_lt in E. split_and!; try done; [lia | by repeat constructor |].
        right. left. lia.
      * apply Nat.ltb_ge in E. destruct (IH (acc ++ [n]) E)
          as (taken & rest & Hf & Hn' & Hlen & Hall & Hmax).
        exists (n :: taken), rest. rewrite <- app_assoc in *. cbn [app] in *.
        split_and!; try done; [by rewrite Hn' | by constructor].
Qed.

(** X11.  The content collected after a heading is the longest run of
    following siblings that holds no [h1], [h2] or [h3] and has at most 16
    elements. *)
Theorem following_spec (nexts : list node) :
  exists rest,
    nexts = following nexts [] ++ rest
    /\ length (following nexts []) <= 16
    /\ Forall (fun n => is_h123 n = false) (following nexts [])
    /\ (rest = [] \/ length (following nexts []) = 16
        \/ exists h rest', rest = h :: rest' /\ is_h123 h = true).
Proof.
  destruct (following_acc nexts []) as (taken & rest & Hf & Hn & Hlen & Hall & Hmax);
    [cbn; lia |].
  cbn [app] in *. rewrite Hf. by exists rest.
Qed.

Lemma headings_loop_length (urljoin : string -> string -> res string) (u : string)
    (hs : list (node * list node)) (acc secs : list Sect) :
  headings_loop urljoin u hs acc = Ok secs -> length secs <= length acc + length hs.
Proof.
  revert acc. induction hs as [|[h nexts] hs IH]; intros acc; cbn [headings_loop].
  - intros [= <-]. lia.
  - unfold bind_, mbind, res_bind.
    destruct (_process_section _ _ _ _ _) as [s|]; [| done].
    intros Hr. apply IH in Hr. destruct (has_content s); [| cbn [length]; lia].
    rewrite length_app in Hr. cbn [length] in *. lia.
Qed.

(** X12.  The heading fallback returns at most 15 sections, however many
    headings the page has. *)
Theorem extract_by_headings_at_most_15 (urljoin : string -> string -> res string)
    (parser : node) (u : string) (secs : list Sect) :
  _extract_by_headings urljoin parser u = Ok secs -> length secs <= 15.
Proof.
  unfold _extract_by_headings. destruct (css_first_doc _ _) as [body|].
  - intros Hr. apply headings_loop_length in Hr.
    rewrite length_take in Hr. cbn [length] in Hr. lia.
  - intros [= <-]. cbn. lia.
Qed.

Lemma extract_by_headings_at_most_15_witness :
  _extract_by_headings plain_urljoin page_intro example_url = Ok intro_heading_sections
  /\ length intro_heading_sections <= 15.
Proof.
  assert (_extract_by_headings plain_urljoin page_intro example_url
          = Ok intro_heading_sections) as H by (vm_compute; reflexivity).
  split; [exact H |].
  exact (extract_by_headings_at_most_15 plain_urljoin page_intro example_url
           intro_heading_sections H).
Defined.

(** ** Section identifiers, continued *)

Lemma to_uint_nonnil (n : nat) : Nat.to_uint n <> Decimal.Nil.
Proof.
  rewrite <- (DecimalNat.Unsigned.of_to n) at 1.
  rewrite DecimalNat.Unsigned.to_of. apply DecimalFacts.unorm_nonnil.
Qed.

Lemma of_nat_inj (n m : nat) : PyStr.of_nat n = PyStr.of_nat m -> n = m.
Proof.
  unfold PyStr.of_nat. intros H.
  apply (f_equal NilZero.uint_of_string) in H.
  rewrite !NilZero.usu in H by apply to_uint_nonnil.
  injection H as H. by apply DecimalNat.Unsigned.to_uint_inj.
Qed.

Lemma section_id_inj (t1 t2 d1 d2 : string) :
  t1 ∈ section_types -> t2 ∈ section_types ->
  t1 +:+ "-" +:+ d1 = t2 +:+ "-" +:+ d2 -> t1 = t2 /\ d1 = d2.
Proof.
  unfold section_types. intros H1 H2 H.
  repeat (apply elem_of_cons in H1 as [-> | H1]); [.. | by apply elem_of_nil in H1];
    repeat (apply elem_of_cons in H2 as [-> | H2]);
    try (by apply elem_of_nil in H2);
    cbv [String.append] in H; split; congruence.
Qed.

Lemma sublist_map {A C} (f : A -> C) (l1 l2 : list A) :
  l1 `sublist_of` l2 -> map f l1 `sublist_of` map f l2.
Proof. induction 1; cbn [map]; by constructor. Qed.

Section LandmarkIds.

Variable urljoin : string -> string -> res string.

Lemma landmarks_loop_ids u lms idx acc secs :
  landmarks_loop urljoin u idx lms acc = Ok secs ->
  NoDup (map sec_id acc) ->
  Forall (fun s => sec_type s ∈ section_types
                   /\ exists i, i < idx
                        /\ sec_id s = sec_type s +:+ "-" +:+ PyStr.of_nat i) acc ->
  NoDup (map sec_id secs).
Proof.
  revert idx acc. induction lms as [|[lt el] lms IH]; intros idx acc;
    cbn [landmarks_loop].
  - by intros [= <-].
  - unfold bind_, mbind, res_bind.
    destruct (_process_section _ _ _ _ _) as [s|] eqn:Es; [| done].
    apply process_section_facts in Es as (_ & _ & Ht & Hi & _).
    intros Hr Hnd Hall. apply (IH _ _ Hr).
    + destruct (has_content s); [| done].
      rewrite map_app. cbn [map]. apply NoDup_app. split_and!; [done | | apply NoDup_singleton].
      intros x Hx Hx'. apply list_elem_of_singleton in Hx' as ->.
      apply list_elem_of_In, in_map_iff in Hx as (s' & Heq & Hs').
      rewrite Forall_forall in Hall. apply list_elem_of_In in Hs'.
      destruct (Hall s' Hs') as (Ht' & i & Hlt & Hi').
      rewrite Hi, Hi' in Heq. apply section_id_inj in Heq as [_ Heq]; [| done | done].
      apply of_nat_inj in Heq. lia.
    + assert (Forall (fun s0 => sec_type s0 ∈ section_types
                /\ exists i, i < Datatypes.S idx
                     /\ sec_id s0 = sec_type s0 +:+ "-" +:+ PyStr.of_nat i) acc) as Hall'.
      { eapply Forall_impl; [exact Hall |]. intros s' (Ht' & i & Hlt & Hi').
        split; [done |]. exists i. split; [lia | done]. }
      destruct (has_content s); [| done].
      apply Forall_app. split; [done |]. apply Forall_singleton.
      split; [done |]. exists idx. split; [lia | done].
Qed.

End LandmarkIds.

(** X13.  The sections made from landmarks have pairwise distinct ids; so,
    when there are at least three of them and the heading fallback does
    not run, the sections [_extract_sections] returns have pairwise
    distinct ids. *)
Theorem landmark_ids_distinct (urljoin : string -> string -> res string)
    (parser : node) (u : string) (secs : list Sect) :
  landmarks_loop urljoin u 0 (find_landmarks parser) [] = Ok secs ->
  NoDup (map sec_id secs)
  /\ (3 <= length secs ->
      exists out, _extract_sections urljoin parser u = Ok out
        /\ out `sublist_of` secs /\ NoDup (map sec_id out)).
Proof.
  intros Hl.
  assert (NoDup (map sec_id secs)) as Hnd.
  { eapply landmarks_loop_ids; [exact Hl | constructor | constructor]. }
  split; [exact Hnd |]. intros Hlen.
  exists (_deduplicate_sections secs). split_and!.
  - unfold _extract_sections, bind_, mbind, res_bind. rewrite Hl.
    by rewrite (proj2 (Nat.ltb_ge _ _) Hlen).
  - apply dedup_sublist_of_input.
  - eapply sublist_NoDup; [exact Hnd |]. apply sublist_map, dedup_sublist_of_input.
Qed.

Lemma landmark_ids_distinct_witness :
  (landmarks_loop plain_urljoin example_url 0 (find_landmarks page_three) []
   = Ok three_sections
   /\ 3 <= length three_sections)
  /\ NoDup (map sec_id three_sections)
  /\ exists out, _extract_sections plain_urljoin page_three example_url = Ok out
       /\ out `sublist_of` three_sections /\ NoDup (map sec_id out).
Proof.
  assert (landmarks_loop plain_urljoin example_url 0 (find_landmarks page_three) []
          = Ok three_sections) as H by (vm_compute; reflexivity).
  assert (3 <= length three_sections) as Hlen by (vm_compute; lia).
  split; [by split |].
  destruct (landmark_ids_distinct plain_urljoin page_three example_url
              three_sections H) as [Hnd Hout].
  split; [exact Hnd | exact (Hout Hlen)].
Defined.

(** * Further properties of the passes *)

Lemma static_fetch_failure (w : World) (u : string) (b b1 : B w) (e : exc) :
  fetch w u b = (Raise e, b1) ->
  exists err,
    _static_scrape w u b = (Ok (p_push_error err (pass_init "static" u)), b1)
    /\ phase err = "fetch"
    /\ match exc_cls e with
       | HTTPStatusError status_code reason_phrase =>
           message err = "HTTP " +:+ PyStr.of_nat status_code +:+ ": " +:+ reason_phrase
           /\ suggestion err
              = Some "Site may be blocking automated requests. Try JS rendering."
       | TimeoutException =>
           message err = "Request timed out after 30 seconds" /\ suggestion err = None
       | _ => message err = exc_str e /\ suggestion err = None
       end.
Proof.
  intros Hf.
  unfold _static_scrape, call, static_body, try_except, bind_, mbind, M_bind,
    io, zoom. cbn [world result locals]. rewrite Hf.
  destruct (exc_cls e); eexists; (split; [reflexivity |]); by split.
Qed.

(** X14.  When the GET fails, the fetch pass returns its initial result
    with one error of phase [fetch]: for an HTTP status error, the message
    [HTTP code: reason] and a suggestion to try rendering; for a timeout, a
    fixed message; for anything else, the text of the exception. *)
Theorem static_scrape_fetch_failure (w : World) (u : string) (b b1 : B w) (e : exc) :
  fetch w u b = (Raise e, b1) ->
  exists err,
    _static_scrape w u b = (Ok (p_push_error err (pass_init "static" u)), b1)
    /\ phase err = "fetch"
    /\ match exc_cls e with
       | HTTPStatusError status_code reason_phrase =>
           message err = "HTTP " +:+ PyStr.of_nat status_code +:+ ": " +:+ reason_phrase
           /\ suggestion err
              = Some "Site may be blocking automated requests. Try JS rendering."
       | TimeoutException =>
           message err = "Request timed out after 30 seconds" /\ suggestion err = None
       | _ => message err = exc_str e /\ suggestion err = None
       end.
Proof. apply static_fetch_failure. Qed.

Lemma static_scrape_fetch_failure_witness :
  fetch refused_world example_url tt
  = (Raise {| exc_cls := HTTPStatusError 403 "Forbidden"; exc_str := "403 Forbidden" |}, tt)
  /\ exists err,
       _static_scrape refused_world example_url tt
       = (Ok (p_push_error err (pass_init "static" example_url)), tt)
       /\ phase err = "fetch"
       /\ message err = "HTTP 403: Forbidden"
       /\ suggestion err
          = Some "Site may be blocking automated requests. Try JS rendering.".
Proof.
  split; [reflexivity |].
  exact (static_scrape_fetch_failure refused_world example_url tt tt
           {| exc_cls := HTTPStatusError 403 "Forbidden"; exc_str := "403 Forbidden" |}
           eq_refl).
Defined.

(** X15.  When the page was fetched and its metadata extracted, but the
    extraction of sections raises, the fetch pass keeps the metadata,
    returns no section and records one error of phase [fetch]. *)
Theorem static_scrape_sections_failure (w : World) (u : string) (b b1 : B w)
    (parser : node) (m : Meta) (e : exc) :
  fetch w u b = (Ok parser, b1) ->
  _extract_meta (urljoin w) parser u = Ok m ->
  _extract_sections (urljoin w) parser u = Raise e ->
  exists err,
    _static_scrape w u b
    = (Ok {| p_meta := <["strategy" := PStr "static"]> m;
             p_sections := [];
             p_interactions := no_interactions u;
             p_errors := [err] |}, b1)
    /\ phase err = "fetch".
Proof.
  intros Hf Hm Hs.
  unfold _static_scrape, call, static_body, try_except, bind_, mbind, M_bind,
    io, zoom, of_res, modify. cbn [world result locals]. rewrite Hf, Hm.
  cbn [world result locals on_result]. rewrite Hs.
  destruct (exc_cls e); eexists; (split; [reflexivity |]); done.
Qed.

Lemma static_scrape_sections_failure_witness :
  (fetch valueless_world example_url tt = (Ok page_valueless, tt)
   /\ _extract_meta (urljoin valueless_world) page_valueless example_url
      = Ok valueless_meta
   /\ _extract_sections (urljoin valueless_world) page_valueless example_url
      = Raise (attribute_error "split"))
  /\ exists err,
       _static_scrape valueless_world example_url tt
       = (Ok {| p_meta := <["strategy" := PStr "static"]> valueless_meta;
                p_sections := [];
                p_interactions := no_interactions example_url;
                p_errors := [err] |}, tt)
       /\ phase err = "fetch".
Proof.
  assert (fetch valueless_world example_url tt = (Ok page_valueless, tt)) as H1
    by reflexivity.
  assert (_extract_meta (urljoin valueless_world) page_valueless example_url
          = Ok valueless_meta) as H2 by (vm_compute; reflexivity).
  assert (_extract_sections (urljoin valueless_world) page_valueless example_url
          = Raise (attribute_error "split")) as H3 by (vm_compute; reflexivity).
  split; [by split_and! |].
  exact (static_scrape_sections_failure valueless_world example_url tt tt
           page_valueless valueless_meta (attribute_error "split") H1 H2 H3).
Defined.

(** X16.  When the browser session opens and closes but the navigation
    raises, the render pass returns its initial result with one error: of
    phase [render], with [Timeout: ] before the text, for a Playwright
    timeout, and of phase [js_scrape] for any other exception. *)
Theorem js_scrape_navigation_failure (w : World) (u : string) (b b5 b6 b8 : B w)
    (e : exc) :
  PLAYWRIGHT_AVAILABLE w = true ->
  session_opens w b b5 ->
  goto w u b5 = (Raise e, b6) ->
  session_closes w b6 b8 ->
  exists err,
    _js_scrape w u b = (Ok (p_push_error err (pass_init "js" u)), b8)
    /\ suggestion err = None
    /\ match exc_cls e with
       | PlaywrightTimeout =>
           message err = "Timeout: " +:+ exc_str e /\ phase err = "render"
       | _ => message err = exc_str e /\ phase err = "js_scrape"
       end.
Proof.
  intros Hpw (b1 & b2 & b3 & b4 & H1 & H2 & H3 & H4 & H5) Hg (b7 & H7 & H8).
  unfold _js_scrape, call, js_body. rewrite Hpw. cbn [negb].
  unfold try_except, finally, bind_, mbind, M_bind, io, zoom, render.
  cbn [world result locals set_world]. rewrite H1.
  cbn [world result locals set_world]. rewrite H2.
  cbn [world result locals set_world]. rewrite H3.
  cbn [world result locals set_world]. rewrite H4.
  cbn [world result locals set_world]. rewrite H5.
  unfold bind_, mbind, M_bind, io, zoom.
  cbn [world result locals set_world]. rewrite Hg.
  destruct (exc_cls e); cbn [modify on_result world result locals set_world];
    rewrite H7; cbn [world result locals set_world]; rewrite H8;
    eexists; (split; [reflexivity |]); by split.
Qed.

Lemma js_scrape_navigation_failure_witness :
  (PLAYWRIGHT_AVAILABLE timeout_world = true
   /\ session_opens timeout_world tt tt
   /\ goto timeout_world example_url tt
      = (Raise {| exc_cls := PlaywrightTimeout; exc_str := "Timeout 30000ms exceeded." |}, tt)
   /\ session_closes timeout_world tt tt)
  /\ exists err,
       _js_scrape timeout_world example_url tt
       = (Ok (p_push_error err (pass_init "js" example_url)), tt)
       /\ suggestion err = None
       /\ message err = "Timeout: Timeout 30000ms exceeded." /\ phase err = "render".
Proof.
  assert (session_opens timeout_world tt tt) as Ho
    by (exists tt, tt, tt, tt; by split_and!).
  assert (session_closes timeout_world tt tt) as Hc by (exists tt; by split).
  split; [by split_and! |].
  exact (js_scrape_navigation_failure timeout_world example_url tt tt tt tt
           {| exc_cls := PlaywrightTimeout; exc_str := "Timeout 30000ms exceeded." |}
           eq_refl Ho eq_refl Hc).
Defined.


Lemma finally_io_world {W R L A} (m : M (Frame W R L) A) (c : M W unit)
    (f : Frame W R L) :
  world (snd (finally m (io c) f)) = snd (c (world (snd (m f)))).
Proof.
  unfold finally, io, zoom. destruct (m f) as [o s']. cbn [snd].
  by destruct (c (world s')) as [[[]|e] t'].
Qed.

Lemma io_bind_ok {W R L A C} (m : M W A) (k : A -> M (Frame W R L) C)
    (f : Frame W R L) (a : A) (b' : W) :
  m (world f) = (Ok a, b') -> (x <- io m ;; k x) f = k a (set_world b' f).
Proof.
  intros Hm. unfold bind_, mbind, M_bind, io, zoom. by rewrite Hm.
Qed.

(** X17.  [browser.close()] is called only from the [finally] of the
    block that starts after [add_init_script].  With the browser
    launched: when [new_context], [new_page] and [add_init_script]
    return, the render pass does not return before it has called
    [browser.close()] and left [async_playwright], whatever happened in
    between; when [new_context] raises, the pass leaves [async_playwright]
    right away, without a call of [browser.close()], and returns the
    initial result with one error of phase [playwright]. *)
Theorem js_scrape_closes_browser (w : World) (u : string) (b b1 b2 : B w) :
  PLAYWRIGHT_AVAILABLE w = true ->
  playwright_start w b = (Ok tt, b1) ->
  launch w b1 = (Ok tt, b2) ->
  (forall b3 b4 b5,
      new_context w b2 = (Ok tt, b3) ->
      new_page w b3 = (Ok tt, b4) ->
      add_init_script w b4 = (Ok tt, b5) ->
      exists J b6,
        _js_scrape w u b
        = (Ok J, snd (playwright_stop w (snd (browser_close w b6)))))
  /\ (forall e b3 b4,
        new_context w b2 = (Raise e, b3) ->
        playwright_stop w b3 = (Ok tt, b4) ->
        _js_scrape w u b
        = (Ok (p_push_error (mk_error (exc_str e) "playwright") (pass_init "js" u)),
           b4)).
Proof.
  intros Hpw H1 H2. split.
  - intros b3 b4 b5 H3 H4 H5.
    destruct (js_scrape_spec w u b) as (J & b' & HJ & _).
    exists J. eexists. rewrite HJ. f_equal.
    assert (b' = snd (_js_scrape w u b)) as -> by (by rewrite HJ).
    unfold _js_scrape, call, js_body. rewrite Hpw. cbn [negb].
    match goal with
    | |- snd (let (r, f) := ?c in _) = _ =>
        transitivity (world (snd c)); [by destruct c as [[[]|e] f] |]
    end.
    unfold try_except at 1.
    match goal with
    | |- world (snd (let (r, s') := ?c in _)) = _ =>
        transitivity (world (snd c)); [by destruct c as [[[]|e] f] |]
    end.
    rewrite (io_bind_ok _ _ _ tt b1) by exact H1.
    rewrite finally_io_world. f_equal. f_equal.
    rewrite (io_bind_ok _ _ _ tt b2) by exact H2.
    rewrite (io_bind_ok _ _ _ tt b3) by exact H3.
    rewrite (io_bind_ok _ _ _ tt b4) by exact H4.
    rewrite (io_bind_ok _ _ _ tt b5) by exact H5.
    rewrite finally_io_world. reflexivity.
  - intros e b3 b4 H3 H4.
    unfold _js_scrape, call, js_body. rewrite Hpw. cbn [negb].
    unfold try_except.
    rewrite (io_bind_ok _ _ _ tt b1) by exact H1.
    unfold finally at 1.
    rewrite (io_bind_ok _ _ _ tt b2) by exact H2.
    unfold bind_ at 1, mbind at 1, M_bind at 1, io at 1, zoom at 1.
    cbn [world set_world]. rewrite H3.
    unfold io, zoom. cbn [world set_world]. rewrite H4. reflexivity.
Qed.

(** In a world that logs its calls, with a navigation that fails: the
    session is closed, and the log says so. *)
Lemma js_scrape_closes_browser_witness :
  (PLAYWRIGHT_AVAILABLE (logging_world false) = true
   /\ playwright_start (logging_world false) [] = (Ok tt, ["async_playwright"])
   /\ launch (logging_world false) ["async_playwright"]
      = (Ok tt, ["async_playwright"; "launch"]))
  /\ exists J,
       _js_scrape (logging_world false) example_url []
       = (Ok J, ["async_playwright"; "launch"; "new_context"; "new_page";
                 "add_init_script"; "goto"; "close"; "leave async_playwright"])
       /\ map phase (p_errors J) = ["js_scrape"].
Proof.
  split; [by split_and! |].
  destruct (js_scrape_closes_browser (logging_world false) example_url []
              ["async_playwright"] ["async_playwright"; "launch"]
              eq_refl eq_refl eq_refl) as [Hclose _].
  destruct (Hclose ["async_playwright"; "launch"; "new_context"]
              ["async_playwright"; "launch"; "new_context"; "new_page"]
              ["async_playwright"; "launch"; "new_context"; "new_page";
               "add_init_script"] eq_refl eq_refl eq_refl) as (J & b6 & HJ).
  exists J. split.
  - rewrite HJ. f_equal.
    assert (snd (_js_scrape (logging_world false) example_url [])
            = snd (playwright_stop (logging_world false)
                     (snd (browser_close (logging_world false) b6)))) as Hs
      by (by rewrite HJ).
    rewrite <- Hs. vm_compute. reflexivity.
  - assert (fst (_js_scrape (logging_world false) example_url []) = Ok J) as Hf
      by (by rewrite HJ).
    vm_compute in Hf. injection Hf as <-. reflexivity.
Defined.

(** The other side, in the logging world where [new_context] fails: the
    log has the launch and no [close]. *)
Example js_scrape_leaves_browser_open :
  _js_scrape (logging_world true) example_url []
  = (Ok (p_push_error (mk_error "Target closed" "playwright")
           (pass_init "js" example_url)),
     ["async_playwright"; "launch"; "new_context"; "leave async_playwright"]).
Proof. vm_compute. reflexivity. Qed.

(** * Further properties of the orchestrator *)

(** X18.  [_should_force_js] holds exactly when the host contains one of
    the listed domains somewhere: as a whole, as the end of a subdomain, or
    inside an unrelated name. *)
Theorem should_force_js_iff (domain : string) :
  _should_force_js domain = true
  <-> exists d, d ∈ js_heavy_domains /\ occurs_in d domain.
Proof.
  unfold _should_force_js, PyStr.any_in, occurs_in. rewrite existsb_exists. split.
  - intros [d [Hd Hc]]. exists d. split; [by apply list_elem_of_In |].
    by apply PyStrFacts.contains_occurs.
  - intros [d [Hd Hc]]. exists d. split; [by apply list_elem_of_In |].
    by apply PyStrFacts.contains_occurs.
Qed.

(** The match is on substrings: a host that merely ends in [x.com] is
    rendered. *)
Example force_js_by_substring :
  _should_force_js "www.dropbox.com" = true /\ _should_force_js "example.com" = false.
Proof. by vm_compute. Qed.

(** X19.  For a host on the forced list, with a browser, [scrape] returns
    what the render pass returns, under the requested URL, with strategy
    [js]; the world it leaves is the one the render pass leaves when
    started at once: the fetch pass did not run. *)
Theorem scrape_forced_js (w : World) (u netloc : string) (b b1 : B w) (J : PassResult) :
  urlparse_netloc w u = Ok netloc ->
  _should_force_js (PyStr.lower netloc) = true ->
  PLAYWRIGHT_AVAILABLE w = true ->
  _js_scrape w u b = (Ok J, b1) ->
  scrape w u b
  = (Ok {| url := u; scrapedAt := utcnow w b; meta := p_meta J;
           sections := p_sections J; interactions := p_interactions J;
           errors := p_errors J |}, b1)
  /\ p_meta J !! "strategy" = Some (PStr "js").
Proof.
  intros Hn Hf Hpw HJ. split.
  - rewrite scrape_unfold. cbv zeta. by rewrite Hn, Hf, Hpw, HJ.
  - destruct (js_scrape_spec w u b) as (J' & b' & HJ' & _ & _ & Hm).
    rewrite HJ in HJ'. injection HJ' as <- <-.
    by destruct Hm as [-> | (t & d & l & c & ->)].
Qed.

Lemma scrape_forced_js_witness :
  (urlparse_netloc wikipedia_world example_url = Ok "EN.Wikipedia.org"
   /\ _should_force_js (PyStr.lower "EN.Wikipedia.org") = true
   /\ PLAYWRIGHT_AVAILABLE wikipedia_world = true
   /\ _js_scrape wikipedia_world example_url tt = (Ok wikipedia_rendered, tt))
  /\ scrape wikipedia_world example_url tt
     = (Ok {| url := example_url; scrapedAt := utcnow wikipedia_world tt;
              meta := p_meta wikipedia_rendered;
              sections := p_sections wikipedia_rendered;
              interactions := p_interactions wikipedia_rendered;
              errors := p_errors wikipedia_rendered |}, tt)
  /\ p_meta wikipedia_rendered !! "strategy" = Some (PStr "js").
Proof.
  assert (_js_scrape wikipedia_world example_url tt = (Ok wikipedia_rendered, tt)) as HJ
    by (vm_compute; reflexivity).
  assert (_should_force_js (PyStr.lower "EN.Wikipedia.org") = true) as Hf
    by (vm_compute; reflexivity).
  split; [by split_and! |].
  exact (scrape_forced_js wikipedia_world example_url "EN.Wikipedia.org" tt tt
           wikipedia_rendered eq_refl Hf eq_refl HJ).
Defined.

Lemma http_status_blocked (status_code : nat) (reason_phrase : string) (err : ScrapeError) :
  status_code = 403 \/ status_code = 429 ->
  message err = "HTTP " +:+ PyStr.of_nat status_code +:+ ": " +:+ reason_phrase ->
  is_blocked [err] = true.
Proof.
  intros Hc Hm. apply is_blocked_iff.
  exists err, (PyStr.of_nat status_code). split_and!.
  - by apply list_elem_of_singleton.
  - unfold blocked_errors. destruct Hc as [-> | ->]; set_solver.
  - exists "HTTP ", (": " +:+ reason_phrase). by rewrite Hm.
Qed.

(** X20.  When the GET is answered with HTTP 403 or 429 and the host is
    not rendered at once, [scrape] returns the result of the fetch pass as
    it is: no section, the [fetch] error alone, strategy [static]; the
    render pass does not run, with or without a browser. *)
Theorem scrape_blocked_no_render (w : World) (u netloc : string) (b b1 : B w)
    (e : exc) (status_code : nat) (reason_phrase : string) :
  urlparse_netloc w u = Ok netloc ->
  _should_force_js (PyStr.lower netloc) && PLAYWRIGHT_AVAILABLE w = false ->
  fetch w u b = (Raise e, b1) ->
  exc_cls e = HTTPStatusError status_code reason_phrase ->
  status_code = 403 \/ status_code = 429 ->
  scrape w u b
  = (Ok {| url := u; scrapedAt := utcnow w b;
           meta := {[ "strategy" := PStr "static" ]};
           sections := [];
           interactions := no_interactions u;
           errors := [{| message := "HTTP " +:+ PyStr.of_nat status_code +:+ ": "
                                    +:+ reason_phrase;
                         phase := "fetch";
                         suggestion :=
                           Some "Site may be blocking automated requests. Try JS rendering." |}]
        |}, b1).
Proof.
  intros Hn Hf Hfetch Hcls Hcode.
  destruct (static_fetch_failure w u b b1 e Hfetch) as (err & HS & Hph & Hmsg).
  rewrite Hcls in Hmsg. destruct Hmsg as [Hmsg Hsug].
  rewrite scrape_unfold. cbv zeta. rewrite Hn, Hf, HS.
  assert (_needs_js_rendering
            (update (p_push_error err (pass_init "static" u)) (result0 u (utcnow w b)))
          = false) as ->.
  { unfold _needs_js_rendering. cbn [errors update p_errors p_push_error pass_init app].
    by rewrite (http_status_blocked status_code reason_phrase err Hcode Hmsg). }
  cbn [andb]. destruct err as [m p sg]. cbn in Hph, Hmsg, Hsug. subst. reflexivity.
Qed.

Lemma scrape_blocked_no_render_witness :
  (urlparse_netloc refused_world example_url = Ok "example.com"
   /\ _should_force_js (PyStr.lower "example.com")
      && PLAYWRIGHT_AVAILABLE refused_world = false
   /\ fetch refused_world example_url tt
      = (Raise {| exc_cls := HTTPStatusError 403 "Forbidden";
                  exc_str := "403 Forbidden" |}, tt))
  /\ scrape refused_world example_url tt
     = (Ok {| url := example_url; scrapedAt := utcnow refused_world tt;
              meta := {[ "strategy" := PStr "static" ]};
              sections := [];
              interactions := no_interactions example_url;
              errors := [{| message := "HTTP " +:+ PyStr.of_nat 403 +:+ ": " +:+ "Forbidden";
                            phase := "fetch";
                            suggestion :=
                              Some "Site may be blocking automated requests. Try JS rendering." |}]
           |}, tt).
Proof.
  assert (_should_force_js (PyStr.lower "example.com")
          && PLAYWRIGHT_AVAILABLE refused_world = false) as Hf
    by (vm_compute; reflexivity).
  split; [by split_and! |].
  exact (scrape_blocked_no_render refused_world example_url "example.com" tt tt
           {| exc_cls := HTTPStatusError 403 "Forbidden"; exc_str := "403 Forbidden" |}
           403 "Forbidden" eq_refl Hf eq_refl eq_refl (or_introl eq_refl)).
Defined.

(** X21.  Without a browser, [scrape] returns the metadata, the sections
    and the interactions of the fetch pass, and its errors followed by the
    [playwright_check] notice exactly when the heuristic asks for
    rendering; the world it leaves is the one the fetch pass leaves. *)
Theorem scrape_without_browser (w : World) (u netloc : string) (b b1 : B w)
    (S0 : PassResult) :
  PLAYWRIGHT_AVAILABLE w = false ->
  urlparse_netloc w u = Ok netloc ->
  _static_scrape w u b = (Ok S0, b1) ->
  scrape w u b
  = (Ok {| url := u; scrapedAt := utcnow w b; meta := p_meta S0;
           sections := p_sections S0; interactions := p_interactions S0;
           errors := p_errors S0
                     ++ (if _needs_js_rendering (update S0 (result0 u (utcnow w b)))
                         then [playwright_notice] else []) |}, b1).
Proof.
  intros Hpw Hn HS. rewrite scrape_unfold. cbv zeta.
  rewrite Hn, Hpw, HS, !andb_false_r. cbn [negb]. rewrite andb_true_r.
  destruct (_needs_js_rendering _); [reflexivity |].
  unfold update. by rewrite app_nil_r.
Qed.

Lemma scrape_without_browser_witness :
  (PLAYWRIGHT_AVAILABLE intro_world = false
   /\ urlparse_netloc intro_world example_url = Ok "example.com"
   /\ _static_scrape intro_world example_url tt
      = (Ok (pass_result (_static_scrape intro_world example_url tt)), tt))
  /\ scrape intro_world example_url tt
     = (Ok {| url := example_url; scrapedAt := utcnow intro_world tt;
              meta := p_meta (pass_result (_static_scrape intro_world example_url tt));
              sections := p_sections (pass_result (_static_scrape intro_world example_url tt));
              interactions :=
                p_interactions (pass_result (_static_scrape intro_world example_url tt));
              errors :=
                p_errors (pass_result (_static_scrape intro_world example_url tt))
                ++ (if _needs_js_rendering
                         (update (pass_result (_static_scrape intro_world example_url tt))
                                 (result0 example_url (utcnow intro_world tt)))
                    then [playwright_notice] else []) |}, tt).
Proof.
  assert (_static_scrape intro_world example_url tt
          = (Ok (pass_result (_static_scrape intro_world example_url tt)), tt)) as HS
    by (vm_compute; reflexivity).
  split; [by split_and! |].
  exact (scrape_without_browser intro_world example_url "example.com" tt tt
           (pass_result (_static_scrape intro_world example_url tt))
           eq_refl eq_refl HS).
Defined.

Lemma meta_shape_restrategy (m : Meta) :
  meta_shape "static" m -> meta_shape "js" (<["strategy" := PStr "js"]> m).
Proof.
  intros [-> | (t & d & l & c & ->)]; [by left |].
  right. exists t, d, l, c. by vm_compute.
Qed.

(** X22.  The [meta] of every result of [scrape] holds either the key
    [strategy] alone or all five keys, and its strategy is [static] or
    [js]. *)
Theorem scrape_meta_shape (w : World) (u : string) (b : B w) :
  exists r b', scrape w u b = (Ok r, b')
    /\ exists s, s ∈ strategies /\ meta_shape s (meta r).
Proof.
  rewrite scrape_unfold. cbv zeta. unfold strategies.
  destruct (urlparse_netloc w u) as [netloc|e].
  2:{ eexists _, _. split; [done |]. exists "static". split; [set_solver |].
      right. by exists (PStr ""), (PStr ""), (PStr "en"), PNone. }
  destruct (_should_force_js (PyStr.lower netloc) && PLAYWRIGHT_AVAILABLE w).
  { destruct (js_scrape_spec w u b) as (J & b1 & -> & _ & _ & Hm).
    eexists _, _. split; [done |]. exists "js". split; [set_solver | done]. }
  destruct (static_scrape_spec w u b) as (S0 & b1 & -> & _ & _ & HmS).
  destruct (_needs_js_rendering _ && PLAYWRIGHT_AVAILABLE w).
  { destruct (js_scrape_spec w u b1) as (J & b2 & -> & _ & _ & HmJ).
    eexists _, _. split; [done |]. exists "js". split; [set_solver |].
    rewrite merge_meta_eq. cbn [meta push_error set_errors set_strategy set_meta update].
    destruct (has_title (p_meta J)) eqn:Ht.
    - by rewrite meta_overwritten.
    - by apply meta_shape_restrategy. }
  destruct (_needs_js_rendering _ && negb (PLAYWRIGHT_AVAILABLE w));
    eexists _, _; (split; [done |]); exists "static"; (split; [set_solver | done]).
Qed.

(** * Bounds on the interactions *)

Lemma triple_bind_keeps {S A C} (P E : S -> Prop) (m : M S A) (k : A -> M S C)
    (Q : C -> S -> Prop) :
  keeps P m -> (forall s, P s -> E s) -> (forall a, triple P (k a) Q E) ->
  triple P (x <- m ;; k x) Q E.
Proof.
  intros Hm HE Hk. eapply triple_bind; [| exact Hk].
  eapply triple_weaken; [exact Hm | done | done | exact HE].
Qed.

Lemma triple_keeps {S A} (P Q : S -> Prop) (E : S -> Prop) (m : M S A) :
  keeps P m -> (forall s, P s -> Q s) -> (forall s, P s -> E s) ->
  triple P m (fun _ => Q) E.
Proof.
  intros Hm HQ HE. eapply triple_weaken; [exact Hm | done | | done].
  intros ? s Hs. by apply HQ.
Qed.

Lemma triple_attempt {S} (P Q E : S -> Prop) (m : M S unit) :
  triple P m (fun _ => Q) Q -> triple P (attempt m) (fun _ => Q) E.
Proof.
  intros Hm. unfold attempt. eapply triple_try; [exact Hm |].
  intros _ s Hs. exact Hs.
Qed.

Section Counting.

Context {S : Type} (Q : nat -> S -> Prop).
Hypothesis Q_mono : forall n m s, n <= m -> Q n s -> Q m s.

(** A loop whose body adds at most [k] adds at most [k] for each element,
    whether or not it raises on the way. *)
Lemma for_each_count {A} (k : nat) (l : list A) (body : A -> M S unit) (n : nat) :
  (forall x m, triple (Q m) (body x) (fun _ => Q (m + k)) (Q (m + k))) ->
  triple (Q n) (for_each l body) (fun _ => Q (n + k * length l)) (Q (n + k * length l)).
Proof.
  intros Hb. revert n. induction l as [|x l IH]; intros n; cbn [for_each length].
  - intros s Hs. eapply Q_mono; [| exact Hs]. lia.
  - eapply triple_bind with (R := fun _ => Q (n + k)).
    + eapply triple_weaken; [apply (Hb x n) | done | by intros ? s Hs; exact Hs |].
      intros s Hs. eapply Q_mono; [| exact Hs]. lia.
    + intros ?. eapply triple_weaken; [apply (IH (n + k)) | done | |].
      * intros ? s Hs. eapply Q_mono; [| exact Hs]. lia.
      * intros s Hs. eapply Q_mono; [| exact Hs]. lia.
Qed.

End Counting.

Section InterScripts.

Context (w : World).

Abbreviation Cn := (ClicksInv w).
Abbreviation Sn := (ScrollsInv w).
Abbreviation Vn := (PagesInv w).

Lemma Cn_mono n m f : n <= m -> Cn n f -> Cn m f.
Proof. intros Hle [HB Hl]. split; [done | lia]. Qed.

Lemma Sn_mono n m f : n <= m -> Sn n f -> Sn m f.
Proof. intros Hle [HB Hl]. split; [done | lia]. Qed.

Lemma Vn_mono n m f : n <= m -> Vn n f -> Vn m f.
Proof. intros Hle (HB & Hnd & Hl). split_and!; [done | done | lia]. Qed.

(** A step that runs an operation of the world, under a counting
    invariant. *)
Ltac io_step mono :=
  apply triple_bind_keeps;
  [ apply keeps_io_frame; by intros ? [] ?
  | intros ? ?; eapply mono; [| eassumption]; lia
  | intros ? ].

(** *** Clicks *)

Lemma push_click_count c n E :
  triple (Cn n) (push_click w c) (fun _ => Cn (n + 1)) E.
Proof.
  apply triple_modify. intros [b r l] [HB Hl]. split; [exact HB |].
  cbn in *. rewrite length_app. cbn. lia.
Qed.

Lemma click_tab_count sel it n E :
  triple (Cn n) (click_tab w sel it) (fun _ => Cn (n + 1)) E.
Proof.
  destruct it as [i tab]. unfold click_tab. apply triple_attempt.
  io_step Cn_mono. io_step Cn_mono. io_step Cn_mono.
  eapply triple_bind with (R := fun _ => Cn (n + 1)); [apply push_click_count |].
  intros ?. apply triple_keeps; [| done | done].
  apply keeps_io_frame. by intros ? [] ?.
Qed.

Lemma click_tabs_count sel (l : list (nat * H w)) n E :
  triple (Cn n) (for_each l (click_tab w sel)) (fun _ => Cn (n + length l)) E.
Proof.
  revert n. induction l as [|it l IH]; intros n; cbn [for_each length].
  - intros f Hf. eapply Cn_mono; [| exact Hf]. lia.
  - eapply triple_bind with (R := fun _ => Cn (n + 1)); [apply click_tab_count |].
    intros ?. eapply triple_weaken; [apply (IH (n + 1)) | done | | done].
    intros ? f Hf. eapply Cn_mono; [| exact Hf]. lia.
Qed.

Lemma enumerate_take_length {A} (l : list A) : length (enumerate (take 3 l)) <= 3.
Proof.
  unfold enumerate. rewrite length_combine, length_seq, length_take. lia.
Qed.

Lemma tabs_loop_count sels n :
  triple (Cn n) (tabs_loop w sels) (fun _ => Cn (n + 3)) (Cn (n + 3)).
Proof.
  induction sels as [|sel sels IH]; cbn [tabs_loop].
  - intros f Hf. eapply Cn_mono; [| exact Hf]. lia.
  - eapply triple_bind
      with (R := fun (found : bool) f => if found then Cn (n + 3) f else Cn n f).
    + eapply triple_try with (E' := Cn n).
      * io_step Cn_mono.
        eapply triple_bind with (R := fun _ => Cn (n + length (enumerate (take 3 a)))).
        -- apply click_tabs_count.
        -- intros _ f Hf. cbn. destruct a as [|t a'].
           ++ cbn in Hf. eapply Cn_mono; [| exact Hf]. lia.
           ++ cbn [nonempty]. eapply Cn_mono; [| exact Hf].
              pose proof (enumerate_take_length (t :: a')). lia.
      * intros _ f Hf. exact Hf.
    + intros [|]; [by intros f Hf |]. exact IH.
Qed.

Lemma load_more_loop_count sel is_ n :
  triple (Cn n) (load_more_loop w sel is_) (fun _ => Cn (n + length is_))
         (Cn (n + length is_)).
Proof.
  revert n. induction is_ as [|i is_ IH]; intros n; cbn [load_more_loop length].
  - intros f Hf. eapply Cn_mono; [| exact Hf]. lia.
  - io_step Cn_mono. destruct a as [button|].
    2:{ intros f Hf. eapply Cn_mono; [| exact Hf]. lia. }
    io_step Cn_mono. destruct a.
    2:{ intros f Hf. eapply Cn_mono; [| exact Hf]. lia. }
    io_step Cn_mono. io_step Cn_mono. io_step Cn_mono.
    eapply triple_bind with (R := fun _ => Cn (n + 1)).
    { eapply triple_weaken; [apply push_click_count | done | done |].
      intros f Hf. exact Hf. }
    intros ?. apply triple_bind_keeps.
    + apply keeps_io_frame. by intros ? [] ?.
    + intros f Hf. eapply Cn_mono; [| exact Hf]. lia.
    + intros ?. eapply triple_weaken; [apply (IH (n + 1)) | done | |].
      * intros ? f Hf. eapply Cn_mono; [| exact Hf]. lia.
      * intros f Hf. eapply Cn_mono; [| exact Hf]. lia.
Qed.

Lemma perform_clicks_bounds : keeps (InterInv w) (_perform_clicks w).
Proof.
  unfold _perform_clicks.
  eapply triple_bind with (R := fun _ => Cn 0).
  { apply triple_modify. intros [b r l] HB. split; [exact HB | cbn; lia]. }
  intros ?. eapply triple_bind with (R := fun _ => Cn 3).
  { eapply triple_weaken; [apply (tabs_loop_count tab_selectors 0) | done | done |].
    by intros f [HB _]. }
  intros ?. eapply triple_bind with (R := fun _ => Cn 24).
  { eapply triple_weaken;
      [apply (for_each_count Cn Cn_mono 3 load_more_selectors _ 3) | done | | ].
    - intros x m. apply triple_attempt.
      eapply triple_weaken; [apply (load_more_loop_count x (seq 0 3) m) | done | |];
        by intros.
    - by intros ? f Hf.
    - by intros f [HB _]. }
  intros ?. apply triple_modify. intros [b r l] [(Hc & Hs & Hp & Hnd) Hl].
  split_and!; done.
Qed.

(** *** Scrolls *)

Lemma scroll_round_count n :
  triple (Sn n) (scroll_round w) (fun _ => Sn (n + 1)) (Sn (n + 1)).
Proof.
  unfold scroll_round.
  io_step Sn_mono. io_step Sn_mono. io_step Sn_mono. io_step Sn_mono.
  apply triple_bind_keeps.
  { apply keeps_for_each. intros step. apply keeps_bind; [| intros ?];
      apply keeps_io_frame; by intros ? [] ?. }
  { intros f Hf. eapply Sn_mono; [| exact Hf]. lia. }
  intros ?. io_step Sn_mono. io_step Sn_mono.
  eapply triple_bind with (R := fun _ => Sn (n + 1)).
  { apply triple_modify. intros [b r l] [HB Hl]. split; [exact HB |]. cbn in *. lia. }
  intros ? f Hf. exact Hf.
Qed.

Lemma scroll_rounds_count rounds n :
  triple (Sn n) (scroll_rounds w rounds) (fun _ => Sn (n + length rounds))
         (Sn (n + length rounds)).
Proof.
  revert n. induction rounds as [|i rounds IH]; intros n; cbn [scroll_rounds length].
  - intros f Hf. eapply Sn_mono; [| exact Hf]. lia.
  - eapply triple_bind with (R := fun _ => Sn (n + 1)).
    { eapply triple_weaken; [apply scroll_round_count | done | done |].
      intros f Hf. eapply Sn_mono; [| exact Hf]. lia. }
    intros [|].
    + eapply triple_weaken; [apply (IH (n + 1)) | done | |].
      * intros ? f Hf. eapply Sn_mono; [| exact Hf]. lia.
      * intros f Hf. eapply Sn_mono; [| exact Hf]. lia.
    + intros f Hf. eapply Sn_mono; [| exact Hf]. lia.
Qed.

Lemma perform_scrolls_bounds : keeps (InterInv w) (_perform_scrolls w).
Proof.
  unfold _perform_scrolls.
  eapply triple_bind with (R := fun _ => Sn 0).
  { apply triple_modify. intros [b r l] HB. split; [exact HB | cbn; lia]. }
  intros ?. eapply triple_bind with (R := fun _ => Sn 3).
  { eapply triple_try with (E' := Sn 3).
    - apply (scroll_rounds_count (seq 0 max_scrolls) 0).
    - intros e. apply triple_modify. by intros [b r l] H. }
  intros ?. apply triple_modify. intros [b r l] [(Hc & Hs & Hp & Hnd) Hl].
  split_and!; done.
Qed.

(** *** Pages *)

Lemma find_next_pages sels n : keeps (Vn n) (find_next w sels).
Proof.
  induction sels as [|sel sels IH]; cbn [find_next]; keeps_auto;
    apply keeps_modify; by intros [b r l] H.
Qed.

Lemma visit_count next_url n E :
  triple (Vn n) (visit w next_url) (fun _ => Vn (n + 1)) E.
Proof.
  apply triple_modify. intros [b r l] (HB & Hnd & Hl). split; [exact HB |].
  cbn in *. case_bool_decide as Hin; [split; [done | lia] |].
  cbn. split.
  - apply NoDup_app. split_and!; [done | | apply NoDup_singleton].
    intros x Hx Hx'. apply list_elem_of_singleton in Hx' as ->. done.
  - rewrite length_app. cbn. lia.
Qed.

Lemma pagination_loop_count nums n :
  triple (Vn n) (pagination_loop w nums) (fun _ => Vn (n + length nums))
         (Vn (n + length nums)).
Proof.
  revert n. induction nums as [|i nums IH]; intros n; cbn [pagination_loop length].
  - intros f Hf. eapply Vn_mono; [| exact Hf]. lia.
  - apply triple_bind_keeps.
    { apply keeps_modify. by intros [b r l] H. }
    { intros f Hf. eapply Vn_mono; [| exact Hf]. lia. }
    intros ?. apply triple_bind_keeps.
    { apply find_next_pages. }
    { intros f Hf. eapply Vn_mono; [| exact Hf]. lia. }
    intros ?. apply triple_bind_keeps.
    { apply keeps_gets. }
    { intros f Hf. eapply Vn_mono; [| exact Hf]. lia. }
    intros [link|].
    2:{ intros f Hf. eapply Vn_mono; [| exact Hf]. lia. }
    io_step Vn_mono.
    eapply triple_bind with (R := fun _ => Vn (n + 1)).
    { match goal with href : option string |- _ => destruct href as [h|] end.
      2:{ intros f Hf. eapply Vn_mono; [| exact Hf]. lia. }
      destruct (PyStr.truthy h).
      2:{ intros f Hf. eapply Vn_mono; [| exact Hf]. lia. }
      io_step Vn_mono. apply triple_bind_keeps.
      { apply keeps_of_res. }
      { intros f Hf. eapply Vn_mono; [| exact Hf]. lia. }
      intros next_url. eapply triple_weaken; [apply visit_count | done | done |].
      intros f Hf. exact Hf. }
    intros ?. apply triple_bind_keeps.
    { keeps_auto. }
    { intros f Hf. eapply Vn_mono; [| exact Hf]. lia. }
    intros [|].
    + eapply triple_weaken; [apply (IH (n + 1)) | done | |].
      * intros ? f Hf. eapply Vn_mono; [| exact Hf]. lia.
      * intros f Hf. eapply Vn_mono; [| exact Hf]. lia.
    + intros f Hf. eapply Vn_mono; [| exact Hf]. lia.
Qed.

Lemma follow_pagination_bounds u : keeps (InterInv w) (_follow_pagination w u).
Proof.
  unfold _follow_pagination.
  eapply triple_bind with (R := fun _ => Vn 1).
  { apply triple_modify. intros [b r l] HB. split; [exact HB |]. cbn.
    split; [apply NoDup_singleton | lia]. }
  intros ?. eapply triple_bind with (R := fun _ => Vn 3).
  { eapply triple_try with (E' := Vn 3).
    - apply (pagination_loop_count (seq 0 (max_pages - 1)) 1).
    - intros e. apply triple_modify. by intros [b r l] H. }
  intros ?. apply triple_modify. intros [b r l] [(Hc & Hs & Hp & Hnd) (Hnd' & Hl)].
  split_and!; done.
Qed.

(** *** The passes *)

Lemma js_body_bounds u : keeps (InterInv w) (js_body w u).
Proof.
  pose proof perform_clicks_bounds. pose proof perform_scrolls_bounds.
  pose proof (follow_pagination_bounds u).
  unfold js_body. destruct (negb (PLAYWRIGHT_AVAILABLE w)).
  { apply keeps_modify. by intros [b r l] H. }
  unfold render, _remove_noise.
  keeps_auto; apply keeps_modify; by intros [b r l] H.
Qed.

Lemma InterOK_init u : InterOK (no_interactions u).
Proof. split_and!; cbn; try lia. apply NoDup_singleton. Qed.

Lemma js_scrape_bounds u b J b' :
  _js_scrape w u b = (Ok J, b') -> InterOK (p_interactions J).
Proof.
  intros HJ.
  eapply (call_keeps w (fun r => InterOK (p_interactions r)));
    [apply js_body_bounds | | exact HJ].
  apply InterOK_init.
Qed.

Lemma static_body_interactions u :
  keeps (fun f : Frame (B w) PassResult unit =>
           p_interactions (result f) = no_interactions u) (static_body w u).
Proof.
  unfold static_body. keeps_auto; apply keeps_modify; by intros [b r []] H.
Qed.

Lemma static_scrape_interactions u b S0 b' :
  _static_scrape w u b = (Ok S0, b') -> p_interactions S0 = no_interactions u.
Proof.
  intros HS.
  eapply (call_keeps w (fun r => p_interactions r = no_interactions u));
    [apply static_body_interactions | | exact HS].
  reflexivity.
Qed.

(** The interactions of every result of [scrape] are within the bounds. *)
Lemma scrape_interactions_ok u b :
  exists r b', scrape w u b = (Ok r, b') /\ InterOK (interactions r).
Proof.
  rewrite scrape_unfold. cbv zeta.
  destruct (urlparse_netloc w u) as [netloc|e].
  2:{ eexists _, _. split; [done |]. apply InterOK_init. }
  destruct (_should_force_js (PyStr.lower netloc) && PLAYWRIGHT_AVAILABLE w).
  { destruct (js_scrape_spec w u b) as (J & b1 & HJ & _). rewrite HJ.
    eexists _, _. split; [done |]. by eapply js_scrape_bounds. }
  destruct (static_scrape_spec w u b) as (S0 & b1 & HS & _). rewrite HS.
  pose proof (static_scrape_interactions _ _ _ _ HS) as Hi.
  destruct (_needs_js_rendering _ && PLAYWRIGHT_AVAILABLE w).
  { destruct (js_scrape_spec w u b1) as (J & b2 & HJ & _). rewrite HJ.
    eexists _, _. split; [done |]. rewrite merge_interactions_eq.
    by eapply js_scrape_bounds. }
  destruct (_needs_js_rendering _ && negb (PLAYWRIGHT_AVAILABLE w));
    eexists _, _; (split; [done |]); cbn [interactions push_error set_errors update];
    rewrite Hi; apply InterOK_init.
Qed.

End InterScripts.

(** X23.  In every result of [scrape], at most 24 clicks are recorded: up
    to 3 tabs and up to 3 clicks for each of the 7 load-more selectors. *)
Theorem scrape_clicks_bound (w : World) (u : string) (b : B w) :
  exists r b', scrape w u b = (Ok r, b') /\ length (clicks (interactions r)) <= 24.
Proof.
  destruct (scrape_interactions_ok w u b) as (r & b' & Hr & Hc & _). eauto.
Qed.

(** X24.  In every result of [scrape], the number of scroll rounds is at
    most 3. *)
Theorem scrape_scrolls_bound (w : World) (u : string) (b : B w) :
  exists r b', scrape w u b = (Ok r, b') /\ scrolls (interactions r) <= 3.
Proof.
  destruct (scrape_interactions_ok w u b) as (r & b' & Hr & _ & Hs & _). eauto.
Qed.

(** X25.  In every result of [scrape], at most 3 pages are recorded and no
    page is recorded twice. *)
Theorem scrape_pages_bound (w : World) (u : string) (b : B w) :
  exists r b', scrape w u b = (Ok r, b')
    /\ length (pages (interactions r)) <= 3 /\ NoDup (pages (interactions r)).
Proof.
  destruct (scrape_interactions_ok w u b) as (r & b' & Hr & _ & _ & Hp & Hnd). eauto.
Qed.

(** * Metadata *)

(** X26.  When [_extract_meta] returns, the metadata has exactly the keys
    [title], [description], [language] and [canonical]; the language is a
    string, never [None]; and the canonical URL is [None] or what
    [urljoin] made of the page URL and an [href]. *)
Theorem extract_meta_keys (urljoin : string -> string -> res string)
    (parser : node) (u : string) (m : Meta) :
  _extract_meta urljoin parser u = Ok m ->
  dom m = ({[ "title"; "description"; "language"; "canonical" ]} : gset string)
  /\ (exists lang, m !! "language" = Some (PStr lang))
  /\ (m !! "canonical" = Some PNone
      \/ exists href c, urljoin u href = Ok c /\ m !! "canonical" = Some (PStr c)).
Proof.
  unfold _extract_meta, bind_, mbind, res_bind.
  match goal with
  | |- context [<["language" := ?l]> _] =>
      assert (exists lang, l = PStr lang) as [lang ->]
  end.
  { destruct (css_first_doc (Tags ["html"]) parser) as [h|]; [| by eauto].
    destruct (attr_get h "lang" (PStr "en")) as [|lg]; [by eauto |].
    destruct (PyStr.truthy lg); by eauto. }
  match goal with
  | |- match ?c with _ => _ end = _ -> _ =>
      assert (c = Ok PNone \/ exists href r, urljoin u href = r /\ c = (x <- r ;; Ok (PStr x)))
        as Hc
  end.
  { destruct (css_first_doc (TagAttr "link" "rel" "canonical") parser) as [t|];
      [| by left].
    destruct (attr_get t "href" (PStr "")) as [|href]; [by left |].
    destruct (PyStr.truthy href); [| by left]. right. by exists href, (urljoin u href). }
  destruct Hc as [-> | (href & r & Hr & ->)].
  - intros [= <-]. split_and!.
    + rewrite !dom_insert_L, dom_empty_L. set_solver.
    + exists lang. by vm_compute.
    + left. by vm_compute.
  - unfold bind_, mbind, res_bind. destruct r as [c|e] eqn:Er; [| done].
    intros [= <-]. split_and!.
    + rewrite !dom_insert_L, dom_empty_L. set_solver.
    + exists lang. by vm_compute.
    + right. exists href, c. split; [done |]. by vm_compute.
Qed.

Lemma extract_meta_keys_witness :
  _extract_meta plain_urljoin page_one example_url = Ok page_one_meta
  /\ dom page_one_meta
     = ({[ "title"; "description"; "language"; "canonical" ]} : gset string)
  /\ (exists lang, page_one_meta !! "language" = Some (PStr lang))
  /\ (page_one_meta !! "canonical" = Some PNone
      \/ exists href c, plain_urljoin example_url href = Ok c
           /\ page_one_meta !! "canonical" = Some (PStr c)).
Proof.
  assert (_extract_meta plain_urljoin page_one example_url = Ok page_one_meta) as H
    by (vm_compute; reflexivity).
  split; [exact H |].
  exact (extract_meta_keys plain_urljoin page_one example_url page_one_meta H).
Defined.

(** * The request handler *)

(** X27.  The handler is called with a validated request.  It answers
    with the result of [scrape] on [str(request.url)], and the [url] of
    that result is this string; neither [HTTPException] 400 nor the
    fallback result is ever the answer. *)
Theorem scrape_url_answers (w : World) (request : ScrapeRequest) (b : B w) :
  exists r b',
    scrape w (url_str (request_url request)) b = (Ok r, b')
    /\ scrape_url w request b = (Ok (ResultResponse r), b')
    /\ url r = url_str (request_url request).
Proof.
  unfold scrape_url. cbv zeta. rewrite (url_scheme (request_url request)). cbn [negb].
  destruct (scrape_invariant w (url_str (request_url request)) b)
    as (r & b' & Hr & Hu & _).
  exists r, b'. split_and!; [done | | done].
  unfold try_except, bind_, mbind, M_bind. by rewrite Hr.
Qed.

(** The handler on a request for [http://example.com/]. *)
Example scrape_url_example :
  exists r,
    scrape_url intro_world example_request tt = (Ok (ResultResponse r), tt)
    /\ url r = "http://example.com/"
    /\ length (sections r) = 2.
Proof. eexists. split; [vm_compute; reflexivity |]. by split. Qed.
